(** * Document extraction and relational persistence

    A shallow embedding of [file_extractor.py] (class [DataExtractor]) and of
    the relational sink of [storage.py] (class [MySQLStorage]), followed by
    the properties the specification states about them.

    Python values are modelled by the inductive [Py.value]; [str] by Rocq
    strings (code points below 256); [dict]s by [gmap string Py.value];
    [int] by [Z].  Methods run in a state-and-exception monad, so that
    "does not mutate" and "raises" are statements about the embedding rather
    than conventions. *)

From Stdlib Require Import ZArith Ascii String.
From Stdlib.Strings Require Import Byte.
From stdpp Require Import gmap strings list pretty.

Open Scope Z_scope.

(** ** Python values, strings and control effects *)

Module Py.

(** The values that occur in extraction results and statement parameters. *)
Inductive value : Type :=
| None_
| Str (s : string)
| Int (z : Z)
| Bytes (b : list byte).

#[global] Instance byte_eq_dec : EqDecision byte := byte_eq_dec.
#[global] Instance value_eq_dec : EqDecision value.
Proof. solve_decision. Defined.

(** An object seen through its attributes ([getattr]), and a [dict]. *)
Abbreviation obj := (gmap string value).
Abbreviation dict := (gmap string value).

(** [getattr(o, name, default)]; the object may be Python's [None], which has
    none of the attributes read by this program. *)
Definition getattr (o : option obj) (name : string) (default : value) : value :=
  match o with
  | Some attrs => match attrs !! name with Some v => v | None => default end
  | None => default
  end.

(** [d.get(key, default)] *)
Definition get (d : dict) (key : string) (default : value) : value :=
  match d !! key with Some v => v | None => default end.

(** [d.get(key)] *)
Definition get_or_None (d : dict) (key : string) : value := get d key None_.

(** Truth value of a value used as a condition. *)
Definition truthy (v : value) : bool :=
  match v with
  | None_ => false
  | Str s => negb (String.eqb s "")
  | Int z => negb (Z.eqb z 0)
  | Bytes b => match b with [] => false | _ => true end
  end.

(** *** [str] methods *)

(** [c.isspace()] for a code point below 256. *)
Definition isspace (c : ascii) : bool :=
  let n := N_of_ascii c in
  ((9 <=? n) && (n <=? 13) || (28 <=? n) && (n <=? 32)
   || (n =? 133) || (n =? 160))%N.

Fixpoint lstrip (s : string) : string :=
  match s with
  | EmptyString => EmptyString
  | String c s' => if isspace c then lstrip s' else s
  end.

Fixpoint rstrip (s : string) : string :=
  match s with
  | EmptyString => EmptyString
  | String c s' =>
      match rstrip s' with
      | EmptyString => if isspace c then EmptyString else String c EmptyString
      | r => String c r
      end
  end.

(** [s.strip()] *)
Definition strip (s : string) : string := rstrip (lstrip s).

(** [s.replace(old, new)] for one-character [old] and [new]. *)
Fixpoint replace (old new : ascii) (s : string) : string :=
  match s with
  | EmptyString => EmptyString
  | String c s' =>
      String (if Ascii.eqb c old then new else c) (replace old new s')
  end.

(** [c.lower()] for a code point below 256: A-Z and the Latin-1 capitals. *)
Definition lower_char (c : ascii) : ascii :=
  let n := N_of_ascii c in
  if ((65 <=? n) && (n <=? 90)
      || (192 <=? n) && (n <=? 222) && negb (n =? 215))%N
  then ascii_of_N (n + 32) else c.

Fixpoint lower (s : string) : string :=
  match s with
  | EmptyString => EmptyString
  | String c s' => String (lower_char c) (lower s')
  end.

(** [sub in s] on strings. *)
Fixpoint contains (sub s : string) : bool :=
  String.prefix sub s
  || match s with
     | EmptyString => false
     | String _ s' => contains sub s'
     end.

(** [sep.join(items)] *)
Definition join (sep : string) (items : list string) : string :=
  String.concat sep items.

(** The one-character string written [\n] in Python. *)
Definition nl : string := String "010"%char EmptyString.

(** [str(n)] and [f"{n}"] for an [int]. *)
Definition str_of_int (n : Z) : string := pretty n.

(** *** Exceptions and the method monad *)

Inductive exn : Type :=
| ValueError (msg : string)
| AttributeError (msg : string)
| IndexError (msg : string)
| KeyError (msg : string)
| TypeError (msg : string)
| LibraryError (msg : string)   (* raised inside fitz, pdfplumber or PIL *)
| MySQLError (msg : string).    (* mysql.connector.Error *)

Inductive res (A : Type) : Type :=
| Ok (a : A)
| Raise (e : exn).
Arguments Ok {A} a.
Arguments Raise {A} e.

(** The exception is an error of the MySQL connector. *)
Definition is_mysql (e : exn) : Prop :=
  match e with
  | MySQLError _ => True
  | _ => False
  end.

(** The outcome is a result, or an exception among [allowed]. *)
Definition raises_within {A} (allowed : exn → Prop) (r : res A) : Prop :=
  match r with
  | Ok _ => True
  | Raise e => allowed e
  end.

(** A method over a state [S]: it returns or raises, and leaves a state. *)
Definition M (S A : Type) : Type := S → res A * S.

Definition ret {S A} (a : A) : M S A := λ s, (Ok a, s).

Definition bind {S A B} (m : M S A) (k : A → M S B) : M S B :=
  λ s, match m s with
       | (Ok a, s') => k a s'
       | (Raise e, s') => (Raise e, s')
       end.

Definition raise {S A} (e : exn) : M S A := λ s, (Raise e, s).

Definition gets {S A} (f : S → A) : M S A := λ s, (Ok (f s), s).

Definition modify {S} (f : S → S) : M S unit := λ s, (Ok tt, f s).

(** A pure computation that may raise, run inside a method. *)
Definition lift {S A} (r : res A) : M S A := λ s, (r, s).

(** [try: body  except mysql.connector.Error as err: handler] *)
Definition try_except_mysql {S A} (body : M S A) (handler : string → M S A)
  : M S A :=
  λ s, match body s with
       | (Raise (MySQLError err), s') => handler err s'
       | other => other
       end.

Declare Scope py_scope.
Delimit Scope py_scope with py.
Notation "x <- m ;; k" := (bind m (λ x, k))
  (at level 100, m at next level, right associativity) : py_scope.
Notation "m ;;; k" := (bind m (λ _, k))
  (at level 100, right associativity) : py_scope.

(** [for x in xs: body] *)
Fixpoint for_each {S A} (xs : list A) (body : A → M S unit) : M S unit :=
  match xs with
  | [] => ret tt
  | x :: xs' => bind (body x) (λ _, for_each xs' body)
  end.

(** The same monad without state, for the pure parts of a method. *)
Definition rbind {A B} (r : res A) (k : A → res B) : res B :=
  match r with Ok a => k a | Raise e => Raise e end.

Notation "x <~ r ;; k" := (rbind r (λ x, k))
  (at level 100, r at next level, right associativity) : py_scope.

(** [for x in xs: acc = body(x, acc)], where the body may raise. *)
Fixpoint for_fold {A B} (xs : list A) (body : A → B → res B) (acc : B)
  : res B :=
  match xs with
  | [] => Ok acc
  | x :: xs' => rbind (body x acc) (for_fold xs' body)
  end.

(** [enumerate(xs)] *)
Definition enumerate {A} (xs : list A) : list (Z * A) :=
  imap (λ i x, (Z.of_nat i, x)) xs.

(** [range(n)] *)
Definition range (n : nat) : list Z := Z.of_nat <$> seq 0 n.

End Py.

(** ** The object models the extractor reads

    One module per third-party library, holding only what the extractor
    touches.  They are plain data: the libraries' parsing is outside this
    repository. *)

(** PyPDF2: the object loaded for a [pdf] file. *)
Module PyPDF2.
Record PageObject := { extract_text : option string }.
Record PdfReader := { pages : list PageObject; metadata : option Py.obj }.
End PyPDF2.

(** PyMuPDF, opened by path for images and links of a [pdf] file. *)
Module fitz.
(** An entry of [page.get_images(full=True)]: a tuple headed by the xref. *)
Record image_ref := { xref : Z; rest : list Py.value }.
Record base_image :=
  { image : list byte; ext : string; width : Z; height : Z }.
Record Page := { get_images : list image_ref; get_links : list Py.dict }.
Record Document :=
  { doc_pages : list Page;
    extract_image : Z → option base_image }.
End fitz.

(** pdfplumber, opened by path for the tables of a [pdf] file. *)
Module pdfplumber.
(** A detected table: rows of cells, each a string or [None]. *)
Record Page := { extract_tables : option (list (list (list Py.value))) }.
Record PDF := { pages : list Page }.
End pdfplumber.

(** Tables of python-docx and python-pptx have the same shape. *)
Module office.
Record Cell := { text : string }.
Record Row := { cells : list Cell }.
Record Table := { rows : list Row }.
End office.

(** python-docx: the object loaded for a [docx] file. *)
Module docx.
(** [target_blob] is [None] for an external relationship, whose
    [target_part] cannot be read. *)
Record Relationship :=
  { target_ref : string; target_blob : option (list byte) }.
(** [hyperlinks]: the [r:id] attribute (possibly absent) of each
    [w:hyperlink] element under the paragraph. *)
Record Paragraph := { text : string; hyperlinks : list (option string) }.
Record Document :=
  { paragraphs : list Paragraph;
    tables : list office.Table;
    core_properties : Py.obj;
    part_rels : list (string * Relationship) }.

(** [rels[rId]] on the relationship dictionary. *)
Fixpoint rels_lookup (rels : list (string * Relationship)) (rId : string)
  : option Relationship :=
  match rels with
  | [] => None
  | (k, r) :: rels' => if decide (k = rId) then Some r else rels_lookup rels' rId
  end.
End docx.

(** python-pptx: the object loaded for a [pptx] file.  An attribute that a
    shape may lack ([hasattr]) is an [option].  The library keeps the link of
    a shape itself on [shape.click_action.hyperlink], which the extractor
    never reads; [hyperlink] is the attribute of that name the extractor
    tests for, which the shape classes of the library do not define.  A read
    of [run.hyperlink] returns the run's link and also writes to the tree
    the library keeps; the records give what is returned, and the write is
    kept in [DataExtractor.handle]. *)
Module pptx.
Record Hyperlink := { address : option string }.
Record Run := { run_hyperlink : option Hyperlink }.
Record Paragraph := { runs : list Run }.
Record TextFrame := { paragraphs : list Paragraph }.
Record Shape :=
  { text : option string;
    image_blob : option (list byte);   (* [shape.image], when present and truthy *)
    table : option office.Table;       (* [has_table] holds exactly when present *)
    hyperlink : option Hyperlink;
    click_action : option Hyperlink;   (* [shape.click_action.hyperlink], when the shape has a click action *)
    text_frame : option TextFrame }.
Record Slide := { shapes : list Shape }.
Record Presentation := { slides : list Slide; core_properties : Py.obj }.

Definition has_table (s : Shape) : bool :=
  match table s with Some _ => true | None => false end.
End pptx.

(** Pillow: what [Image.open] reports about a decoded blob. *)
Module PIL.
Record Image := { format : string; width : Z; height : Z }.
End PIL.

(** ** [file_extractor.py] *)

Module DataExtractor.
Import Py.
Local Open Scope py_scope.

(** [loader.file]: whatever the loader produced. *)
Inductive file_obj : Type :=
| PdfReader (r : PyPDF2.PdfReader)
| Document (d : docx.Document)
| Presentation (p : pptx.Presentation)
| NoFile.

(** The attributes [__init__] sets on [self]; [file_type] is the extension of
    [file_path] without its dot. *)
Record self_t :=
  { file : file_obj; file_path : string; file_type : string }.

(** What a call can read outside [self]: the files that [fitz.open] and
    [pdfplumber.open] find at a path, and Pillow's decoder.  No operation
    writes to it; between two calls the files may be changed by others
    ([Spec.event]). *)
Record world :=
  { fitz_open : string → option fitz.Document;
    pdfplumber_open : string → option pdfplumber.PDF;
    Image_open : list byte → option PIL.Image }.

Record state := { self : self_t; env : world }.

Definition unsupported : exn :=
  ValueError "Unsupported file format. Only PDF, DOCX, and PPTX are supported.".

(** Attribute reads on [self.file]; an object of another class has no such
    attribute. *)
Definition file_pages (f : file_obj) : res (list PyPDF2.PageObject) :=
  match f with
  | PdfReader r => Ok (PyPDF2.pages r)
  | _ => Raise (AttributeError "pages")
  end.

Definition file_metadata (f : file_obj) : res (option obj) :=
  match f with
  | PdfReader r => Ok (PyPDF2.metadata r)
  | _ => Raise (AttributeError "metadata")
  end.

Definition file_paragraphs (f : file_obj) : res (list docx.Paragraph) :=
  match f with
  | Document d => Ok (docx.paragraphs d)
  | _ => Raise (AttributeError "paragraphs")
  end.

Definition file_tables (f : file_obj) : res (list office.Table) :=
  match f with
  | Document d => Ok (docx.tables d)
  | _ => Raise (AttributeError "tables")
  end.

Definition file_part_rels (f : file_obj)
  : res (list (string * docx.Relationship)) :=
  match f with
  | Document d => Ok (docx.part_rels d)
  | _ => Raise (AttributeError "part")
  end.

Definition file_core_properties (f : file_obj) : res obj :=
  match f with
  | Document d => Ok (docx.core_properties d)
  | Presentation p => Ok (pptx.core_properties p)
  | _ => Raise (AttributeError "core_properties")
  end.

Definition file_slides (f : file_obj) : res (list pptx.Slide) :=
  match f with
  | Presentation p => Ok (pptx.slides p)
  | _ => Raise (AttributeError "slides")
  end.

(** [_extract_metadata] *)
Definition _extract_metadata (properties : option obj) : dict :=
  {[ "author" := getattr properties "author" (Str "");
     "created" := getattr properties "created" (Str "");
     "last_modified_by" := getattr properties "last_modified_by" (Str "");
     "title" := getattr properties "title" (Str "") ]}.

(** [_extract_table_row] *)
Definition _extract_table_row (row : office.Row) : list value :=
  (λ cell, Str (strip (office.text cell))) <$> office.cells row.

(** [_extract_pdf_link] *)
Definition _extract_pdf_link (page : fitz.Page) (page_number : Z) : list dict :=
  (λ link, {[ "url" := get link "uri" (Str "");
              "page_number" := Int page_number ]})
  <$> fitz.get_links page.

(** [extract_text] *)
Definition extract_text : M state (string * dict) :=
  file_type <- gets (λ s, file_type (self s)) ;;
  file <- gets (λ s, file (self s)) ;;
  if decide (file_type = "pdf") then
    pages <- lift (file_pages file) ;;
    let text :=
      join "" ((λ page, match PyPDF2.extract_text page with
                        | Some t => if String.eqb t "" then "" else t
                        | None => ""
                        end) <$> pages) in
    md <- lift (file_metadata file) ;;
    ret (text, _extract_metadata md)
  else if decide (file_type = "docx") then
    paragraphs <- lift (file_paragraphs file) ;;
    let text := join nl (docx.text <$> paragraphs) in
    props <- lift (file_core_properties file) ;;
    ret (text, _extract_metadata (Some props))
  else if decide (file_type = "pptx") then
    slides <- lift (file_slides file) ;;
    let text :=
      join nl (slide ← slides; shape ← pptx.shapes slide;
               match pptx.text shape with Some t => [t] | None => [] end) in
    props <- lift (file_core_properties file) ;;
    ret (text, _extract_metadata (Some props))
  else raise unsupported.

(** The dynamically typed arguments of [_process_image]. *)
Inductive image_arg : Type :=
| ImgRef (r : fitz.image_ref)
| ImgBlob (b : list byte)
| ImgShape (s : pptx.Shape).

Inductive doc_arg : Type :=
| DocNone
| DocFitz (d : fitz.Document)
| DocInt (z : Z).

Definition resolution (width height : Z) : string :=
  str_of_int width +:+ "x" +:+ str_of_int height.

Definition decode (w : world) (blob : list byte) : res PIL.Image :=
  match Image_open w blob with
  | Some im => Ok im
  | None => Raise (LibraryError "cannot identify image file")
  end.

(** [_process_image(file_type, img, doc=None, page_number=None)] *)
Definition _process_image (w : world) (file_type : string) (img : image_arg)
    (doc : doc_arg) (page_number : value) : res dict :=
  if decide (file_type = "pdf") then
    match doc, img with
    | DocFitz d, ImgRef r =>
        match fitz.extract_image d (fitz.xref r) with
        | Some base_image =>
            Ok {[ "image" := Bytes (fitz.image base_image);
                  "image_format" := Str (fitz.ext base_image);
                  "image_resolution" :=
                    Str (resolution (fitz.width base_image)
                                    (fitz.height base_image));
                  "page_number" := page_number ]}
        | None => Raise (LibraryError "extract_image")
        end
    | _, _ => Raise (AttributeError "extract_image")
    end
  else if decide (file_type = "docx") then
    match img with
    | ImgBlob image_blob =>
        image <~ decode w image_blob ;;
        Ok {[ "image" := Bytes image_blob;
              "image_format" := Str (lower (PIL.format image));
              "image_resolution" :=
                Str (resolution (PIL.width image) (PIL.height image)) ]}
    | _ => Raise (AttributeError "read")
    end
  else if decide (file_type = "pptx") then
    match img with
    | ImgShape shape =>
        match pptx.image_blob shape with
        | Some image_blob =>
            img' <~ decode w image_blob ;;
            Ok {[ "image" := Bytes image_blob;
                  "image_format" := Str (lower (PIL.format img'));
                  "image_resolution" :=
                    Str (resolution (PIL.width img') (PIL.height img'));
                  "slide_number" := page_number ]}
        | None => Raise (AttributeError "image")
        end
    | _ => Raise (AttributeError "image")
    end
  else Raise (ValueError "Unsupported file type for image processing.").

(** [fitz.open(path)] *)
Definition open_fitz (w : world) (path : string) : res fitz.Document :=
  match fitz_open w path with
  | Some doc => Ok doc
  | None => Raise (LibraryError "fitz.open")
  end.

(** [pdfplumber.open(path)] *)
Definition open_pdfplumber (w : world) (path : string) : res pdfplumber.PDF :=
  match pdfplumber_open w path with
  | Some pdf => Ok pdf
  | None => Raise (LibraryError "pdfplumber.open")
  end.

(** [doc[page_num]] *)
Definition load_page (doc : fitz.Document) (page_num : Z) : res fitz.Page :=
  match fitz.doc_pages doc !! Z.to_nat page_num with
  | Some page => Ok page
  | None => Raise (IndexError "page not in document")
  end.

(** [extract_images].  The [pptx] call passes the slide number in the third
    position, which is the parameter [doc]; [page_number] keeps its default. *)
Definition extract_images : M state (list dict) :=
  file_type <- gets (λ s, file_type (self s)) ;;
  file <- gets (λ s, file (self s)) ;;
  w <- gets env ;;
  if decide (file_type = "pdf") then
    path <- gets (λ s, file_path (self s)) ;;
    doc <- lift (open_fitz w path) ;;
    lift (for_fold (range (length (fitz.doc_pages doc)))
            (λ page_num images,
               page <~ load_page doc page_num ;;
               for_fold (fitz.get_images page)
                 (λ img images,
                    im <~ _process_image w "pdf" (ImgRef img) (DocFitz doc)
                            (Int (page_num + 1)) ;;
                    Ok (images ++ [im]))
                 images)
            [])
  else if decide (file_type = "docx") then
    rels <- lift (file_part_rels file) ;;
    lift (for_fold (snd <$> rels)
            (λ rel images,
               if contains "image" (docx.target_ref rel) then
                 match docx.target_blob rel with
                 | Some image_blob =>
                     im <~ _process_image w "docx" (ImgBlob image_blob)
                             DocNone None_ ;;
                     Ok (images ++ [im])
                 | None => Raise (ValueError "target_part")
                 end
               else Ok images)
            [])
  else if decide (file_type = "pptx") then
    slides <- lift (file_slides file) ;;
    lift (for_fold (enumerate slides)
            (λ '(slide_num, slide) images,
               for_fold (pptx.shapes slide)
                 (λ shape images,
                    match pptx.image_blob shape with
                    | Some _ =>
                        im <~ _process_image w "pptx" (ImgShape shape)
                                (DocInt (slide_num + 1)) None_ ;;
                        Ok (images ++ [im])
                    | None => Ok images
                    end)
                 images)
            [])
  else raise unsupported.

(** [extract_tables] *)
Definition extract_tables : M state (list (list (list value))) :=
  file_type <- gets (λ s, file_type (self s)) ;;
  file <- gets (λ s, file (self s)) ;;
  w <- gets env ;;
  if decide (file_type = "pdf") then
    path <- gets (λ s, file_path (self s)) ;;
    pdf <- lift (open_pdfplumber w path) ;;
    ret (fold_left
           (λ tables page,
              tables ++ match pdfplumber.extract_tables page with
                        | Some found => found
                        | None => []
                        end)
           (pdfplumber.pages pdf) [])
  else if decide (file_type = "docx") then
    tables <- lift (file_tables file) ;;
    ret ((λ table, _extract_table_row <$> office.rows table) <$> tables)
  else if decide (file_type = "pptx") then
    slides <- lift (file_slides file) ;;
    ret (fold_left
           (λ tables slide,
              fold_left
                (λ tables shape,
                   (* [if shape.has_table:] then [shape.table] is there *)
                   match pptx.table shape with
                   | Some table =>
                       tables ++ [_extract_table_row <$> office.rows table]
                   | None => tables
                   end)
                (pptx.shapes slide) tables)
           slides [])
  else raise unsupported.

(** [hasattr(x, "hyperlink") and x.hyperlink.address]: the address when the
    attribute is there and the address is neither [None] nor empty. *)
Definition link_address (h : option pptx.Hyperlink) : option string :=
  match h with
  | Some h' =>
      match pptx.address h' with
      | Some a => if truthy (Str a) then Some a else None
      | None => None
      end
  | None => None
  end.

(** [extract_links] *)
Definition extract_links : M state (list dict) :=
  file_type <- gets (λ s, file_type (self s)) ;;
  file <- gets (λ s, file (self s)) ;;
  w <- gets env ;;
  if decide (file_type = "pdf") then
    path <- gets (λ s, file_path (self s)) ;;
    doc <- lift (open_fitz w path) ;;
    lift (for_fold (range (length (fitz.doc_pages doc)))
            (λ page_num links,
               page <~ load_page doc page_num ;;
               Ok (links ++ _extract_pdf_link page (page_num + 1)))
            [])
  else if decide (file_type = "docx") then
    paragraphs <- lift (file_paragraphs file) ;;
    rels <- lift (file_part_rels file) ;;
    ret (fold_left
           (λ links para,
              fold_left
                (λ links rId,
                   match rId with
                   | Some rId' =>
                       match docx.rels_lookup rels rId' with
                       | Some rel =>
                           links ++ [ {[ "url" := Str (docx.target_ref rel);
                                         "page_number" := None_ ]} ]
                       | None => links
                       end
                   | None => links
                   end)
                (docx.hyperlinks para) links)
           paragraphs [])
  else if decide (file_type = "pptx") then
    slides <- lift (file_slides file) ;;
    ret (fold_left
           (λ links '(slide_num, slide),
              fold_left
                (λ links shape,
                   let links :=
                     match link_address (pptx.hyperlink shape) with
                     | Some a =>
                         links ++ [ {[ "url" := Str a;
                                       "slide_number" := Int (slide_num + 1) ]} ]
                     | None => links
                     end in
                   match pptx.text_frame shape with
                   | Some tf =>
                       fold_left
                         (λ links paragraph,
                            fold_left
                              (λ links run,
                                 match link_address (pptx.run_hyperlink run) with
                                 | Some a =>
                                     links ++
                                     [ {[ "url" := Str a;
                                          "slide_number" := Int (slide_num + 1) ]} ]
                                 | None => links
                                 end)
                              (pptx.runs paragraph) links)
                         (pptx.paragraphs tf) links
                   | None => links
                   end)
                (pptx.shapes slide) links)
           (enumerate slides) [])
  else raise unsupported.

(** *** The handle as python-pptx keeps it

    The records of [pptx] give what the library's API returns.  The library
    keeps a presentation as an XML tree, and its property [_Run.hyperlink]
    writes to it: it calls [get_or_add_rPr], so that the first read of
    [run.hyperlink] gives the run an empty run-properties element.  A
    [handle] is the state together with the set of the runs that have this
    element, a run being named by the positions of its slide, its shape, its
    paragraph and itself. *)
Definition run_id : Type := nat * nat * nat * nat.

Record handle := { api : state; rPr : gset run_id }.

(** [enumerate(xs)], the positions kept as they are. *)
Definition indexed {A} (xs : list A) : list (nat * A) := imap pair xs.

(** The loop of [extract_links] over the slides, with the writes of
    [run.hyperlink]: [hasattr(run, "hyperlink")] reads the property, and so
    writes, whether or not the run carries an address. *)
Definition slides_loop (slides : list pptx.Slide) (marks : gset run_id)
  : list dict * gset run_id :=
  fold_left
    (λ acc '(i, slide),
       fold_left
         (λ acc '(j, shape),
            let links :=
              match link_address (pptx.hyperlink shape) with
              | Some a =>
                  acc.1 ++ [ {[ "url" := Str a;
                                "slide_number" := Int (Z.of_nat i + 1) ]} ]
              | None => acc.1
              end in
            match pptx.text_frame shape with
            | Some tf =>
                fold_left
                  (λ acc '(k, paragraph),
                     fold_left
                       (λ acc '(l, run),
                          match pptx.run_hyperlink run with
                          | Some h =>
                              (match link_address (Some h) with
                               | Some a =>
                                   acc.1 ++
                                   [ {[ "url" := Str a;
                                        "slide_number" :=
                                          Int (Z.of_nat i + 1) ]} ]
                               | None => acc.1
                               end,
                               {[ (i, j, k, l) ]} ∪ acc.2)
                          | None => acc
                          end)
                       (indexed (pptx.runs paragraph)) acc)
                  (indexed (pptx.paragraphs tf)) (links, acc.2)
            | None => (links, acc.2)
            end)
         (indexed (pptx.shapes slide)) acc)
    (indexed slides) ([], marks).

(** [extract_links] on the handle.  Only the branch of a [pptx] file reads
    runs; the other branches are those of [extract_links] above. *)
Definition extract_links_on : M handle (list dict) :=
  λ h,
    if decide (file_type (self (api h)) = "pptx") then
      match file_slides (file (self (api h))) with
      | Ok slides =>
          let '(links, marks) := slides_loop slides (rPr h) in
          (Ok links, {| api := api h; rPr := marks |})
      | Raise e => (Raise e, h)
      end
    else
      let '(r, s) := extract_links (api h) in (r, {| api := s; rPr := rPr h |}).

End DataExtractor.

(** ** [storage.py]: the relational sink *)

Module MySQLStorage.
Import Py.
Local Open Scope py_scope.

(** The statements [save] and [create_tables] pass to [cursor.execute]. *)
Inductive stmt : Type :=
| CreateTextTable
| CreateLinksTable
| CreateImagesTable
| InsertText
| InsertLink
| InsertImage
| ShowTablesLike (table_name : string)
| ShowColumnsFrom (table_name : string)
| AlterTableAddColumn (table_name col : string)
| CreateTable (table_name : string) (sanitized_columns : list string)
| InsertRow (table_name : string) (sanitized_columns : list string)
            (values : nat).

#[global] Instance stmt_eq_dec : EqDecision stmt.
Proof. solve_decision. Defined.

Definition backquoted (col : string) : string := "`" +:+ col +:+ "`".

(** The text of each statement, as the source builds it. *)
Definition sql (q : stmt) : string :=
  match q with
  | CreateTextTable => "CREATE TABLE IF NOT EXISTS extracted_text (content TEXT)"
  | CreateLinksTable =>
      "CREATE TABLE IF NOT EXISTS extracted_links (link TEXT, page_number INTEGER)"
  | CreateImagesTable =>
      "CREATE TABLE IF NOT EXISTS extracted_images (image LONGBLOB, image_format TEXT, resolution TEXT, page_number INTEGER)"
  | InsertText => "INSERT INTO extracted_text (content) VALUES (%s)"
  | InsertLink => "INSERT INTO extracted_links (link, page_number) VALUES (%s, %s)"
  | InsertImage =>
      "INSERT INTO extracted_images (image, image_format, resolution, page_number) VALUES (%s, %s, %s, %s)"
  | ShowTablesLike table_name => "SHOW TABLES LIKE '" +:+ table_name +:+ "'"
  | ShowColumnsFrom table_name => "SHOW COLUMNS FROM " +:+ table_name
  | AlterTableAddColumn table_name col =>
      "ALTER TABLE " +:+ table_name +:+ " ADD COLUMN " +:+ backquoted col
      +:+ " TEXT"
  | CreateTable table_name sanitized_columns =>
      "CREATE TABLE " +:+ table_name
      +:+ " (id INT AUTO_INCREMENT PRIMARY KEY, "
      +:+ join ", " ((λ col, backquoted col +:+ " TEXT") <$> sanitized_columns)
      +:+ ")"
  | InsertRow table_name sanitized_columns values =>
      "INSERT INTO " +:+ table_name +:+ " ("
      +:+ join ", " (backquoted <$> sanitized_columns)
      +:+ ") VALUES (" +:+ join ", " (replicate values "%s") +:+ ")"
  end.

(** The MySQL connection, its cursor and the server behind them.  Nothing is
    assumed about the server: every call may fail with a
    [mysql.connector.Error], whose message is the [string]. *)
Record driver :=
  { db : Type;
    execute : stmt → list value → db → option string * db;
    fetchone : db → (string + option (list value)) * db;
    fetchall : db → (string + list (value * list value)) * db;
    commit : db → option string * db;
    (** [f"{row}"]: Python's rendering of a list. *)
    repr_row : list value → string }.

Section Sink.
Context (D : driver).

(** The state a [save] runs in.  [table_name] is the class attribute
    [MySQLStorage.table_name], initially 1 and shared by every instance of
    the process; [sent] lists the statements handed to [cursor.execute],
    oldest first, whether or not the server accepted them. *)
Record proc :=
  { extractor : DataExtractor.state;
    table_name : Z;
    server : db D;
    sent : list (stmt * list value);
    stdout : list string }.

Definition set_extractor (e : DataExtractor.state) (p : proc) : proc :=
  {| extractor := e; table_name := table_name p; server := server p;
     sent := sent p; stdout := stdout p |}.

Definition set_table_name (n : Z) (p : proc) : proc :=
  {| extractor := extractor p; table_name := n; server := server p;
     sent := sent p; stdout := stdout p |}.

Definition set_server (d : db D) (p : proc) : proc :=
  {| extractor := extractor p; table_name := table_name p; server := d;
     sent := sent p; stdout := stdout p |}.

Definition log_sent (q : stmt) (params : list value) (p : proc) : proc :=
  {| extractor := extractor p; table_name := table_name p; server := server p;
     sent := sent p ++ [(q, params)]; stdout := stdout p |}.

(** [print(line)] *)
Definition print (line : string) : M proc unit :=
  modify (λ p, {| extractor := extractor p; table_name := table_name p;
                  server := server p; sent := sent p;
                  stdout := stdout p ++ [line] |}).

(** A call of a method of [self.extractor]. *)
Definition call_extractor {A} (m : M DataExtractor.state A) : M proc A :=
  λ p, let '(r, e) := m (extractor p) in (r, set_extractor e p).

(** [self.cursor.execute(q, params)] *)
Definition cursor_execute (q : stmt) (params : list value) : M proc unit :=
  λ p, let '(r, d) := execute D q params (server p) in
       let p' := set_server d (log_sent q params p) in
       match r with
       | None => (Ok tt, p')
       | Some err => (Raise (MySQLError err), p')
       end.

(** [self.cursor.fetchone()] *)
Definition cursor_fetchone : M proc (option (list value)) :=
  λ p, let '(r, d) := fetchone D (server p) in
       match r with
       | inr row => (Ok row, set_server d p)
       | inl err => (Raise (MySQLError err), set_server d p)
       end.

(** [self.cursor.fetchall()] *)
Definition cursor_fetchall : M proc (list (value * list value)) :=
  λ p, let '(r, d) := fetchall D (server p) in
       match r with
       | inr found => (Ok found, set_server d p)
       | inl err => (Raise (MySQLError err), set_server d p)
       end.

(** [self.conn.commit()] *)
Definition conn_commit : M proc unit :=
  λ p, let '(r, d) := commit D (server p) in
       match r with
       | None => (Ok tt, set_server d p)
       | Some err => (Raise (MySQLError err), set_server d p)
       end.

(** [create_tables] *)
Definition create_tables : M proc unit :=
  cursor_execute CreateTextTable [] ;;;
  cursor_execute CreateLinksTable [] ;;;
  cursor_execute CreateImagesTable [] ;;;
  conn_commit.

(** [__init__], once the connection is there: it binds the extractor and
    creates the fixed tables.  It does not assign [table_name]. *)
Definition init (e : DataExtractor.state) : M proc unit :=
  modify (set_extractor e) ;;;
  create_tables.

(** [d[key]] *)
Definition subscript (d : dict) (key : string) : res value :=
  match d !! key with
  | Some v => Ok v
  | None => Raise (KeyError key)
  end.

(** [bytes(v)]: the content of a binary value, [n] zero bytes for an
    integer [n] that is not negative, and an error for a negative integer, a
    string or [None]. *)
Definition to_bytes (v : value) : res value :=
  match v with
  | Bytes b => Ok (Bytes b)
  | Int n =>
      if decide (0 ≤ n) then Ok (Bytes (replicate (Z.to_nat n) x00))
      else Raise (ValueError "negative count")
  | Str _ => Raise (TypeError "string argument without an encoding")
  | None_ => Raise (TypeError "cannot convert 'NoneType' object to bytes")
  end.

(** [col.strip().replace(" ", "_").replace("-", "_").replace(".", "_")] *)
Definition sanitize (col : string) : string :=
  replace "." "_" (replace "-" "_" (replace " " "_" (strip col))).

(** The same on a header cell, which must be a [str] to have the methods. *)
Definition sanitize_cell (col : value) : res string :=
  match col with
  | Str s => Ok (sanitize s)
  | None_ => Raise (AttributeError "strip")
  | Int _ => Raise (AttributeError "strip")
  | Bytes _ => Raise (TypeError "replace")
  end.

(** [[... for col in table[0]]] *)
Fixpoint sanitize_columns (header : list value) : res (list string) :=
  match header with
  | [] => Ok []
  | col :: header' =>
      c <~ sanitize_cell col ;;
      cs <~ sanitize_columns header' ;;
      Ok (c :: cs)
  end.

(** [table_name = 1] in the class body: the counter when the process starts. *)
Definition table_name_at_start : Z := 1.

(** [f'extracted_table_{MySQLStorage.table_name}'] *)
Definition generated_name (n : Z) : string :=
  "extracted_table_" +:+ str_of_int n.

(** [if result:] on what [fetchone] returned. *)
Definition row_found (result : option (list value)) : bool :=
  match result with
  | Some (_ :: _) => true
  | _ => false
  end.

(** [[col[0] for col in rows]]: a row of [SHOW COLUMNS] is a tuple whose
    first field is the column name. *)
Definition first_fields (found : list (value * list value)) : list value :=
  fst <$> found.

(** The body of the first [try]: create the table, or add what it lacks. *)
Definition ensure_table (name : string) (sanitized_columns : list string)
  : M proc unit :=
  cursor_execute (ShowTablesLike name) [] ;;;
  result <- cursor_fetchone ;;
  if row_found result then
    cursor_execute (ShowColumnsFrom name) [] ;;;
    found <- cursor_fetchall ;;
    let existing_columns := first_fields found in
    for_each sanitized_columns
      (λ col, if decide (Str col ∈ existing_columns) then ret tt
              else cursor_execute (AlterTableAddColumn name col) [])
  else
    cursor_execute (CreateTable name sanitized_columns) [].

(** The body of the second [try], with its handler: one row. *)
Definition insert_row (name : string) (sanitized_columns : list string)
    (row : list value) : M proc unit :=
  try_except_mysql
    (cursor_execute (InsertRow name sanitized_columns (length row)) row)
    (λ err, print ("Error inserting into table " +:+ name +:+ ": " +:+ err
                   +:+ " for row: " +:+ repr_row D row)).

(** One iteration of [for table_id, table in enumerate(tables)].  Each
    [continue] ends the iteration. *)
Definition save_table (table : list (list value)) : M proc unit :=
  match table with
  | [] => ret tt
  | header :: data_rows =>
      sanitized_columns <- lift (sanitize_columns header) ;;
      n <- gets table_name ;;
      let name := generated_name n in
      modify (set_table_name (n + 1)) ;;;
      ready <- try_except_mysql
                 (ensure_table name sanitized_columns ;;; ret true)
                 (λ err, print ("Error checking/creating table " +:+ name
                                +:+ ": " +:+ err) ;;;
                         ret false) ;;
      if ready : bool then
        for_each data_rows (insert_row name sanitized_columns)
      else ret tt
  end.

Definition save_tables (tables : list (list (list value))) : M proc unit :=
  for_each tables save_table.

(** What is left of an iteration of [save_table] once the header is read:
    the same text, named for the statements about it. *)
Definition table_body (sanitized_columns : list string)
    (data_rows : list (list value)) : M proc unit :=
  n <- gets table_name ;;
  let name := generated_name n in
  modify (set_table_name (n + 1)) ;;;
  ready <- try_except_mysql
             (ensure_table name sanitized_columns ;;; ret true)
             (λ err, print ("Error checking/creating table " +:+ name
                            +:+ ": " +:+ err) ;;;
                     ret false) ;;
  if ready : bool then
    for_each data_rows (insert_row name sanitized_columns)
  else ret tt.

(** [link.get('page_number', link.get('slide_number'))] *)
Definition location (d : dict) : value :=
  get d "page_number" (get_or_None d "slide_number").

(** [save] *)
Definition save : M proc unit :=
  extracted <- call_extractor DataExtractor.extract_text ;;
  let text_content := fst extracted in
  (if truthy (Str text_content)
   then cursor_execute InsertText [Str text_content]
   else ret tt) ;;;
  links <- call_extractor DataExtractor.extract_links ;;
  for_each links
    (λ link, url <- lift (subscript link "url") ;;
             cursor_execute InsertLink [url; location link]) ;;;
  images <- call_extractor DataExtractor.extract_images ;;
  for_each images
    (λ img, image <- lift (subscript img "image") ;;
            img_data <- lift (to_bytes image) ;;
            image_format <- lift (subscript img "image_format") ;;
            image_resolution <- lift (subscript img "image_resolution") ;;
            cursor_execute InsertImage
              [img_data; image_format; image_resolution; location img]) ;;;
  tables <- call_extractor DataExtractor.extract_tables ;;
  save_tables tables ;;;
  conn_commit ;;;
  print "Data saved to MySQL database".

(** A method of the sink that does not assign the table counter. *)
Definition keeps_counter {A} (m : M proc A) : Prop :=
  ∀ p, table_name (snd (m p)) = table_name p.

(** A method of the sink that raises nothing but what [allowed] admits. *)
Definition raises_only {A} (allowed : exn → Prop) (m : M proc A) : Prop :=
  ∀ p, raises_within allowed (fst (m p)).

(** A method of the sink that hands the cursor only statements among
    [wanted], after those already sent. *)
Definition sends_only {A} (wanted : stmt → Prop) (m : M proc A) : Prop :=
  ∀ p, ∃ l, sent (snd (m p)) = sent p ++ l
            ∧ Forall (λ qp, wanted (fst qp)) l.

(** A method of the sink that, when a connector error leaves it, has just
    sent a statement among [culprits]. *)
Definition escapes_from {A} (culprits : stmt → Prop) (m : M proc A) : Prop :=
  ∀ p, match m p with
       | (Raise (MySQLError _), p1) =>
           ∃ pre q params, sent p1 = pre ++ [(q, params)] ∧ culprits q
       | _ => True
       end.

(** From [p] the method returns [a], having sent the statements [l] and
    left the extractor as it was. *)
Definition stores {A} (m : M proc A) (p : proc) (a : A)
    (l : list (stmt * list value)) : Prop :=
  ∃ p1, m p = (Ok a, p1) ∧ extractor p1 = extractor p
        ∧ sent p1 = sent p ++ l.

End Sink.

Arguments extractor {D} p.
Arguments table_name {D} p.
Arguments server {D} p.
Arguments sent {D} p.
Arguments stdout {D} p.
Arguments keeps_counter {D A} m.
Arguments raises_only {D A} allowed m.
Arguments sends_only {D A} wanted m.
Arguments escapes_from {D A} culprits m.
Arguments stores {D A} m p a l.

End MySQLStorage.

(** ** [storage.py]: the filesystem sink *)

Module FileStorage.
Import Py.
Local Open Scope py_scope.

(** The calls [save] and [__init__] make on the operating system:
    [os.makedirs(path, exist_ok=True)], [open(path, 'w')] or
    [open(path, 'wb')], and the [write] calls on the open file. *)
Inductive fs_op : Type :=
| Makedirs (path : string)
| Open (path : string) (binary : bool)
| WriteText (path : string) (data : string)
| WriteBytes (path : string) (data : list byte).

(** What the sink takes from its host: the operating system, of which
    nothing is assumed (every call may fail with an [OSError], whose message
    is the [string]); [os.path.join]; the order in which a [dict] lists its
    items; Python's rendering of a [bytes] object; and the line
    [csv.writer] writes for a row. *)
Record host :=
  { os : Type;
    perform : fs_op → os → option string * os;
    path_join : string → string → string;
    items : dict → list (string * value);
    repr_bytes : list byte → string;
    writerow : list value → string }.

(** An [OSError] of the standard library. *)
Definition OSError (msg : string) : exn := LibraryError ("OSError: " +:+ msg).

Section Sink.
Context (H : host).

(** The state a [save] runs in; [ops] lists the calls made on the operating
    system, oldest first, whether or not they succeeded. *)
Record t :=
  { extractor : DataExtractor.state;
    output_dir : string;
    disk : os H;
    ops : list fs_op;
    stdout : list string }.

Definition set_extractor (e : DataExtractor.state) (p : t) : t :=
  {| extractor := e; output_dir := output_dir p; disk := disk p;
     ops := ops p; stdout := stdout p |}.

(** [print(line)] *)
Definition print (line : string) : M t unit :=
  modify (λ p, {| extractor := extractor p; output_dir := output_dir p;
                  disk := disk p; ops := ops p;
                  stdout := stdout p ++ [line] |}).

(** A call of a method of [self.extractor]. *)
Definition call_extractor {A} (m : M DataExtractor.state A) : M t A :=
  λ p, let '(r, e) := m (extractor p) in (r, set_extractor e p).

(** One call on the operating system. *)
Definition os_call (op : fs_op) : M t unit :=
  λ p, let '(r, d) := perform H op (disk p) in
       let p' := {| extractor := extractor p; output_dir := output_dir p;
                    disk := d; ops := ops p ++ [op]; stdout := stdout p |} in
       match r with
       | None => (Ok tt, p')
       | Some err => (Raise (OSError err), p')
       end.

(** [__init__] *)
Definition init (e : DataExtractor.state) (dir : string) : M t unit :=
  modify (λ p, {| extractor := e; output_dir := dir; disk := disk p;
                  ops := ops p; stdout := stdout p |}) ;;;
  os_call (Makedirs dir).

(** [f"{v}"] *)
Definition format_value (v : value) : string :=
  match v with
  | None_ => "None"
  | Str s => s
  | Int z => str_of_int z
  | Bytes b => repr_bytes H b
  end.

(** The argument of [write] on a file opened in binary mode. *)
Definition binary (v : value) : res (list byte) :=
  match v with
  | Bytes b => Ok b
  | _ => Raise (TypeError "a bytes-like object is required")
  end.

(** [save] *)
Definition save : M t unit :=
  extracted <- call_extractor DataExtractor.extract_text ;;
  let text := fst extracted in
  let metadata := snd extracted in
  dir <- gets output_dir ;;
  let text_file_path := path_join H dir "extracted_text.txt" in
  os_call (Open text_file_path false) ;;;
  os_call (WriteText text_file_path text) ;;;
  let metadata_file_path := path_join H dir "metadata.txt" in
  os_call (Open metadata_file_path false) ;;;
  for_each (items H metadata)
    (λ '(key, value),
       os_call (WriteText metadata_file_path
                  (key +:+ ": " +:+ format_value value +:+ nl))) ;;;
  links <- call_extractor DataExtractor.extract_links ;;
  let links_file_path := path_join H dir "extracted_links.txt" in
  os_call (Open links_file_path false) ;;;
  for_each links
    (λ link,
       url <- lift (MySQLStorage.subscript link "url") ;;
       os_call (WriteText links_file_path
                  (format_value url +:+ " (Page/Slide: "
                   +:+ format_value (MySQLStorage.location link) +:+ ")"
                   +:+ nl))) ;;;
  images <- call_extractor DataExtractor.extract_images ;;
  let images_dir := path_join H dir "images" in
  os_call (Makedirs images_dir) ;;;
  for_each (enumerate images)
    (λ '(idx, img),
       image_format <- lift (MySQLStorage.subscript img "image_format") ;;
       let image_file_path :=
         path_join H images_dir
           ("image_" +:+ str_of_int (idx + 1) +:+ "."
            +:+ format_value image_format) in
       os_call (Open image_file_path true) ;;;
       image <- lift (MySQLStorage.subscript img "image") ;;
       data <- lift (binary image) ;;
       os_call (WriteBytes image_file_path data)) ;;;
  tables <- call_extractor DataExtractor.extract_tables ;;
  for_each (enumerate tables)
    (λ '(table_id, table),
       let table_file_path :=
         path_join H dir ("table_" +:+ str_of_int (table_id + 1) +:+ ".csv") in
       os_call (Open table_file_path false) ;;;
       for_each table
         (λ row, os_call (WriteText table_file_path (writerow H row)))) ;;;
  print ("Data saved to file system in directory " +:+ dir).

(** The operating system accepts every call. *)
Definition accepting : Prop := ∀ op d, fst (perform H op d) = None.

(** From [p] the method ends with [r] (a result or an exception), having
    made the calls [l] on the operating system and printed the lines [out],
    and nothing else. *)
Definition finishes {A} (m : M t A) (p : t) (r : res A) (l : list fs_op)
    (out : list string) : Prop :=
  ∃ p1, m p = (r, p1)
        ∧ extractor p1 = extractor p ∧ output_dir p1 = output_dir p
        ∧ stdout p1 = stdout p ++ out ∧ ops p1 = ops p ++ l.

(** A method of the sink that prints nothing and does not assign
    [self.output_dir]. *)
Definition quiet {A} (m : M t A) : Prop :=
  ∀ p, output_dir (snd (m p)) = output_dir p ∧ stdout (snd (m p)) = stdout p.

(** A method of the sink that prints [line] as its last act when it returns,
    and nothing when it raises. *)
Definition announces {A} (line : string) (m : M t A) : Prop :=
  ∀ p, stdout (snd (m p))
       = stdout p ++ match fst (m p) with Ok _ => [line] | Raise _ => [] end.

End Sink.

Arguments extractor {H} _.
Arguments output_dir {H} _.
Arguments disk {H} _.
Arguments ops {H} _.
Arguments stdout {H} _.
Arguments finishes {H A} m p r l out.
Arguments quiet {H A} m.
Arguments announces {H A} line m.

End FileStorage.

(** A host whose disk takes everything: paths are joined with a slash, a
    [dict] lists its items in the order of its keys, and a row is written
    as its cells between commas. *)
Module MiniHost.
Import Py FileStorage.

Definition cell (v : value) : string :=
  match v with
  | Str s => s
  | Int z => str_of_int z
  | _ => ""
  end.

Definition mini : host :=
  {| os := unit;
     perform := λ _ d, (None, d);
     path_join := λ a b, a +:+ "/" +:+ b;
     items := map_to_list;
     repr_bytes := λ _, "b'...'";
     writerow := λ row, join "," (cell <$> row) +:+ nl |}.

End MiniHost.

(** ** A small in-memory server

    One concrete [driver], used to run the sink on examples: tables are kept
    with their column names and rows; a statement fails where MySQL rejects
    it (a table or column that exists already or is missing, an empty or
    repeated column list, a row whose length is not that of the column
    list). *)

Module MiniServer.
Import Py MySQLStorage.

Record t :=
  { tables : list (string * list string);
    rows : list (string * list value);
    result : list (list value) }.

Definition empty : t := {| tables := []; rows := []; result := [] |}.

Fixpoint columns_of (ts : list (string * list string)) (name : string)
  : option (list string) :=
  match ts with
  | [] => None
  | (n, cols) :: ts' => if decide (n = name) then Some cols else columns_of ts' name
  end.

Fixpoint add_column (ts : list (string * list string)) (name col : string)
  : list (string * list string) :=
  match ts with
  | [] => []
  | (n, cols) :: ts' =>
      if decide (n = name) then (n, cols ++ [col]) :: ts'
      else (n, cols) :: add_column ts' name col
  end.

Definition with_result (found : list (list value)) (s : t) : t :=
  {| tables := tables s; rows := rows s; result := found |}.

Definition run (q : stmt) (params : list value) (s : t) : option string * t :=
  match q with
  | ShowTablesLike name =>
      (None, with_result (match columns_of (tables s) name with
                          | Some _ => [[Str name]]
                          | None => []
                          end) s)
  | ShowColumnsFrom name =>
      match columns_of (tables s) name with
      | Some cols => (None, with_result ((λ c, [Str c]) <$> "id" :: cols) s)
      | None => (Some "Table doesn't exist", s)
      end
  | AlterTableAddColumn name col =>
      match columns_of (tables s) name with
      | Some cols =>
          if decide (col ∈ "id" :: cols) then (Some "Duplicate column name", s)
          else (None, {| tables := add_column (tables s) name col;
                         rows := rows s; result := [] |})
      | None => (Some "Table doesn't exist", s)
      end
  | CreateTable name cols =>
      match columns_of (tables s) name with
      | Some _ => (Some "Table already exists", s)
      | None =>
          if decide (cols ≠ [] ∧ NoDup ("id" :: cols) ∧ "" ∉ cols)
          then (None, {| tables := tables s ++ [(name, cols)];
                         rows := rows s; result := [] |})
          else (Some "You have an error in your SQL syntax", s)
      end
  | InsertRow name cols values =>
      match columns_of (tables s) name with
      | Some known =>
          if decide (cols ⊆ known ∧ length cols = values
                     ∧ values = length params)
          then (None, {| tables := tables s;
                         rows := rows s ++ [(name, params)]; result := [] |})
          else (Some "Column count doesn't match value count", s)
      | None => (Some "Table doesn't exist", s)
      end
  | _ => (None, with_result [] s)
  end.

(** A stored result row as a tuple with its first field apart. *)
Definition fields (row : list value) : value * list value :=
  match row with
  | v :: vs => (v, vs)
  | [] => (None_, [])
  end.

Definition repr (v : value) : string :=
  match v with
  | None_ => "None"
  | Str s => "'" +:+ s +:+ "'"
  | Int z => str_of_int z
  | Bytes _ => "b'...'"
  end.

Definition mini : driver :=
  {| db := t;
     execute := run;
     fetchone := λ s, (inr (head (result s)), with_result (tail (result s)) s);
     fetchall := λ s, (inr (fields <$> result s), with_result [] s);
     commit := λ s, (None, s);
     repr_row := λ row, "[" +:+ join ", " (repr <$> row) +:+ "]" |}.

(** A server that cannot be reached: every statement fails, nothing is
    fetched, and a commit has nothing to do. *)
Definition offline : driver :=
  {| db := unit;
     execute := λ _ _ d, (Some "MySQL Connection not available", d);
     fetchone := λ d, (inl "MySQL Connection not available", d);
     fetchall := λ d, (inl "MySQL Connection not available", d);
     commit := λ d, (None, d);
     repr_row := λ row, "[" +:+ join ", " (repr <$> row) +:+ "]" |}.

End MiniServer.

(** ** Vocabulary of the specification

    The specification's own notions, defined independently of the code they
    are compared with. *)

Module Spec.
Import Py DataExtractor.

(** *** Whitespace at the ends of a string *)

Fixpoint all_space (s : string) : bool :=
  match s with
  | EmptyString => true
  | String c s' => isspace c && all_space s'
  end.

Definition starts_with_space (s : string) : bool :=
  match s with
  | EmptyString => false
  | String c _ => isspace c
  end.

Fixpoint ends_with_space (s : string) : bool :=
  match s with
  | EmptyString => false
  | String c EmptyString => isspace c
  | String _ s' => ends_with_space s'
  end.

(** A table cell as the specification describes it: a string, with no
    whitespace at either end. *)
Definition stripped_cell (v : value) : bool :=
  match v with
  | Str t => negb (starts_with_space t) && negb (ends_with_space t)
  | _ => false
  end.

Definition all_cells_stripped (tables : list (list (list value))) : bool :=
  forallb (forallb (forallb stripped_cell)) tables.

(** The character occurs in the string. *)
Fixpoint has_char (c : ascii) (s : string) : bool :=
  match s with
  | EmptyString => false
  | String c' s' => Ascii.eqb c' c || has_char c s'
  end.

(** *** Metadata *)

Definition metadata_fields : list string :=
  ["author"; "created"; "last_modified_by"; "title"].

(** The field is absent on the properties object. *)
Definition lacks (properties : option obj) (field : string) : Prop :=
  match properties with
  | Some attrs => attrs !! field = None
  | None => True
  end.

(** *** Document kinds *)

Definition known_kinds : list string := ["pdf"; "docx"; "pptx"].

(** A Flowed document: declared [docx], loaded by python-docx. *)
Definition flowed (s : state) (d : docx.Document) : Prop :=
  file_type (self s) = "docx" ∧ file (self s) = Document d.

(** A Slides document: declared [pptx], loaded by python-pptx. *)
Definition slides_doc (s : state) (p : pptx.Presentation) : Prop :=
  file_type (self s) = "pptx" ∧ file (self s) = Presentation p.

(** A Paged document, as PyMuPDF opens it at the handle's path. *)
Definition paged (s : state) (doc : fitz.Document) : Prop :=
  file_type (self s) = "pdf"
  ∧ fitz_open (env s) (file_path (self s)) = Some doc.

(** *** Repeated calls on one handle *)

Inductive operation : Type := Text | Images | Tables | Links.

Inductive outcome : Type :=
| TextOut (r : res (string * dict))
| ImagesOut (r : res (list dict))
| TablesOut (r : res (list (list (list value))))
| LinksOut (r : res (list dict)).

Definition call (o : operation) (s : state) : outcome * state :=
  match o with
  | Text => let '(r, s') := extract_text s in (TextOut r, s')
  | Images => let '(r, s') := extract_images s in (ImagesOut r, s')
  | Tables => let '(r, s') := extract_tables s in (TablesOut r, s')
  | Links => let '(r, s') := extract_links s in (LinksOut r, s')
  end.

(** A method that leaves the state as it found it. *)
Definition read_only {S A} (m : M S A) : Prop := ∀ s, snd (m s) = s.

(** *** Repeated calls on one handle, while the files may change *)

(** A call on the handle as the library keeps it. *)
Definition call_on (o : operation) (h : handle) : outcome * handle :=
  match o with
  | Links => let '(r, h') := extract_links_on h in (LinksOut r, h')
  | _ => let '(out, s) := call o (api h) in (out, {| api := s; rPr := rPr h |})
  end.

(** What happens to a handle: one of its operations is called, or someone
    else changes the files, after which the world is [w]. *)
Inductive event : Type :=
| Called (o : operation)
| Replaced (w : world).

Definition happen (h : handle) (e : event) : handle :=
  match e with
  | Called o => snd (call_on o h)
  | Replaced w =>
      {| api := {| self := self (api h); env := w |}; rPr := rPr h |}
  end.

(** The handle after a history of events. *)
Definition later (history : list event) (h : handle) : handle :=
  fold_left happen history h.

(** Two worlds show the same file at [path], to both libraries that open
    it, and have the same decoder. *)
Definition same_view (path : string) (w w' : world) : Prop :=
  fitz_open w path = fitz_open w' path
  ∧ pdfplumber_open w path = pdfplumber_open w' path
  ∧ ∀ blob, Image_open w blob = Image_open w' blob.

(** No event of the history changes the file at the handle's path. *)
Definition file_kept (h : handle) (history : list event) : Prop :=
  Forall (λ e, match e with
               | Called _ => True
               | Replaced w =>
                   same_view (file_path (self (api h))) (env (api h)) w
               end)
         history.

(** The runs of the text frames of a presentation that have an attribute
    [hyperlink], by position. *)
Definition run_ids (slides : list pptx.Slide) : list run_id :=
  mjoin (imap (λ i slide,
    mjoin (imap (λ j shape,
      match pptx.text_frame shape with
      | Some tf =>
          mjoin (imap (λ k paragraph,
            mjoin (imap (λ l run,
              match pptx.run_hyperlink run with
              | Some _ => [(i, j, k, l)]
              | None => []
              end) (pptx.runs paragraph))) (pptx.paragraphs tf))
      | None => []
      end) (pptx.shapes slide))) slides).

(** The runs whose hyperlink [extract_links] reads on this state. *)
Definition touched (s : state) : gset run_id :=
  if decide (file_type (self s) = "pptx") then
    match file (self s) with
    | Presentation p => list_to_set (run_ids (pptx.slides p))
    | _ => ∅
    end
  else ∅.

(** *** Tables *)

(** The cells of a table object, each stripped and kept as a string. *)
Definition stripped_table (t : office.Table) : list (list value) :=
  (λ row, (λ cell, Str (strip (office.text cell))) <$> office.cells row)
  <$> office.rows t.

(** The table objects of a presentation, slide by slide, shape by shape. *)
Definition slide_tables (p : pptx.Presentation) : list office.Table :=
  slide ← pptx.slides p; shape ← pptx.shapes slide;
  match pptx.table shape with Some t => [t] | None => [] end.

(** [ts] are the table objects of the Flowed or Slides document [s]. *)
Definition office_tables (s : state) (ts : list office.Table) : Prop :=
  (∃ d, flowed s d ∧ ts = docx.tables d)
  ∨ (∃ p, slides_doc s p ∧ ts = slide_tables p).

(** A Paged document, as pdfplumber opens it at the handle's path. *)
Definition paged_layout (s : state) (pdf : pdfplumber.PDF) : Prop :=
  file_type (self s) = "pdf"
  ∧ pdfplumber_open (env s) (file_path (self s)) = Some pdf.

(** The tables the detector finds, page after page, as it gives them. *)
Definition detected_tables (pdf : pdfplumber.PDF) : list (list (list value)) :=
  page ← pdfplumber.pages pdf;
  match pdfplumber.extract_tables page with
  | Some found => found
  | None => []
  end.

(** *** Links *)

(** One link entry per annotation entry of each page, numbered from 1; an
    entry without a URI has the empty url. *)
Definition paged_links (pages : list fitz.Page) : list dict :=
  mjoin (imap (λ i page,
                 (λ entry, {[ "url" := match entry !! "uri" with
                                       | Some u => u
                                       | None => Str ""
                                       end;
                              "page_number" := Int (Z.of_nat i + 1) ]})
                 <$> fitz.get_links page)
              pages).

(** The address a shape or a run carries, if any. *)
Definition carried (h : option pptx.Hyperlink) : list string :=
  match h with
  | Some {| pptx.address := Some a |} => if decide (a = "") then [] else [a]
  | _ => []
  end.

Definition slide_entry (n : Z) (a : string) : dict :=
  {[ "url" := Str a; "slide_number" := Int n ]}.

(** The runs of a shape's text frame. *)
Definition shape_runs (shape : pptx.Shape) : list pptx.Run :=
  match pptx.text_frame shape with
  | Some tf => paragraph ← pptx.paragraphs tf; pptx.runs paragraph
  | None => []
  end.

(** What one shape contributes: its own link, then one per linked run. *)
Definition shape_links (n : Z) (shape : pptx.Shape) : list dict :=
  (slide_entry n <$> carried (pptx.hyperlink shape))
  ++ (run ← shape_runs shape; slide_entry n <$> carried (pptx.run_hyperlink run)).

Definition slides_links (slides : list pptx.Slide) : list dict :=
  mjoin (imap (λ i slide, shape ← pptx.shapes slide;
                          shape_links (Z.of_nat i + 1) shape)
              slides).

(** A presentation as python-pptx loads it: no shape has an attribute
    [hyperlink]. *)
Definition loaded (p : pptx.Presentation) : Prop :=
  ∀ slide shape,
    slide ∈ pptx.slides p → shape ∈ pptx.shapes slide →
    pptx.hyperlink shape = None.

(** One entry per run of the shape's text frame that carries an address. *)
Definition run_links (n : Z) (shape : pptx.Shape) : list dict :=
  run ← shape_runs shape; slide_entry n <$> carried (pptx.run_hyperlink run).

Definition slides_run_links (slides : list pptx.Slide) : list dict :=
  mjoin (imap (λ i slide, shape ← pptx.shapes slide;
                          run_links (Z.of_nat i + 1) shape)
              slides).

(** The links the specification lists: the shape's own link, which
    python-pptx keeps on the click action, then those of its runs. *)
Definition listed_links (slides : list pptx.Slide) : list dict :=
  mjoin (imap (λ i slide,
                 shape ← pptx.shapes slide;
                 (slide_entry (Z.of_nat i + 1)
                  <$> carried (pptx.click_action shape))
                 ++ run_links (Z.of_nat i + 1) shape)
              slides).

(** *** Images and the remaining kinds *)

(** A Paged document as PyPDF2 loaded it. *)
Definition paged_reader (s : state) (r : PyPDF2.PdfReader) : Prop :=
  file_type (self s) = "pdf" ∧ file (self s) = PdfReader r.

(** The relationships of a Flowed document that point at an image. *)
Definition image_rels (d : docx.Document) : list docx.Relationship :=
  List.filter (λ rel, contains "image" (docx.target_ref rel))
              (snd <$> docx.part_rels d).

(** The blob of the relationship cannot be turned into an image. *)
Definition undecodable (w : world) (rel : docx.Relationship) : Prop :=
  match docx.target_blob rel with
  | Some blob => Image_open w blob = None
  | None => True
  end.

(** The image entry has no location field at all. *)
Definition unlocated (img : dict) : Prop :=
  img !! "page_number" = None ∧ img !! "slide_number" = None.

(** A link entry as the sinks read it: a url, and a location under one of
    the two keys. *)
Definition link_shaped (link : dict) : Prop :=
  is_Some (link !! "url")
  ∧ (is_Some (link !! "page_number") ∨ is_Some (link !! "slide_number")).

(** An image entry as the sinks read it: binary content, a format and a
    resolution, both strings. *)
Definition image_shaped (img : dict) : Prop :=
  (∃ b, img !! "image" = Some (Bytes b))
  ∧ (∃ f, img !! "image_format" = Some (Str f))
  ∧ (∃ r, img !! "image_resolution" = Some (Str r)).

(** The links of a Flowed document: for each paragraph, each hyperlink
    element whose relationship id is known, in order. *)
Definition flowed_links (d : docx.Document) : list dict :=
  para ← docx.paragraphs d; rId ← docx.hyperlinks para;
  match rId ≫= docx.rels_lookup (docx.part_rels d) with
  | Some rel => [ {[ "url" := Str (docx.target_ref rel);
                     "page_number" := None_ ]} ]
  | None => []
  end.

(** The text a page contributes: its text layer, if it has one. *)
Definition page_text (page : PyPDF2.PageObject) : string :=
  match PyPDF2.extract_text page with Some t => t | None => "" end.

(** The texts of the shapes that have one, slide by slide. *)
Definition shape_texts (p : pptx.Presentation) : list string :=
  slide ← pptx.slides p; shape ← pptx.shapes slide;
  match pptx.text shape with Some t => [t] | None => [] end.

Definition total_length (texts : list string) : nat :=
  sum_list (String.length <$> texts).

(** *** The filesystem sink *)

(** The paths opened for writing, in the order of opening. *)
Definition opened (log : list FileStorage.fs_op) : list string :=
  log ≫= λ op, match op with
                | FileStorage.Open path _ => [path]
                | _ => []
                end.

(** The directories asked for. *)
Definition made (log : list FileStorage.fs_op) : list string :=
  log ≫= λ op, match op with
                | FileStorage.Makedirs path => [path]
                | _ => []
                end.

Section FileSinkCalls.
Context (H : FileStorage.host) (dir : string).

Definition text_path : string :=
  FileStorage.path_join H dir "extracted_text.txt".
Definition metadata_path : string :=
  FileStorage.path_join H dir "metadata.txt".
Definition links_path : string :=
  FileStorage.path_join H dir "extracted_links.txt".
Definition images_path : string := FileStorage.path_join H dir "images".

(** The file of the image at position [i] (from 0), named by its 1-based
    index and its format. *)
Definition image_path (i : nat) (img : dict) : string :=
  FileStorage.path_join H images_path
    ("image_" +:+ str_of_int (Z.of_nat i + 1) +:+ "."
     +:+ FileStorage.format_value H (get img "image_format" None_)).

(** The file of the table at position [i] (from 0). *)
Definition table_path (i : nat) : string :=
  FileStorage.path_join H dir
    ("table_" +:+ str_of_int (Z.of_nat i + 1) +:+ ".csv").

Definition text_calls (text : string) : list FileStorage.fs_op :=
  [FileStorage.Open text_path false; FileStorage.WriteText text_path text].

(** One line [key: value] per item of the metadata. *)
Definition metadata_calls (metadata : dict) : list FileStorage.fs_op :=
  FileStorage.Open metadata_path false
  :: ((λ kv, FileStorage.WriteText metadata_path
               (kv.1 +:+ ": " +:+ FileStorage.format_value H kv.2 +:+ nl))
      <$> FileStorage.items H metadata).

(** One line [url (Page/Slide: location)] per link. *)
Definition links_calls (links : list dict) : list FileStorage.fs_op :=
  FileStorage.Open links_path false
  :: ((λ link, FileStorage.WriteText links_path
                 (FileStorage.format_value H (get link "url" None_)
                  +:+ " (Page/Slide: "
                  +:+ FileStorage.format_value H (MySQLStorage.location link)
                  +:+ ")" +:+ nl))
      <$> links).

(** The image directory, then each image written whole to its file. *)
Definition images_calls (images : list dict) : list FileStorage.fs_op :=
  FileStorage.Makedirs images_path
  :: mjoin (imap (λ i img,
                    [FileStorage.Open (image_path i img) true;
                     FileStorage.WriteBytes (image_path i img)
                       match img !! "image" with
                       | Some (Bytes b) => b
                       | _ => []
                       end])
                 images).

(** One file per table, opened even when the table has no row, then one
    line per row. *)
Definition tables_calls (tables : list (list (list value)))
  : list FileStorage.fs_op :=
  mjoin (imap (λ i table,
                 FileStorage.Open (table_path i) false
                 :: ((λ row, FileStorage.WriteText (table_path i)
                               (FileStorage.writerow H row)) <$> table))
              tables).

End FileSinkCalls.

(** *** The relational sink *)

(** An extracted table with at least a header row. *)
Definition has_rows (table : list (list value)) : Prop := table ≠ [].

#[global] Instance has_rows_dec (table : list (list value)) :
  Decision (has_rows table).
Proof. unfold has_rows. apply _. Defined.

(** The [CREATE TABLE] statements among those sent. *)
Definition creations (log : list (MySQLStorage.stmt * list value))
  : list MySQLStorage.stmt :=
  (log ≫= λ '(q, _), match q with
                      | MySQLStorage.CreateTable _ _ => [q]
                      | _ => []
                      end).


(** The generated table a statement addresses, if it addresses one. *)
Definition table_of (q : MySQLStorage.stmt) : option string :=
  match q with
  | MySQLStorage.ShowTablesLike name
  | MySQLStorage.ShowColumnsFrom name
  | MySQLStorage.AlterTableAddColumn name _
  | MySQLStorage.CreateTable name _
  | MySQLStorage.InsertRow name _ _ => Some name
  | _ => None
  end.

(** The names asked for with [SHOW TABLES LIKE], in the order of asking. *)
Definition probes (log : list (MySQLStorage.stmt * list value)) : list string :=
  log ≫= λ '(q, _), match q with
                     | MySQLStorage.ShowTablesLike name => [name]
                     | _ => []
                     end.

(** A statement on the table [name] other than the question whether it
    exists. *)
Definition follows (name : string) (q : MySQLStorage.stmt) : Prop :=
  table_of q = Some name ∧ ∀ other, q ≠ MySQLStorage.ShowTablesLike other.

(** The names generated from [count] successive counter values. *)
Fixpoint generated_names (start : Z) (count : nat) : list string :=
  match count with
  | O => []
  | S count' =>
      MySQLStorage.generated_name start :: generated_names (start + 1) count'
  end.

(** Between the states [p] and [p1] of a process the sink has sent
    statements on generated tables only, all named from the counter values
    taken in between, and has asked for each of these names once, in the
    order of the counter. *)
Definition named_from_counter {D} (p p1 : MySQLStorage.proc D) : Prop :=
  ∃ l, MySQLStorage.sent p1 = MySQLStorage.sent p ++ l
       ∧ MySQLStorage.table_name p ≤ MySQLStorage.table_name p1
       ∧ probes l
         = generated_names (MySQLStorage.table_name p)
             (Z.to_nat (MySQLStorage.table_name p1 - MySQLStorage.table_name p))
       ∧ Forall (λ qp, ∃ n, MySQLStorage.table_name p ≤ n
                            < MySQLStorage.table_name p1
                            ∧ table_of (fst qp)
                              = Some (MySQLStorage.generated_name n)) l.

(** An insertion into one of the three fixed tables. *)
Definition fixed_insert (q : MySQLStorage.stmt) : Prop :=
  q = MySQLStorage.InsertText ∨ q = MySQLStorage.InsertLink
  ∨ q = MySQLStorage.InsertImage.

(** The row of the text table: none for an empty text. *)
Definition text_rows (text : string)
  : list (MySQLStorage.stmt * list value) :=
  if decide (text = "") then [] else [(MySQLStorage.InsertText, [Str text])].

(** The row of a link: its url and its page or slide. *)
Definition link_row (link : dict) : MySQLStorage.stmt * list value :=
  (MySQLStorage.InsertLink,
   [get link "url" None_; MySQLStorage.location link]).

(** The row of an image: content, format, resolution, page or slide. *)
Definition image_row (img : dict) : MySQLStorage.stmt * list value :=
  (MySQLStorage.InsertImage,
   [get img "image" None_; get img "image_format" None_;
    get img "image_resolution" None_; MySQLStorage.location img]).

(** A column name derived by the three replacements alone. *)
Definition replaced_only (col : string) : string :=
  replace "." "_" (replace "-" "_" (replace " " "_" col)).

End Spec.

(** ** Concrete documents *)

Module Examples.
Import Py DataExtractor.

Definition no_files : world :=
  {| fitz_open := λ _, None; pdfplumber_open := λ _, None;
     Image_open := λ _, None |}.

(** A Flowed document: two paragraphs and one table of one row. *)
Definition greeting : docx.Document :=
  {| docx.paragraphs :=
       [ {| docx.text := "Hello"; docx.hyperlinks := [] |};
         {| docx.text := "World"; docx.hyperlinks := [] |} ];
     docx.tables :=
       [ {| office.rows :=
              [ {| office.cells := [ {| office.text := "  42 " |};
                                     {| office.text := "a b" |} ] |} ] |} ];
     docx.core_properties := {[ "author" := Str "me" ]};
     docx.part_rels := [] |}.

Definition hello_world : state :=
  {| self := {| file := Document greeting; file_path := "hello.docx";
                file_type := "docx" |};
     env := no_files |}.

(** A properties object with an author and no title. *)
Definition untitled : option obj := Some {[ "author" := Str "me" ]}.

(** A handle of an unknown kind. *)
Definition notes : state :=
  {| self := {| file := NoFile; file_path := "notes.txt"; file_type := "txt" |};
     env := no_files |}.

(** A Paged document of two pages: no link on the first, one on the second;
    the table detector finds one table on the first page. *)
Definition report_pages : fitz.Document :=
  {| fitz.doc_pages :=
       [ {| fitz.get_images := []; fitz.get_links := [] |};
         {| fitz.get_images := [];
            fitz.get_links := [ {[ "uri" := Str "https://x" ]} ] |} ];
     fitz.extract_image := λ _, None |}.

Definition report_layout : pdfplumber.PDF :=
  {| pdfplumber.pages :=
       [ {| pdfplumber.extract_tables := Some [ [ [Str " a "; None_] ] ] |};
         {| pdfplumber.extract_tables := None |} ] |}.

Definition report : state :=
  {| self := {| file := PdfReader {| PyPDF2.pages := []; PyPDF2.metadata := None |};
                file_path := "report.pdf"; file_type := "pdf" |};
     env := {| fitz_open := λ path, if decide (path = "report.pdf")
                                    then Some report_pages else None;
               pdfplumber_open := λ path, if decide (path = "report.pdf")
                                          then Some report_layout else None;
               Image_open := λ _, None |} |}.

(** A Slides document as python-pptx loads it: one shape whose click action
    links to a page and whose text has a run linking to the same page and a
    run without link. *)
Definition linked_shape : pptx.Shape :=
  {| pptx.text := Some "see here";
     pptx.image_blob := None;
     pptx.table := None;
     pptx.hyperlink := None;
     pptx.click_action := Some {| pptx.address := Some "https://y" |};
     pptx.text_frame :=
       Some {| pptx.paragraphs :=
                 [ {| pptx.runs :=
                        [ {| pptx.run_hyperlink :=
                               Some {| pptx.address := Some "https://y" |} |};
                          {| pptx.run_hyperlink :=
                               Some {| pptx.address := None |} |} ] |} ] |} |}.

Definition deck_slides : pptx.Presentation :=
  {| pptx.slides := [ {| pptx.shapes := [] |};
                      {| pptx.shapes := [linked_shape] |} ];
     pptx.core_properties := ∅ |}.

Definition deck : state :=
  {| self := {| file := Presentation deck_slides;
                file_path := "deck.pptx"; file_type := "pptx" |};
     env := no_files |}.

(** Pillow on a world where every blob is a 2 by 3 PNG. *)
Definition all_png : world :=
  {| fitz_open := λ _, None; pdfplumber_open := λ _, None;
     Image_open := λ _, Some {| PIL.format := "PNG"; PIL.width := 2;
                                PIL.height := 3 |} |}.

(** A Slides document with a picture on its second slide. *)
Definition picture : pptx.Shape :=
  {| pptx.text := None; pptx.image_blob := Some [x89; x50];
     pptx.table := None; pptx.hyperlink := None; pptx.click_action := None;
     pptx.text_frame := None |}.

Definition album : state :=
  {| self := {| file := Presentation
                          {| pptx.slides := [ {| pptx.shapes := [linked_shape] |};
                                              {| pptx.shapes := [picture] |} ];
                             pptx.core_properties := ∅ |};
                file_path := "album.pptx"; file_type := "pptx" |};
     env := all_png |}.

(** A Paged document with one image on its second page. *)
Definition scan_pages : fitz.Document :=
  {| fitz.doc_pages :=
       [ {| fitz.get_images := []; fitz.get_links := [] |};
         {| fitz.get_images := [ {| fitz.xref := 7; fitz.rest := [] |} ];
            fitz.get_links := [] |} ];
     fitz.extract_image :=
       λ xref, if decide (xref = 7)
               then Some {| fitz.image := [xff; xd8]; fitz.ext := "jpeg";
                            fitz.width := 640; fitz.height := 480 |}
               else None |}.

Definition scan : state :=
  {| self := {| file := PdfReader
                          {| PyPDF2.pages :=
                               [ {| PyPDF2.extract_text := Some "ab" |};
                                 {| PyPDF2.extract_text := None |};
                                 {| PyPDF2.extract_text := Some "c" |} ];
                             PyPDF2.metadata := None |};
                file_path := "scan.pdf"; file_type := "pdf" |};
     env := {| fitz_open := λ path, if decide (path = "scan.pdf")
                                    then Some scan_pages else None;
               pdfplumber_open := λ _, None;
               Image_open := λ _, None |} |}.

(** A Flowed document with an image part, a hyperlink that resolves, one
    whose id is unknown and one without id. *)
Definition letter_doc : docx.Document :=
  {| docx.paragraphs :=
       [ {| docx.text := "Dear";
            docx.hyperlinks := [Some "rId2"; Some "rId9"; None] |} ];
     docx.tables := [];
     docx.core_properties := ∅;
     docx.part_rels :=
       [ ("rId1", {| docx.target_ref := "media/image1.png";
                     docx.target_blob := Some [x89; x50] |});
         ("rId2", {| docx.target_ref := "https://z";
                     docx.target_blob := None |}) ] |}.

Definition letter : state :=
  {| self := {| file := Document letter_doc; file_path := "letter.docx";
                file_type := "docx" |};
     env := all_png |}.

(** The same document where Pillow recognises nothing. *)
Definition letter_unreadable : state :=
  {| self := self letter; env := no_files |}.

(** A process that has stored nothing yet, on the in-memory server. *)
Definition fresh (e : state) : MySQLStorage.proc MiniServer.mini :=
  MySQLStorage.Build_proc MiniServer.mini e MySQLStorage.table_name_at_start
    MiniServer.empty [] [].

(** A new process on a server that kept [extracted_table_1] from an earlier
    run. *)
Definition rerun (e : state) : MySQLStorage.proc MiniServer.mini :=
  MySQLStorage.Build_proc MiniServer.mini e MySQLStorage.table_name_at_start
    {| MiniServer.tables := [("extracted_table_1", ["a_b"])];
       MiniServer.rows := []; MiniServer.result := [] |} [] [].

(** A filesystem sink bound to a document, before anything is written. *)
Definition on_disk (e : state) : FileStorage.t MiniHost.mini :=
  FileStorage.Build_t MiniHost.mini e "out" tt [] [].

(** A process that has stored nothing yet and cannot reach its server. *)
Definition cut_off (e : state) : MySQLStorage.proc MiniServer.offline :=
  MySQLStorage.Build_proc MiniServer.offline e MySQLStorage.table_name_at_start
    tt [] [].

(** A handle none of whose runs has a run-properties element yet. *)
Definition unread (s : state) : handle := {| api := s; rPr := ∅ |}.

(** The report once the file at its path is gone. *)
Definition report_gone : state := {| self := self report; env := no_files |}.

(** The files of the report once a scan has been put beside it. *)
Definition report_and_scan : world :=
  {| fitz_open := λ path, if decide (path = "scan.pdf") then Some scan_pages
                          else fitz_open (env report) path;
     pdfplumber_open := pdfplumber_open (env report);
     Image_open := Image_open (env report) |}.


(** Extracted tables: an empty one, then one whose header has a leading
    space. *)
Definition blank_then_people : list (list (list value)) :=
  [ []; [ [Str " a b"]; [Str "1"] ] ].

(** A table with a header and three rows, the second too short. *)
Definition contacts : list (list value) :=
  [ [Str "Name "; Str "e-mail"];
    [Str "Ann"; Str "ann@x"]; [Str "Bob"]; [Str "Cy"; None_] ].

End Examples.

(** ** Properties of the string methods *)

Section StringFacts.
Import Py Spec.

Lemma append_cons (c : ascii) (l x : string) :
  String c l +:+ x = String c (l +:+ x).
Proof. reflexivity. Qed.

Lemma append_nil (x : string) : "" +:+ x = x.
Proof. reflexivity. Qed.

Lemma lstrip_prefix (s : string) :
  ∃ l, s = l +:+ lstrip s ∧ all_space l = true.
Proof.
  induction s as [|c s [l [Hl Hs]]]; simpl.
  - by exists "".
  - destruct (isspace c) eqn:Hc.
    + exists (String c l). rewrite append_cons, <- Hl. simpl. by rewrite Hc, Hs.
    + by exists "".
Qed.

Lemma lstrip_no_lead (s : string) : starts_with_space (lstrip s) = false.
Proof.
  induction s as [|c s IH]; simpl; [done|].
  destruct (isspace c) eqn:Hc; [done|]. simpl. by rewrite Hc.
Qed.

Lemma rstrip_suffix (s : string) :
  ∃ r, s = rstrip s +:+ r ∧ all_space r = true.
Proof.
  induction s as [|c s [r [Hr Hs]]]; simpl.
  - by exists "".
  - destruct (rstrip s) as [|c' t] eqn:Ht.
    + rewrite append_nil in Hr. subst r.
      destruct (isspace c) eqn:Hc.
      * exists (String c s). rewrite append_nil. simpl. by rewrite Hc, Hs.
      * exists s. by rewrite append_cons, append_nil.
    + exists r. split; [|done]. by rewrite append_cons, <- Hr.
Qed.

Lemma rstrip_no_trail (s : string) : ends_with_space (rstrip s) = false.
Proof.
  induction s as [|c s IH]; simpl; [done|].
  destruct (rstrip s) as [|c' t] eqn:Ht.
  - destruct (isspace c) eqn:Hc; simpl; [done|]. by rewrite Hc.
  - exact IH.
Qed.

Lemma rstrip_keeps_lead (s : string) :
  starts_with_space s = false → starts_with_space (rstrip s) = false.
Proof.
  destruct s as [|c s]; simpl; [done|]. intros Hc.
  destruct (rstrip s); [by rewrite Hc|done].
Qed.

Lemma strip_no_lead (s : string) : starts_with_space (strip s) = false.
Proof. apply rstrip_keeps_lead, lstrip_no_lead. Qed.

Lemma strip_no_trail (s : string) : ends_with_space (strip s) = false.
Proof. apply rstrip_no_trail. Qed.

(** Stripping only removes whitespace, and only at the two ends. *)
Lemma strip_inside (s : string) :
  ∃ l r, s = l +:+ strip s +:+ r ∧ all_space l = true ∧ all_space r = true.
Proof.
  destruct (lstrip_prefix s) as [l [Hl Hls]].
  destruct (rstrip_suffix (lstrip s)) as [r [Hr Hrs]].
  exists l, r. unfold strip. by rewrite <- Hr, <- Hl.
Qed.

Lemma lstrip_fixed (s : string) : starts_with_space s = false → lstrip s = s.
Proof. destruct s as [|c s]; simpl; [done|]. by intros ->. Qed.

Lemma rstrip_fixed (s : string) : ends_with_space s = false → rstrip s = s.
Proof.
  induction s as [|c s IH]; simpl; [done|].
  destruct s as [|c' t]; [by intros ->|].
  intros H. rewrite (IH H). done.
Qed.

Lemma strip_idempotent (s : string) : strip (strip s) = strip s.
Proof.
  unfold strip at 1.
  rewrite (lstrip_fixed _ (strip_no_lead s)).
  apply rstrip_fixed, strip_no_trail.
Qed.

Lemma stripped_cell_strip (s : string) : stripped_cell (Str (strip s)) = true.
Proof. simpl. by rewrite strip_no_lead, strip_no_trail. Qed.

End StringFacts.

(** ** The extraction engine *)

Section Extraction.
Import Py DataExtractor Spec Examples.
Local Open Scope py_scope.

(** *** Methods that only read *)

Lemma read_only_ret {S A} (a : A) : read_only (ret a : M S A).
Proof. done. Qed.

Lemma read_only_raise {S A} (e : exn) : read_only (raise e : M S A).
Proof. done. Qed.

Lemma read_only_gets {S A} (f : S → A) : read_only (gets f).
Proof. done. Qed.

Lemma read_only_lift {S A} (r : res A) : read_only (lift r : M S A).
Proof. done. Qed.

Lemma read_only_bind {S A B} (m : M S A) (k : A → M S B) :
  read_only m → (∀ a, read_only (k a)) → read_only (bind m k).
Proof.
  intros Hm Hk s. unfold bind. specialize (Hm s).
  destruct (m s) as [[a|e] s']; simpl in *; subst; [apply Hk|done].
Qed.

Ltac read_only_steps :=
  repeat first
    [ apply read_only_ret | apply read_only_raise | apply read_only_gets
    | apply read_only_lift
    | apply read_only_bind; [|intros ?]
    | case_decide ].

Lemma extract_text_read_only : read_only extract_text.
Proof. unfold extract_text. read_only_steps. Qed.

Lemma extract_images_read_only : read_only extract_images.
Proof. unfold extract_images. read_only_steps. Qed.

Lemma extract_tables_read_only : read_only extract_tables.
Proof. unfold extract_tables. read_only_steps. Qed.

Lemma extract_links_read_only : read_only extract_links.
Proof. unfold extract_links. read_only_steps. Qed.

Lemma call_read_only (o : operation) (s : state) : snd (call o s) = s.
Proof.
  destruct o; simpl.
  - pose proof (extract_text_read_only s). by destruct (extract_text s).
  - pose proof (extract_images_read_only s). by destruct (extract_images s).
  - pose proof (extract_tables_read_only s). by destruct (extract_tables s).
  - pose proof (extract_links_read_only s). by destruct (extract_links s).
Qed.

(** *** Metadata *)

(** C3. Metadata totality: a field of the four that the properties object
    lacks is present in the record with the empty string, and all four keys
    are always present. *)
Theorem metadata_total (properties : option obj) (field : string) :
  field ∈ metadata_fields →
  lacks properties field →
  _extract_metadata properties !! field = Some (Str "")
  ∧ ∀ key, key ∈ metadata_fields →
           is_Some (_extract_metadata properties !! key).
Proof.
  intros Hin Hlacks. split.
  - assert (getattr properties field (Str "") = Str "") as Hget.
    { unfold getattr. destruct properties as [attrs|]; [|done].
      simpl in Hlacks. by rewrite Hlacks. }
    unfold metadata_fields in Hin. unfold _extract_metadata.
    repeat (apply elem_of_cons in Hin as [->|Hin]);
      [| | | |by apply elem_of_nil in Hin];
      rewrite Hget; by simplify_map_eq.
  - intros key Hkey. unfold metadata_fields in Hkey. unfold _extract_metadata.
    repeat (apply elem_of_cons in Hkey as [->|Hkey]);
      [| | | |by apply elem_of_nil in Hkey];
      by simplify_map_eq.
Qed.

Lemma metadata_total_witness :
  _extract_metadata untitled !! "title" = Some (Str "").
Proof.
  apply (metadata_total untitled "title").
  - unfold metadata_fields. set_solver.
  - reflexivity.
Defined.

(** *** Text *)

(** C2. The text of a Flowed document is its paragraphs' texts joined by one
    newline, returned with the metadata of the core properties. *)
Theorem flowed_text_joined (s : state) (d : docx.Document) :
  flowed s d →
  extract_text s
  = (Ok (join nl (docx.text <$> docx.paragraphs d),
         _extract_metadata (Some (docx.core_properties d))), s).
Proof.
  intros [Ht Hf]. unfold extract_text, bind, gets, lift, ret. simpl.
  rewrite Ht, Hf. repeat case_decide; try discriminate; done.
Qed.

Lemma flowed_text_joined_witness :
  fst (extract_text hello_world)
  = Ok ("Hello" +:+ nl +:+ "World",
        _extract_metadata (Some (docx.core_properties greeting))).
Proof.
  rewrite (flowed_text_joined hello_world greeting); [reflexivity|].
  split; reflexivity.
Defined.

(** *** Unknown kinds *)

(** C4. On a handle whose kind is none of the three, each of the four
    operations raises the same reported error and does nothing else. *)
Theorem unknown_kind_rejected (s : state) :
  file_type (self s) ∉ known_kinds →
  let diagnostic :=
    ValueError "Unsupported file format. Only PDF, DOCX, and PPTX are supported."
  in
  extract_text s = (Raise diagnostic, s)
  ∧ extract_images s = (Raise diagnostic, s)
  ∧ extract_tables s = (Raise diagnostic, s)
  ∧ extract_links s = (Raise diagnostic, s).
Proof.
  intros Hkind diagnostic. unfold known_kinds in Hkind.
  assert (file_type (self s) ≠ "pdf") by set_solver.
  assert (file_type (self s) ≠ "docx") by set_solver.
  assert (file_type (self s) ≠ "pptx") by set_solver.
  unfold extract_text, extract_images, extract_tables, extract_links,
    bind, gets, raise. simpl.
  repeat case_decide; done.
Qed.

Lemma unknown_kind_rejected_witness :
  extract_links notes
  = (Raise (ValueError
              "Unsupported file format. Only PDF, DOCX, and PPTX are supported."),
     notes).
Proof.
  apply (unknown_kind_rejected notes).
  unfold known_kinds. simpl. intros Hin.
  repeat (apply elem_of_cons in Hin as [Hin|Hin]; [discriminate|]).
  by apply elem_of_nil in Hin.
Defined.

(** *** Loops that append *)

Lemma fold_left_append {A B} (step : list B → A → list B) (f : A → list B)
    (xs : list A) (acc : list B) :
  (∀ acc x, step acc x = acc ++ f x) →
  fold_left step xs acc = acc ++ (xs ≫= f).
Proof.
  intros Hstep. revert acc.
  induction xs as [|x xs IH]; intros acc; csimpl.
  - by rewrite app_nil_r.
  - by rewrite Hstep, IH, app_assoc.
Qed.

Lemma bind_imap {A B C} (g : nat → A → B) (f : B → list C) (xs : list A) :
  imap g xs ≫= f = mjoin (imap (λ i x, f (g i x)) xs).
Proof.
  revert g. induction xs as [|x xs IH]; intros g; csimpl; [done|].
  by rewrite IH.
Qed.

Lemma fmap_bind_list {A B C} (f : B → C) (g : A → list B) (xs : list A) :
  f <$> (xs ≫= g) = xs ≫= (λ x, f <$> g x).
Proof.
  induction xs as [|x xs IH]; csimpl; [done|].
  by rewrite fmap_app, IH.
Qed.

Lemma bind_assoc_list {A B C} (f : A → list B) (g : B → list C)
    (xs : list A) :
  (xs ≫= f) ≫= g = xs ≫= (λ x, f x ≫= g).
Proof.
  induction xs as [|x xs IH]; csimpl; [done|].
  by rewrite bind_app, IH.
Qed.

Lemma bind_ext_list {A B} (f g : A → list B) (xs : list A) :
  (∀ x, f x = g x) → xs ≫= f = xs ≫= g.
Proof.
  intros Hfg. induction xs as [|x xs IH]; csimpl; [done|].
  by rewrite Hfg, IH.
Qed.

Lemma length_mjoin_imap {A B} (f : nat → A → list B) (xs : list A)
    (size : A → nat) :
  (∀ i x, length (f i x) = size x) →
  length (mjoin (imap f xs)) = sum_list (size <$> xs).
Proof.
  revert f. induction xs as [|x xs IH]; intros f Hf; simpl; [done|].
  rewrite length_app, Hf. f_equal. apply IH. intros i y. apply Hf.
Qed.

(** The loop over [range(len(doc))], reading [doc[page_num]] each time. *)
Lemma for_fold_pages {B} (doc : fitz.Document) (f : fitz.Page → Z → list B)
    (pre post : list fitz.Page) (acc : list B) :
  fitz.doc_pages doc = pre ++ post →
  for_fold (Z.of_nat <$> seq (length pre) (length post))
    (λ page_num found,
       page <~ load_page doc page_num ;; Ok (found ++ f page (page_num + 1)))
    acc
  = Ok (acc ++ mjoin (imap (λ i page, f page (Z.of_nat (length pre + i) + 1))
                           post)).
Proof.
  revert pre acc. induction post as [|page post IH]; intros pre acc Hdoc.
  - simpl. by rewrite app_nil_r.
  - simpl. unfold load_page at 1. rewrite Nat2Z.id, Hdoc.
    rewrite list_lookup_middle by done. simpl.
    specialize (IH (pre ++ [page]) (acc ++ f page (Z.of_nat (length pre) + 1))).
    rewrite length_app in IH. simpl in IH.
    replace (length pre + 1)%nat with (S (length pre)) in IH by lia.
    etrans; [apply IH; by rewrite <- app_assoc|].
    rewrite <- app_assoc. do 3 f_equal.
    + by rewrite Nat.add_0_r.
    + f_equal. apply imap_ext. intros i x _. simpl. do 3 f_equal. lia.
Qed.

(** *** Links of a Paged document *)

(** C5. The links of a Paged document are one entry per annotation entry of
    each page, in page order, numbered by the 1-based page index; an entry
    without a URI has the empty url; a page without entries adds nothing. *)
Theorem paged_links_extracted (s : state) (doc : fitz.Document) :
  paged s doc →
  extract_links s = (Ok (paged_links (fitz.doc_pages doc)), s)
  ∧ length (paged_links (fitz.doc_pages doc))
    = sum_list ((λ page, length (fitz.get_links page)) <$> fitz.doc_pages doc).
Proof.
  intros [Ht Hopen]. split.
  - unfold extract_links, bind, gets, lift, ret, open_fitz. simpl.
    rewrite Ht. case_decide; [|done]. simpl. rewrite Hopen. simpl.
    unfold range.
    rewrite (for_fold_pages doc _extract_pdf_link [] (fitz.doc_pages doc)) by done.
    reflexivity.
  - unfold paged_links. apply length_mjoin_imap. intros i page.
    by rewrite length_fmap.
Qed.

Lemma paged_links_extracted_witness :
  fst (extract_links report)
  = Ok [ {[ "url" := Str "https://x"; "page_number" := Int 2 ]} ].
Proof.
  rewrite (proj1 (paged_links_extracted report report_pages
                    (conj eq_refl eq_refl))).
  reflexivity.
Defined.

(** *** Links of a Slides document *)

Lemma link_address_carried (h : option pptx.Hyperlink) (n : Z)
    (links : list dict) :
  match link_address h with
  | Some a => links ++ [ {[ "url" := Str a; "slide_number" := Int n ]} ]
  | None => links
  end = links ++ (slide_entry n <$> carried h).
Proof.
  destruct h as [[[a|]]|]; simpl; try by rewrite app_nil_r.
  destruct (String.eqb_spec a ""); case_decide; simpl; try done.
  by rewrite app_nil_r.
Qed.

(** The links of a Slides document, on any object with the attributes the
    extractor asks for: shape by shape, the address under the shape's
    attribute [hyperlink] if it has one, then one link for every run of its
    text frame that carries one, all with the 1-based slide number. *)
Lemma slides_links_listed (s : state) (p : pptx.Presentation) :
  slides_doc s p →
  extract_links s = (Ok (slides_links (pptx.slides p)), s)
  ∧ ∀ n shape,
      length (shape_links n shape)
      = (length (carried (pptx.hyperlink shape))
         + length (shape_runs shape ≫= λ run, carried (pptx.run_hyperlink run)))%nat.
Proof.
  intros [Ht Hf]. split.
  - unfold extract_links, bind, gets, lift, ret. simpl.
    rewrite Ht, Hf. repeat case_decide; try discriminate; [|done]. simpl.
    do 2 f_equal. unfold slides_links, enumerate.
    rewrite (fold_left_append _
               (λ '(slide_num, slide),
                  pptx.shapes slide ≫= shape_links (slide_num + 1))).
    + simpl. apply bind_imap.
    + intros links [slide_num slide].
      apply fold_left_append. intros acc shape.
      rewrite link_address_carried. unfold shape_links, shape_runs.
      destruct (pptx.text_frame shape) as [tf|]; [|by rewrite app_nil_r].
      rewrite app_assoc.
      generalize (acc ++ (slide_entry (slide_num + 1)
                          <$> carried (pptx.hyperlink shape))).
      intros acc'.
      rewrite (fold_left_append _
                 (λ paragraph, pptx.runs paragraph ≫=
                    λ run, slide_entry (slide_num + 1)
                           <$> carried (pptx.run_hyperlink run))).
      * by rewrite bind_assoc_list.
      * intros acc'' paragraph. apply fold_left_append.
        intros acc3 run. apply link_address_carried.
  - intros n shape. unfold shape_links. rewrite length_app, length_fmap.
    f_equal.
    rewrite <- (fmap_bind_list (slide_entry n)
                  (λ run, carried (pptx.run_hyperlink run))).
    apply length_fmap.
Qed.

Lemma bind_ext_elem {A B} (f g : A → list B) (xs : list A) :
  (∀ x, x ∈ xs → f x = g x) → xs ≫= f = xs ≫= g.
Proof.
  intros Hfg. induction xs as [|x xs IH]; csimpl; [done|].
  rewrite Hfg by constructor. rewrite IH; [done|].
  intros y Hy. apply Hfg. by constructor.
Qed.

Lemma slides_links_without_attribute (p : pptx.Presentation) :
  loaded p → slides_links (pptx.slides p) = slides_run_links (pptx.slides p).
Proof.
  intros Hloaded. unfold slides_links, slides_run_links. f_equal.
  apply imap_ext. intros i slide Hslide. simpl.
  apply bind_ext_elem. intros shape Hshape.
  unfold shape_links, run_links.
  by rewrite (Hloaded slide shape (list_elem_of_lookup_2 _ _ _ Hslide) Hshape).
Qed.

(** C6. The code misses the link of a shape.  On a Slides document as
    python-pptx loads it, extract_links returns one link for every run that
    carries an address, with the 1-based slide number, and nothing else: it
    looks for the shape's own link under an attribute [hyperlink] that no
    shape has, so the link a shape carries on its click action is never
    emitted. *)
Theorem slides_shape_links_missed (s : state) (p : pptx.Presentation) :
  slides_doc s p → loaded p →
  extract_links s = (Ok (slides_run_links (pptx.slides p)), s).
Proof.
  intros Hdoc Hloaded.
  rewrite (proj1 (slides_links_listed s p Hdoc)).
  by rewrite slides_links_without_attribute.
Qed.

Lemma slides_shape_links_missed_witness :
  fst (extract_links deck)
  = Ok [ {[ "url" := Str "https://y"; "slide_number" := Int 2 ]} ]
  ∧ listed_links (pptx.slides deck_slides)
    = [ {[ "url" := Str "https://y"; "slide_number" := Int 2 ]};
        {[ "url" := Str "https://y"; "slide_number" := Int 2 ]} ].
Proof.
  split; [|reflexivity].
  rewrite (slides_shape_links_missed deck deck_slides).
  - reflexivity.
  - split; reflexivity.
  - intros slide shape Hslide Hshape. unfold deck_slides in Hslide.
    simpl in Hslide.
    apply elem_of_cons in Hslide as [->|Hslide];
      [by apply elem_of_nil in Hshape|].
    apply elem_of_cons in Hslide as [->|Hslide];
      [|by apply elem_of_nil in Hslide].
    simpl in Hshape. apply elem_of_cons in Hshape as [->|Hshape]; [done|].
    by apply elem_of_nil in Hshape.
Defined.

(** *** Tables *)

Lemma forallb_fmap_true {A B} (test : B → bool) (f : A → B) (xs : list A) :
  (∀ x, test (f x) = true) → forallb test (f <$> xs) = true.
Proof.
  intros Hf. induction xs as [|x xs IH]; csimpl; [done|].
  by rewrite Hf, IH.
Qed.

Lemma stripped_table_cells (t : office.Table) :
  forallb (forallb stripped_cell) (stripped_table t) = true.
Proof.
  unfold stripped_table. apply forallb_fmap_true. intros row.
  apply forallb_fmap_true. intros cell. apply stripped_cell_strip.
Qed.

(** C1, as the code has it. For a Flowed or a Slides document the extracted
    tables are the document's table objects in order, row by row and cell by
    cell, each cell being the cell's text stripped and kept as a string; so
    every cell is a string without whitespace at either end.  For a Paged
    document they are the detector's tables, page after page, as it gives
    them. *)
Theorem tables_by_kind (s : state) :
  (∀ ts, office_tables s ts →
         extract_tables s = (Ok (stripped_table <$> ts), s)
         ∧ all_cells_stripped (stripped_table <$> ts) = true)
  ∧ (∀ pdf, paged_layout s pdf →
            extract_tables s = (Ok (detected_tables pdf), s)).
Proof.
  split.
  - intros ts Hts. split.
    + unfold extract_tables, bind, gets, lift, ret. simpl.
      destruct Hts as [(d & [Ht Hf] & ->)|(p & [Ht Hf] & ->)]; rewrite Ht, Hf;
        repeat case_decide; try discriminate; try done; simpl.
      do 2 f_equal. unfold slide_tables.
      rewrite (fold_left_append _
                 (λ slide, pptx.shapes slide ≫= λ shape,
                    match pptx.table shape with
                    | Some t => [stripped_table t]
                    | None => []
                    end)).
      * simpl. rewrite fmap_bind_list. apply bind_ext_list. intros slide.
        rewrite fmap_bind_list. apply bind_ext_list. intros shape.
        by destruct (pptx.table shape).
      * intros acc slide. apply fold_left_append. intros acc' shape.
        destruct (pptx.table shape); [done|by rewrite app_nil_r].
    + unfold all_cells_stripped. apply forallb_fmap_true, stripped_table_cells.
  - intros pdf [Ht Hopen].
    unfold extract_tables, bind, gets, lift, ret, open_pdfplumber. simpl.
    rewrite Ht. case_decide; [|done]. simpl. rewrite Hopen. simpl.
    unfold detected_tables.
    by rewrite (fold_left_append _ (λ page,
                  match pdfplumber.extract_tables page with
                  | Some found => found
                  | None => []
                  end)).
Qed.

Lemma tables_by_kind_witness :
  fst (extract_tables hello_world) = Ok [ [ [Str "42"; Str "a b"] ] ].
Proof.
  rewrite (proj1 (proj1 (tables_by_kind hello_world)
                    (docx.tables greeting)
                    (or_introl (ex_intro _ greeting
                                  (conj (conj eq_refl eq_refl) eq_refl))))).
  reflexivity.
Defined.

(** C1, as stated, fails on a Paged document: the detector's cells come out
    unstripped, and a cell it could not read comes out as [None]. *)
Lemma paged_cells_not_stripped :
  extract_tables report = (Ok [ [ [Str " a "; None_] ] ], report)
  ∧ all_cells_stripped [ [ [Str " a "; None_] ] ] = false
  ∧ stripped_cell (Str " a ") = false
  ∧ stripped_cell None_ = false.
Proof. repeat split; reflexivity. Qed.

End Extraction.

(** ** The relational sink *)

Section SinkFacts.
Import Py DataExtractor MySQLStorage Spec Examples.
Local Open Scope py_scope.
Context (D : driver).

(** *** What the cursor calls leave alone *)

Lemma keeps_counter_bind {A B} (m : M (proc D) A) (k : A → M (proc D) B) :
  keeps_counter m → (∀ a, keeps_counter (k a)) → keeps_counter (bind m k).
Proof.
  intros Hm Hk p. unfold bind. specialize (Hm p).
  destruct (m p) as [[a|e] p1]; simpl in *; [|done].
  by rewrite Hk.
Qed.

Lemma keeps_counter_for_each {A} (xs : list A) (body : A → M (proc D) unit) :
  (∀ x, keeps_counter (body x)) → keeps_counter (for_each xs body).
Proof.
  intros Hbody. induction xs as [|x xs IH]; simpl; [done|].
  apply keeps_counter_bind; [apply Hbody|by intros _].
Qed.

Lemma keeps_counter_try {A} (body : M (proc D) A)
    (handler : string → M (proc D) A) :
  keeps_counter body → (∀ err, keeps_counter (handler err)) →
  keeps_counter (try_except_mysql body handler).
Proof.
  intros Hb Hh p. unfold try_except_mysql. specialize (Hb p).
  destruct (body p) as [[a|[]] p1]; simpl in *; try done.
  by rewrite Hh.
Qed.

Lemma keeps_counter_execute (q : stmt) (params : list value) :
  keeps_counter (cursor_execute D q params).
Proof.
  intros p. unfold cursor_execute.
  by destruct (execute D q params (server p)) as [[err|] d].
Qed.

Lemma keeps_counter_fetchone : keeps_counter (cursor_fetchone D).
Proof.
  intros p. unfold cursor_fetchone.
  by destruct (fetchone D (server p)) as [[err|row] d].
Qed.

Lemma keeps_counter_fetchall : keeps_counter (cursor_fetchall D).
Proof.
  intros p. unfold cursor_fetchall.
  by destruct (fetchall D (server p)) as [[err|found] d].
Qed.

Lemma keeps_counter_commit : keeps_counter (conn_commit D).
Proof.
  intros p. unfold conn_commit.
  by destruct (commit D (server p)) as [[err|] d].
Qed.

Lemma keeps_counter_print (line : string) : keeps_counter (print D line).
Proof. done. Qed.

Lemma keeps_counter_ret {A} (a : A) : keeps_counter (ret a : M (proc D) A).
Proof. done. Qed.

Lemma keeps_counter_ensure_table (name : string) (cols : list string) :
  keeps_counter (ensure_table D name cols).
Proof.
  unfold ensure_table.
  apply keeps_counter_bind; [apply keeps_counter_execute|intros _].
  apply keeps_counter_bind; [apply keeps_counter_fetchone|intros result].
  destruct (row_found result).
  - apply keeps_counter_bind; [apply keeps_counter_execute|intros _].
    apply keeps_counter_bind; [apply keeps_counter_fetchall|intros found].
    apply keeps_counter_for_each. intros col.
    case_decide; [apply keeps_counter_ret|apply keeps_counter_execute].
  - apply keeps_counter_execute.
Qed.

Lemma keeps_counter_insert_row (name : string) (cols : list string)
    (row : list value) :
  keeps_counter (insert_row D name cols row).
Proof.
  apply keeps_counter_try; [apply keeps_counter_execute|].
  intros err. apply keeps_counter_print.
Qed.

Lemma keeps_counter_init (e : DataExtractor.state) : keeps_counter (init D e).
Proof.
  unfold init, create_tables.
  apply keeps_counter_bind; [done|intros _].
  repeat (apply keeps_counter_bind; [apply keeps_counter_execute|intros _]).
  apply keeps_counter_commit.
Qed.

(** *** What can escape a method *)

Lemma raises_only_bind {A B} (allowed : exn → Prop) (m : M (proc D) A)
    (k : A → M (proc D) B) :
  raises_only allowed m → (∀ a, raises_only allowed (k a)) →
  raises_only allowed (bind m k).
Proof.
  intros Hm Hk p. unfold bind. specialize (Hm p).
  destruct (m p) as [[a|e] p1]; simpl in *; [apply Hk|done].
Qed.

Lemma raises_only_for_each {A} (allowed : exn → Prop) (xs : list A)
    (body : A → M (proc D) unit) :
  (∀ x, raises_only allowed (body x)) →
  raises_only allowed (for_each xs body).
Proof.
  intros Hbody. induction xs as [|x xs IH]; simpl; [done|].
  apply raises_only_bind; [apply Hbody|by intros _].
Qed.

(** The handler takes the connector's errors; the others pass. *)
Lemma raises_only_try {A} (inside allowed : exn → Prop) (body : M (proc D) A)
    (handler : string → M (proc D) A) :
  raises_only inside body →
  (∀ e, inside e → is_mysql e ∨ allowed e) →
  (∀ err, raises_only allowed (handler err)) →
  raises_only allowed (try_except_mysql body handler).
Proof.
  intros Hb Hin Hh p. unfold try_except_mysql. specialize (Hb p).
  destruct (body p) as [[a|e] p1]; simpl in *; [done|].
  destruct (Hin e Hb) as [Hsql|Hok]; destruct e; simpl in *; try done;
    apply Hh.
Qed.

Lemma raises_only_execute (q : stmt) (params : list value) :
  raises_only is_mysql (cursor_execute D q params).
Proof.
  intros p. unfold cursor_execute.
  by destruct (execute D q params (server p)) as [[err|] d].
Qed.

Lemma raises_only_fetchone : raises_only is_mysql (cursor_fetchone D).
Proof.
  intros p. unfold cursor_fetchone.
  by destruct (fetchone D (server p)) as [[err|row] d].
Qed.

Lemma raises_only_fetchall : raises_only is_mysql (cursor_fetchall D).
Proof.
  intros p. unfold cursor_fetchall.
  by destruct (fetchall D (server p)) as [[err|found] d].
Qed.

Lemma raises_only_ensure_table (name : string) (cols : list string) :
  raises_only is_mysql (ensure_table D name cols).
Proof.
  unfold ensure_table.
  apply raises_only_bind; [apply raises_only_execute|intros _].
  apply raises_only_bind; [apply raises_only_fetchone|intros result].
  destruct (row_found result).
  - apply raises_only_bind; [apply raises_only_execute|intros _].
    apply raises_only_bind; [apply raises_only_fetchall|intros found].
    apply raises_only_for_each. intros col.
    case_decide; [done|apply raises_only_execute].
  - apply raises_only_execute.
Qed.

(** A row never raises: its one statement is inside the [try]. *)
Lemma insert_row_never_raises (allowed : exn → Prop) (name : string)
    (cols : list string) (row : list value) :
  raises_only allowed (insert_row D name cols row).
Proof.
  apply (raises_only_try is_mysql); [apply raises_only_execute|tauto|done].
Qed.

Lemma sanitize_columns_textual (names : list string) :
  sanitize_columns (Str <$> names) = Ok (sanitize <$> names).
Proof.
  induction names as [|col names IH]; csimpl; [done|]. by rewrite IH.
Qed.

Lemma sanitize_columns_not_mysql (header : list value) :
  raises_within (λ e, ¬ is_mysql e) (sanitize_columns header).
Proof.
  induction header as [|col header IH]; simpl; [done|].
  destruct col; simpl; try tauto.
  destruct (sanitize_columns header); simpl in *; tauto.
Qed.

(** One iteration, in terms of what follows the reading of the header. *)
Lemma save_table_rows (header : list value) (data_rows : list (list value))
    (p : proc D) :
  save_table D (header :: data_rows) p
  = match sanitize_columns header with
    | Ok cols => table_body D cols data_rows p
    | Raise e => (Raise e, p)
    end.
Proof.
  unfold save_table, bind at 1, lift.
  by destruct (sanitize_columns header).
Qed.

(** After the header is read, nothing escapes one iteration. *)
Lemma table_body_never_raises (allowed : exn → Prop) (cols : list string)
    (data_rows : list (list value)) :
  raises_only allowed (table_body D cols data_rows).
Proof.
  unfold table_body.
  apply raises_only_bind; [done|intros n].
  apply raises_only_bind; [done|intros _].
  apply raises_only_bind.
  - apply (raises_only_try is_mysql); [|tauto|done].
    apply raises_only_bind; [apply raises_only_ensure_table|done].
  - intros [|]; [|done].
    apply raises_only_for_each. intros row. apply insert_row_never_raises.
Qed.

Lemma save_table_contains (table : list (list value)) :
  raises_only (λ e, ¬ is_mysql e) (save_table D table).
Proof.
  destruct table as [|header data_rows]; [done|].
  intros p. rewrite save_table_rows.
  pose proof (sanitize_columns_not_mysql header) as Hh.
  destruct (sanitize_columns header) as [cols|e]; simpl in *; [|done].
  apply table_body_never_raises.
Qed.


(** *** The counter *)

Lemma table_body_counter (cols : list string) (data_rows : list (list value))
    (p : proc D) :
  table_name (snd (table_body D cols data_rows p)) = table_name p + 1.
Proof.
  unfold table_body, bind at 1, gets at 1. simpl.
  unfold bind at 1, modify at 1. simpl.
  match goal with
  | |- table_name (snd (?rest ?q)) = _ =>
      assert (keeps_counter rest) as Hrest
  end.
  { apply keeps_counter_bind.
    - apply keeps_counter_try.
      + apply keeps_counter_bind; [apply keeps_counter_ensure_table|done].
      + intros err. apply keeps_counter_bind; [apply keeps_counter_print|done].
    - intros [|]; [|done].
      apply keeps_counter_for_each. intros row. apply keeps_counter_insert_row. }
  by rewrite Hrest.
Qed.

(** One iteration takes one counter value if the table has rows and its
    header can be read, and none otherwise. *)
Lemma save_table_counter (table : list (list value)) (p : proc D) :
  fst (save_table D table p) = Ok tt →
  table_name (snd (save_table D table p))
  = table_name p + Z.of_nat (length (filter has_rows [table])).
Proof.
  destruct table as [|header data_rows]; [intros _; simpl; lia|].
  rewrite save_table_rows.
  destruct (sanitize_columns header) as [cols|e]; [|done].
  intros _. rewrite table_body_counter.
  rewrite filter_cons_True by done. simpl. lia.
Qed.

Lemma save_tables_cons (table : list (list value))
    (tables : list (list (list value))) (p : proc D) :
  save_tables D (table :: tables) p
  = match save_table D table p with
    | (Ok _, p1) => save_tables D tables p1
    | (Raise e, p1) => (Raise e, p1)
    end.
Proof. reflexivity. Qed.

Lemma save_tables_counter (tables : list (list (list value)))
    (p p1 : proc D) :
  save_tables D tables p = (Ok tt, p1) →
  table_name p1 = table_name p + Z.of_nat (length (filter has_rows tables)).
Proof.
  revert p. induction tables as [|table tables IH]; intros p.
  - intros [= <-]. simpl. lia.
  - rewrite save_tables_cons.
    pose proof (save_table_counter table p) as Hone.
    destruct (save_table D table p) as [[[]|e] p2]; [|done].
    intros Hrest. rewrite (IH _ Hrest). simpl in Hone. rewrite Hone by done.
    rewrite (filter_app _ [table] tables), length_app. lia.
Qed.

Lemma save_tables_skips (tables : list (list (list value))) (p : proc D) :
  save_tables D (filter has_rows tables) p = save_tables D tables p.
Proof.
  revert p. induction tables as [|table tables IH]; intros p; [done|].
  destruct table as [|header data_rows].
  - rewrite filter_cons_False by (by intros []). rewrite IH. reflexivity.
  - rewrite filter_cons_True by done. rewrite !save_tables_cons.
    destruct (save_table D (header :: data_rows) p) as [[[]|e] p2]; [|done].
    apply IH.
Qed.

(** C10. An extracted table without rows is passed over in silence: the
    iteration returns in the state it started in, so nothing is sent to the
    server, nothing is printed and the counter keeps its value; saving a list
    of tables is saving its non-empty ones, and the counter advances by their
    number. *)
Theorem empty_tables_skipped (tables : list (list (list value)))
    (p p1 : proc D) :
  save_tables D tables p = (Ok tt, p1) →
  save_table D [] p = (Ok tt, p)
  ∧ save_tables D (filter has_rows tables) p = save_tables D tables p
  ∧ table_name p1 = table_name p + Z.of_nat (length (filter has_rows tables)).
Proof.
  intros Hsave. split; [done|]. split.
  - apply save_tables_skips.
  - by apply save_tables_counter.
Qed.

End SinkFacts.

Lemma empty_tables_skipped_witness :
  MySQLStorage.table_name
    (snd (MySQLStorage.save_tables MiniServer.mini Examples.blank_then_people
            (Examples.fresh Examples.hello_world)))
  = 1 + 1.
Proof.
  refine (proj2 (proj2 (empty_tables_skipped MiniServer.mini
                          Examples.blank_then_people
                          (Examples.fresh Examples.hello_world) _ _))).
  vm_compute. reflexivity.
Defined.

Section SinkTraversal.
Import Py DataExtractor MySQLStorage Spec Examples.
Local Open Scope py_scope.
Context (D : driver).

Lemma save_tables_contains (tables : list (list (list value))) :
  raises_only (λ e, ¬ is_mysql e) (save_tables D tables).
Proof. apply raises_only_for_each, save_table_contains. Qed.



(** *** One table *)

Lemma insert_rows_sent (name : string) (cols : list string)
    (rows : list (list value)) (p : proc D) :
  ∃ p1, for_each rows (insert_row D name cols) p = (Ok tt, p1)
        ∧ table_name p1 = table_name p
        ∧ sent p1 = sent p ++ ((λ row, (InsertRow name cols (length row), row))
                               <$> rows).
Proof.
  revert p. induction rows as [|row rows IH]; intros p.
  - exists p. by rewrite app_nil_r.
  - simpl. unfold bind at 1, insert_row at 1, try_except_mysql, cursor_execute.
    destruct (execute D (InsertRow name cols (length row)) row (server p))
      as [[err|] d]; simpl;
      match goal with
      | |- ∃ p1, for_each _ _ ?p2 = _ ∧ _ =>
          destruct (IH p2) as (p1 & Hrun & Hcounter & Hsent)
      end;
      exists p1; rewrite Hrun, Hcounter, Hsent; simpl;
      by rewrite <- app_assoc.
Qed.

Lemma generated_name_inj (n m : Z) :
  generated_name n = generated_name m → n = m.
Proof.
  unfold generated_name, str_of_int. intros Heq.
  apply (inj (String.app "extracted_table_")) in Heq.
  by apply (inj pretty) in Heq.
Qed.

End SinkTraversal.


(** ** The extraction engine: images, the other links, the other texts *)

Section ExtractionMore.
Import Py DataExtractor Spec Examples.
Local Open Scope py_scope.

(** *** Loops that may raise *)

Lemma for_fold_invariant {A B} (P : B → Prop) (xs : list A)
    (body : A → B → res B) (acc r : B) :
  P acc →
  (∀ x acc r, x ∈ xs → P acc → body x acc = Ok r → P r) →
  for_fold xs body acc = Ok r → P r.
Proof.
  revert acc. induction xs as [|x xs IH]; intros acc Hacc Hbody; simpl.
  - by intros [= <-].
  - destruct (body x acc) as [acc'|e] eqn:Hx; simpl; [|done].
    apply IH.
    + apply (Hbody x acc acc'); [constructor|done|done].
    + intros y a b Hy. apply Hbody. by constructor.
Qed.

Lemma for_fold_length {A B} (size : A → nat) (xs : list A)
    (body : A → list B → res (list B)) (acc r : list B) :
  (∀ x acc r, body x acc = Ok r → length r = (length acc + size x)%nat) →
  for_fold xs body acc = Ok r →
  length r = (length acc + sum_list (size <$> xs))%nat.
Proof.
  intros Hbody. revert acc. induction xs as [|x xs IH]; intros acc; csimpl.
  - intros [= <-]. lia.
  - destruct (body x acc) as [acc'|e] eqn:Hx; csimpl; [|done].
    intros Hrest. rewrite (IH _ Hrest), (Hbody _ _ _ Hx). lia.
Qed.

Lemma for_fold_raises {A B} (xs : list A) (body : A → B → res B) (acc : B)
    (x : A) :
  x ∈ xs → (∀ acc, ∃ e, body x acc = Raise e) →
  ∃ e, for_fold xs body acc = Raise e.
Proof.
  intros Hin Hx. revert acc.
  induction xs as [|y xs IH]; intros acc; [by apply elem_of_nil in Hin|].
  simpl. apply elem_of_cons in Hin as [<-|Hin].
  - destruct (Hx acc) as [e ->]. by exists e.
  - destruct (body y acc) as [acc'|e]; simpl; [by apply IH|by exists e].
Qed.

(** The loop over [range(len(doc))] is the loop over the numbered pages. *)
Lemma for_fold_range_pages {B} (doc : fitz.Document)
    (g : fitz.Page → Z → B → res B) (pre post : list fitz.Page) (acc : B) :
  fitz.doc_pages doc = pre ++ post →
  for_fold (Z.of_nat <$> seq (length pre) (length post))
    (λ page_num acc, page <~ load_page doc page_num ;; g page page_num acc)
    acc
  = for_fold (imap (λ i page, (Z.of_nat (length pre + i), page)) post)
      (λ np acc, g np.2 np.1 acc) acc.
Proof.
  revert pre acc. induction post as [|page post IH]; intros pre acc Hdoc;
    [done|].
  csimpl. unfold load_page at 1. rewrite Nat2Z.id, Hdoc.
  rewrite list_lookup_middle by done. simpl. rewrite Nat.add_0_r.
  destruct (g page (Z.of_nat (length pre)) acc) as [acc'|e]; simpl; [|done].
  specialize (IH (pre ++ [page]) acc').
  rewrite length_app in IH. simpl in IH.
  replace (length pre + 1)%nat with (S (length pre)) in IH by lia.
  etrans; [apply IH; by rewrite <- app_assoc|].
  f_equal. apply imap_ext. intros i x _. simpl. do 2 f_equal. lia.
Qed.

Lemma numbered_pages_bound (pages : list fitz.Page) (n : Z) (page : fitz.Page) :
  (n, page) ∈ imap (λ i page, (Z.of_nat (0 + i), page)) pages →
  0 ≤ n < Z.of_nat (length pages) ∧ page ∈ pages.
Proof.
  intros Hin. apply elem_of_lookup_imap in Hin as (i & x & [= -> ->] & Hi).
  split; [|by eapply list_elem_of_lookup_2].
  apply lookup_lt_Some in Hi. lia.
Qed.

(** *** Images *)

Lemma process_pdf_image (w : world) (img : fitz.image_ref)
    (doc : fitz.Document) (n : Z) (im : dict) :
  _process_image w "pdf" (ImgRef img) (DocFitz doc) (Int n) = Ok im →
  im !! "page_number" = Some (Int n) ∧ im !! "slide_number" = None.
Proof.
  unfold _process_image. case_decide; [|done].
  destruct (fitz.extract_image doc (fitz.xref img)); [|done].
  intros [= <-]. by simplify_map_eq.
Qed.

Lemma process_docx_image (w : world) (blob : list byte) (im : dict) :
  _process_image w "docx" (ImgBlob blob) DocNone None_ = Ok im →
  unlocated im ∧ im !! "image" = Some (Bytes blob).
Proof.
  unfold _process_image, decode. repeat case_decide; try done.
  destruct (Image_open w blob); [|done]. simpl.
  intros [= <-]. unfold unlocated. by simplify_map_eq.
Qed.

Lemma process_pptx_image (w : world) (shape : pptx.Shape) (n : Z) (im : dict) :
  _process_image w "pptx" (ImgShape shape) (DocInt n) None_ = Ok im →
  im !! "slide_number" = Some None_ ∧ im !! "page_number" = None.
Proof.
  unfold _process_image, decode. repeat case_decide; try done.
  destruct (pptx.image_blob shape) as [blob|]; [|done].
  destruct (Image_open w blob); [|done]. simpl.
  intros [= <-]. by simplify_map_eq.
Qed.

(** X1. Every image extracted from a Slides document carries the key
    slide_number with the value None, never the number of its slide: the
    slide number is passed to [_process_image] in the position of [doc]. *)
Theorem slides_images_unnumbered (s : state) (p : pptx.Presentation)
    (images : list dict) :
  slides_doc s p →
  fst (extract_images s) = Ok images →
  Forall (λ img, img !! "slide_number" = Some None_
                 ∧ img !! "page_number" = None) images.
Proof.
  intros [Ht Hf]. unfold extract_images, bind, gets, lift. simpl.
  rewrite Ht, Hf. repeat case_decide; try discriminate. simpl.
  apply for_fold_invariant; [done|].
  intros [slide_num slide] acc r _ Hacc.
  apply for_fold_invariant; [done|].
  intros shape acc' r' _ Hacc'.
  destruct (pptx.image_blob shape) as [blob|] eqn:Hblob; [|by intros [= <-]].
  destruct (_process_image (env s) "pptx" (ImgShape shape)
              (DocInt (slide_num + 1)) None_) as [im|e] eqn:Him; [|done].
  simpl. intros [= <-]. apply Forall_app. split; [done|].
  apply Forall_singleton. by eapply process_pptx_image.
Qed.

Lemma slides_images_unnumbered_witness :
  Forall (λ img, img !! "slide_number" = Some None_
                 ∧ img !! "page_number" = None)
    [ ({[ "image" := Bytes [x89; x50]; "image_format" := Str "png";
          "image_resolution" := Str "2x3"; "slide_number" := None_ ]} : dict) ].
Proof.
  apply (slides_images_unnumbered album
           {| pptx.slides := [ {| pptx.shapes := [linked_shape] |};
                               {| pptx.shapes := [picture] |} ];
              pptx.core_properties := ∅ |}).
  - split; reflexivity.
  - vm_compute. reflexivity.
Defined.

Lemma sizes_of_numbered {A} (size : A → nat) (k : nat) (xs : list A) :
  (λ np : Z * A, size np.2) <$> imap (λ i x, (Z.of_nat (k + i), x)) xs
  = size <$> xs.
Proof.
  revert k. induction xs as [|x xs IH]; intros k; csimpl; [done|].
  f_equal. rewrite <- (IH (S k)). f_equal. apply imap_ext.
  intros i y _. simpl. do 2 f_equal. lia.
Qed.

(** X2. Every image extracted from a Paged document carries the 1-based
    number of a page of the document, and there is one image per image
    reference of the pages. *)
Theorem paged_images_numbered (s : state) (doc : fitz.Document)
    (images : list dict) :
  paged s doc →
  fst (extract_images s) = Ok images →
  Forall (λ img, ∃ n, img !! "page_number" = Some (Int n)
                      ∧ 1 ≤ n ≤ Z.of_nat (length (fitz.doc_pages doc)))
         images
  ∧ length images
    = sum_list ((λ page, length (fitz.get_images page)) <$> fitz.doc_pages doc).
Proof.
  intros [Ht Hopen]. unfold extract_images, bind, gets, lift, open_fitz. simpl.
  rewrite Ht. case_decide; [|done]. simpl. rewrite Hopen. simpl. unfold range.
  rewrite (for_fold_range_pages doc
             (λ page page_num images,
                for_fold (fitz.get_images page)
                  (λ img images,
                     im <~ _process_image (env s) "pdf" (ImgRef img)
                             (DocFitz doc) (Int (page_num + 1)) ;;
                     Ok (images ++ [im]))
                  images)
             [] (fitz.doc_pages doc)) by done.
  intros Hrun. split.
  - revert Hrun. apply for_fold_invariant; [done|].
    intros [n page] acc r Hin Hacc. simpl.
    apply numbered_pages_bound in Hin as [Hn _].
    apply for_fold_invariant; [done|].
    intros img acc' r' _ Hacc'.
    destruct (_process_image (env s) "pdf" (ImgRef img) (DocFitz doc)
                (Int (n + 1))) as [im|e] eqn:Him; [|done].
    simpl. intros [= <-]. apply Forall_app. split; [done|].
    apply Forall_singleton. exists (n + 1).
    split; [by eapply process_pdf_image|lia].
  - apply (for_fold_length (λ np, length (fitz.get_images np.2))) in Hrun.
    + rewrite Hrun. simpl. apply f_equal.
      apply (sizes_of_numbered (λ page, length (fitz.get_images page)) 0).
    + intros [n page] acc r Hpage. simpl in *.
      apply (for_fold_length (λ _, 1%nat)) in Hpage.
      * rewrite Hpage, sum_list_fmap_const. lia.
      * intros img acc' r'.
        destruct (_process_image (env s) "pdf" (ImgRef img) (DocFitz doc)
                    (Int (n + 1))); [|done].
        simpl. intros [= <-]. rewrite length_app. simpl. lia.
Qed.

Lemma paged_images_numbered_witness :
  Forall (λ img : dict, ∃ n, img !! "page_number" = Some (Int n) ∧ 1 ≤ n ≤ 2)
    [ ({[ "image" := Bytes [xff; xd8]; "image_format" := Str "jpeg";
          "image_resolution" := Str "640x480"; "page_number" := Int 2 ]} : dict) ].
Proof.
  apply (paged_images_numbered scan scan_pages).
  - split; reflexivity.
  - vm_compute. reflexivity.
Defined.

Lemma count_image_rels (rels : list docx.Relationship) :
  sum_list ((λ rel, if contains "image" (docx.target_ref rel)
                    then 1%nat else 0%nat) <$> rels)
  = length (List.filter (λ rel, contains "image" (docx.target_ref rel)) rels).
Proof.
  induction rels as [|rel rels IH]; csimpl; [done|].
  destruct (contains "image" (docx.target_ref rel)); simpl; by rewrite IH.
Qed.

(** X3. The images of a Flowed document have no location field, neither
    page_number nor slide_number, and there is one image per relationship
    whose target reference contains the word image. *)
Theorem flowed_images_unlocated (s : state) (d : docx.Document)
    (images : list dict) :
  flowed s d →
  fst (extract_images s) = Ok images →
  Forall unlocated images ∧ length images = length (image_rels d).
Proof.
  intros [Ht Hf]. unfold extract_images, bind, gets, lift. simpl.
  rewrite Ht, Hf. repeat case_decide; try discriminate. simpl.
  intros Hrun. split.
  - revert Hrun. apply for_fold_invariant; [done|].
    intros rel acc r _ Hacc.
    destruct (contains "image" (docx.target_ref rel)); [|by intros [= <-]].
    destruct (docx.target_blob rel) as [blob|]; [|done].
    destruct (_process_image (env s) "docx" (ImgBlob blob) DocNone None_)
      as [im|e] eqn:Him; [|done].
    simpl. intros [= <-]. apply Forall_app. split; [done|].
    apply Forall_singleton. by eapply process_docx_image.
  - apply (for_fold_length
             (λ rel, if contains "image" (docx.target_ref rel)
                     then 1%nat else 0%nat)) in Hrun.
    + rewrite Hrun. simpl. apply count_image_rels.
    + intros rel acc r.
      destruct (contains "image" (docx.target_ref rel));
        [|intros [= <-]; lia].
      destruct (docx.target_blob rel) as [blob|]; [|done].
      destruct (_process_image (env s) "docx" (ImgBlob blob) DocNone None_);
        [|done].
      simpl. intros [= <-]. rewrite length_app. simpl. lia.
Qed.

Lemma flowed_images_unlocated_witness :
  Forall unlocated
    [ ({[ "image" := Bytes [x89; x50]; "image_format" := Str "png";
          "image_resolution" := Str "2x3" ]} : dict) ].
Proof.
  apply (flowed_images_unlocated letter letter_doc).
  - split; reflexivity.
  - vm_compute. reflexivity.
Defined.

(** X4. Image extraction from a Flowed document is all or nothing: if one
    image relationship has a blob that cannot be read or decoded, the call
    raises and returns no image at all, whatever the other images are. *)
Theorem flowed_images_abort (s : state) (d : docx.Document)
    (rel : docx.Relationship) :
  flowed s d →
  rel ∈ image_rels d →
  undecodable (env s) rel →
  ∃ e, extract_images s = (Raise e, s).
Proof.
  intros [Ht Hf] Hrel Hbad.
  unfold extract_images, bind, gets, lift. simpl.
  rewrite Ht, Hf. repeat case_decide; try discriminate; try done. simpl.
  unfold image_rels in Hrel.
  apply list_elem_of_In, filter_In in Hrel as [Hin Himage].
  apply list_elem_of_In in Hin.
  match goal with
  | |- ∃ e, (for_fold ?xs ?body ?acc, _) = _ =>
      destruct (for_fold_raises xs body acc rel Hin) as [e He]
  end.
  - intros acc. simpl. rewrite Himage. unfold undecodable in Hbad.
    destruct (docx.target_blob rel) as [blob|]; [|by eexists].
    unfold _process_image, decode. repeat case_decide; try done.
    rewrite Hbad. by eexists.
  - exists e. by rewrite He.
Qed.

Lemma flowed_images_abort_witness :
  ∃ e, extract_images letter_unreadable = (Raise e, letter_unreadable).
Proof.
  apply (flowed_images_abort letter_unreadable letter_doc
           {| docx.target_ref := "media/image1.png";
              docx.target_blob := Some [x89; x50] |}).
  - split; reflexivity.
  - unfold image_rels. simpl. constructor.
  - reflexivity.
Defined.

(** *** Links of a Flowed document *)

Lemma length_bind_le {A B} (f : A → list B) (xs : list A) :
  (∀ x, length (f x) ≤ 1)%nat → (length (xs ≫= f) ≤ length xs)%nat.
Proof.
  intros Hf. induction xs as [|x xs IH]; csimpl; [done|].
  rewrite length_app. specialize (Hf x). lia.
Qed.

Lemma length_bind_sum_le {A B} (f : A → list B) (size : A → nat)
    (xs : list A) :
  (∀ x, length (f x) ≤ size x)%nat →
  (length (xs ≫= f) ≤ sum_list (size <$> xs))%nat.
Proof.
  intros Hf. induction xs as [|x xs IH]; csimpl; [done|].
  rewrite length_app. specialize (Hf x). lia.
Qed.

(** X5. The links of a Flowed document are, paragraph by paragraph, one
    entry for each hyperlink element whose relationship id is present in the
    relationship table, with the relationship's target as url and the value
    None as page_number; an element without id or with an unknown id adds
    nothing, so there are at most as many links as hyperlink elements. *)
Theorem flowed_links_extracted (s : state) (d : docx.Document) :
  flowed s d →
  extract_links s = (Ok (flowed_links d), s)
  ∧ Forall (λ link, link !! "page_number" = Some None_) (flowed_links d)
  ∧ (length (flowed_links d)
     ≤ sum_list ((λ para, length (docx.hyperlinks para))
                 <$> docx.paragraphs d))%nat.
Proof.
  intros [Ht Hf]. split; [|split].
  - unfold extract_links, bind, gets, lift, ret. simpl.
    rewrite Ht, Hf. repeat case_decide; try discriminate; try done. simpl.
    do 2 f_equal. unfold flowed_links.
    rewrite (fold_left_append _
               (λ para, docx.hyperlinks para ≫= λ rId : option string,
                  match rId ≫= docx.rels_lookup (docx.part_rels d) with
                  | Some rel => [ ({[ "url" := Str (docx.target_ref rel);
                                      "page_number" := None_ ]} : dict) ]
                  | None => []
                  end)); [done|].
    intros acc para. apply fold_left_append. intros acc' [rId|]; simpl.
    + by destruct (docx.rels_lookup (docx.part_rels d) rId);
        [|rewrite app_nil_r].
    + by rewrite app_nil_r.
  - unfold flowed_links. apply Forall_bind, Forall_forall. intros para _.
    apply Forall_bind, Forall_forall. intros rId _. unfold compose.
    case_match; [|constructor].
    apply Forall_singleton. by simplify_map_eq.
  - unfold flowed_links. apply length_bind_sum_le. intros para.
    apply length_bind_le. intros rId. case_match; simpl; lia.
Qed.

Lemma flowed_links_extracted_witness :
  fst (extract_links letter)
  = Ok [ {[ "url" := Str "https://z"; "page_number" := None_ ]} ].
Proof.
  rewrite (proj1 (flowed_links_extracted letter letter_doc
                    (conj eq_refl eq_refl))).
  reflexivity.
Defined.

(** *** Texts of Paged and Slides documents *)

Lemma length_append (a b : string) :
  String.length (a +:+ b) = (String.length a + String.length b)%nat.
Proof. induction a as [|c a IH]; simpl; [done|]. by rewrite IH. Qed.

(** A joined text has the length of its items plus one separator between
    each two. *)
Lemma length_joined (sep : string) (items : list string) :
  String.length (join sep items)
  = (total_length items + String.length sep * (length items - 1))%nat.
Proof.
  unfold join, total_length.
  induction items as [|x items IH]; csimpl; [lia|].
  destruct items as [|y items]; [csimpl; lia|].
  rewrite !length_append, IH. csimpl. lia.
Qed.

(** X6. The text of a Paged document is the text layers of its pages put
    end to end with nothing between them, a page without text layer adding
    nothing: its length is the sum of the lengths of the page texts. The
    metadata are read from the reader's document information. *)
Theorem paged_text_concatenated (s : state) (r : PyPDF2.PdfReader) :
  paged_reader s r →
  ∃ text,
    extract_text s = (Ok (text, _extract_metadata (PyPDF2.metadata r)), s)
    ∧ text = String.concat "" (page_text <$> PyPDF2.pages r)
    ∧ String.length text = total_length (page_text <$> PyPDF2.pages r).
Proof.
  intros [Ht Hf]. eexists. split; [|split; [reflexivity|]].
  - unfold extract_text, bind, gets, lift, ret. simpl.
    rewrite Ht, Hf. case_decide; [|done]. simpl. do 3 f_equal.
    unfold join. f_equal. apply list_fmap_ext. intros i page _.
    unfold page_text. destruct (PyPDF2.extract_text page) as [t|]; [|done].
    by destruct (String.eqb_spec t "").
  - pose proof (length_joined "" (page_text <$> PyPDF2.pages r)) as Hlen.
    unfold join in Hlen. rewrite Hlen. simpl. lia.
Qed.

Lemma paged_text_concatenated_witness :
  ∃ text, fst (extract_text scan) = Ok (text, _extract_metadata None)
          ∧ String.length text = 3%nat.
Proof.
  destruct (paged_text_concatenated scan
              {| PyPDF2.pages := [ {| PyPDF2.extract_text := Some "ab" |};
                                   {| PyPDF2.extract_text := None |};
                                   {| PyPDF2.extract_text := Some "c" |} ];
                 PyPDF2.metadata := None |} (conj eq_refl eq_refl))
    as (text & Hrun & _ & Hlen).
  exists text. rewrite Hrun. split; [reflexivity|exact Hlen].
Defined.

(** X7. The text of a Slides document is the texts of the shapes that have
    one, in slide and shape order, with one newline between each two; a
    shape without text leaves no line, not even an empty one. *)
Theorem slides_text_joined (s : state) (p : pptx.Presentation) :
  slides_doc s p →
  extract_text s
  = (Ok (join nl (shape_texts p),
         _extract_metadata (Some (pptx.core_properties p))), s)
  ∧ String.length (join nl (shape_texts p))
    = (total_length (shape_texts p) + (length (shape_texts p) - 1))%nat.
Proof.
  intros [Ht Hf]. split.
  - unfold extract_text, bind, gets, lift, ret. simpl.
    rewrite Ht, Hf. repeat case_decide; try discriminate; done.
  - rewrite length_joined. simpl. lia.
Qed.

Lemma slides_text_joined_witness :
  fst (extract_text album) = Ok ("see here", _extract_metadata (Some ∅)).
Proof.
  rewrite (proj1 (slides_text_joined album _ (conj eq_refl eq_refl))).
  reflexivity.
Defined.

End ExtractionMore.

(** ** The relational sink: what is sent, and under which names *)

Section SinkTraces.
Import Py DataExtractor MySQLStorage Spec Examples.
Local Open Scope py_scope.
Context (D : driver).

Lemma sends_only_bind {A B} (wanted : stmt → Prop) (m : M (proc D) A)
    (k : A → M (proc D) B) :
  sends_only wanted m → (∀ a, sends_only wanted (k a)) →
  sends_only wanted (bind m k).
Proof.
  intros Hm Hk p. unfold bind. destruct (Hm p) as (l & Hl & Hwanted).
  destruct (m p) as [[a|e] p1]; simpl in *; [|by exists l].
  destruct (Hk a p1) as (l' & Hl' & Hwanted').
  exists (l ++ l'). rewrite Hl', Hl, app_assoc. split; [done|].
  by apply Forall_app.
Qed.

Lemma sends_only_for_each {A} (wanted : stmt → Prop) (xs : list A)
    (body : A → M (proc D) unit) :
  (∀ x, sends_only wanted (body x)) → sends_only wanted (for_each xs body).
Proof.
  intros Hbody. induction xs as [|x xs IH]; simpl.
  - intros p. exists []. by rewrite app_nil_r.
  - apply sends_only_bind; [apply Hbody|by intros _].
Qed.

Lemma sends_only_try {A} (wanted : stmt → Prop) (body : M (proc D) A)
    (handler : string → M (proc D) A) :
  sends_only wanted body → (∀ err, sends_only wanted (handler err)) →
  sends_only wanted (try_except_mysql body handler).
Proof.
  intros Hb Hh p. unfold try_except_mysql.
  destruct (Hb p) as (l & Hl & Hwanted).
  destruct (body p) as [[a|[]] p1]; simpl in *; try by exists l.
  destruct (Hh msg p1) as (l' & Hl' & Hwanted').
  exists (l ++ l'). rewrite Hl', Hl, app_assoc. split; [done|].
  by apply Forall_app.
Qed.

Lemma sends_only_execute (wanted : stmt → Prop) (q : stmt)
    (params : list value) :
  wanted q → sends_only wanted (cursor_execute D q params).
Proof.
  intros Hq p. unfold cursor_execute.
  destruct (execute D q params (server p)) as [[err|] d]; simpl;
    exists [(q, params)]; by repeat constructor.
Qed.

(** A method that sends nothing. *)
Lemma sends_only_silent {A} (wanted : stmt → Prop) (m : M (proc D) A) :
  (∀ p, sent (snd (m p)) = sent p) → sends_only wanted m.
Proof. intros Hm p. exists []. by rewrite app_nil_r, Hm. Qed.

Lemma fetchone_silent (p : proc D) :
  sent (snd (cursor_fetchone D p)) = sent p.
Proof.
  unfold cursor_fetchone. by destruct (fetchone D (server p)) as [[err|row] d].
Qed.

Lemma fetchall_silent (p : proc D) :
  sent (snd (cursor_fetchall D p)) = sent p.
Proof.
  unfold cursor_fetchall.
  by destruct (fetchall D (server p)) as [[err|found] d].
Qed.

Lemma commit_silent (p : proc D) : sent (snd (conn_commit D p)) = sent p.
Proof.
  unfold conn_commit. by destruct (commit D (server p)) as [[err|] d].
Qed.

Lemma insert_row_sends (name : string) (cols : list string)
    (row : list value) :
  sends_only (follows name) (insert_row D name cols row).
Proof.
  apply sends_only_try.
  - apply sends_only_execute. by split.
  - intros err. by apply sends_only_silent.
Qed.

(** Creating or extending a table starts by asking for its name, and goes
    on with statements on that table only. *)
Lemma ensure_table_trace (name : string) (cols : list string) (p : proc D) :
  ∃ l, sent (snd (ensure_table D name cols p))
       = sent p ++ (ShowTablesLike name, []) :: l
       ∧ Forall (λ qp, follows name (fst qp)) l.
Proof.
  unfold ensure_table, bind at 1, cursor_execute at 1.
  destruct (execute D (ShowTablesLike name) [] (server p)) as [[err|] d];
    simpl; [by exists []|].
  match goal with
  | |- ∃ l, sent (snd (?rest ?q)) = _ ∧ _ =>
      assert (sends_only (follows name) rest) as Hrest
  end.
  { apply sends_only_bind;
      [apply sends_only_silent, fetchone_silent|intros result].
    destruct (row_found result).
    - apply sends_only_bind; [apply sends_only_execute; by split|intros _].
      apply sends_only_bind;
        [apply sends_only_silent, fetchall_silent|intros found].
      apply sends_only_for_each. intros col. case_decide.
      + by apply sends_only_silent.
      + apply sends_only_execute. by split.
    - apply sends_only_execute. by split. }
  match goal with
  | |- ∃ l, sent (snd (?rest ?q)) = _ ∧ _ =>
      destruct (Hrest q) as (l & Hl & Hwanted)
  end.
  exists l. rewrite Hl. simpl. by rewrite <- app_assoc.
Qed.

Lemma table_body_trace (cols : list string) (data_rows : list (list value))
    (p : proc D) :
  ∃ l, sent (snd (table_body D cols data_rows p))
       = sent p ++ (ShowTablesLike (generated_name (table_name p)), []) :: l
       ∧ Forall (λ qp, follows (generated_name (table_name p)) (fst qp)) l.
Proof.
  unfold table_body, bind at 1, gets at 1. simpl.
  unfold bind at 1, modify at 1. simpl.
  unfold bind at 1, try_except_mysql at 1, bind at 1.
  destruct (ensure_table_trace (generated_name (table_name p)) cols
              (set_table_name D (table_name p + 1) p))
    as (l1 & Hl1 & Hwanted1).
  destruct (ensure_table D (generated_name (table_name p)) cols
              (set_table_name D (table_name p + 1) p)) as [[[]|e] p1];
    simpl in *.
  - destruct (sends_only_for_each (follows (generated_name (table_name p)))
                data_rows
                (insert_row D (generated_name (table_name p)) cols)
                (λ row, insert_row_sends _ cols row) p1)
      as (l2 & Hl2 & Hwanted2).
    exists (l1 ++ l2). rewrite Hl2, Hl1. split.
    + by rewrite <- app_assoc.
    + by apply Forall_app.
  - destruct e; simpl; by exists l1.
Qed.

(** One iteration either leaves the process as it is, or takes one counter
    value, asks for the table of that name and goes on with that table. *)
Lemma save_table_trace (table : list (list value)) (p : proc D) :
  snd (save_table D table p) = p
  ∨ table_name (snd (save_table D table p)) = table_name p + 1
    ∧ ∃ l, sent (snd (save_table D table p))
           = sent p ++ (ShowTablesLike (generated_name (table_name p)), []) :: l
           ∧ Forall (λ qp, follows (generated_name (table_name p)) (fst qp)) l.
Proof.
  destruct table as [|header data_rows]; [by left|].
  rewrite save_table_rows.
  destruct (sanitize_columns header) as [cols|e]; [|by left].
  right. split; [apply table_body_counter|apply table_body_trace].
Qed.

(** *** Names *)

Lemma generated_names_app (start : Z) (a b : nat) :
  generated_names start (a + b)
  = generated_names start a ++ generated_names (start + Z.of_nat a) b.
Proof.
  revert start. induction a as [|a IH]; intros start; simpl.
  - by rewrite Z.add_0_r.
  - rewrite IH. do 3 f_equal. lia.
Qed.

Lemma generated_names_elem (start : Z) (count : nat) (name : string) :
  name ∈ generated_names start count →
  ∃ n, start ≤ n < start + Z.of_nat count ∧ name = generated_name n.
Proof.
  revert start. induction count as [|count IH]; intros start; simpl.
  - by intros ?%elem_of_nil.
  - intros [->|Hin]%elem_of_cons.
    + exists start. split; [lia|done].
    + destruct (IH _ Hin) as (n & Hn & ->). exists n. split; [lia|done].
Qed.

(** Successive counter values give names that are all different. *)
Lemma generated_names_NoDup (start : Z) (count : nat) :
  NoDup (generated_names start count).
Proof.
  revert start. induction count as [|count IH]; intros start; simpl;
    constructor; [|apply IH].
  intros (n & Hn & Heq)%generated_names_elem.
  apply generated_name_inj in Heq. lia.
Qed.

Lemma probes_app (l l' : list (stmt * list value)) :
  probes (l ++ l') = probes l ++ probes l'.
Proof. unfold probes. apply bind_app. Qed.

Lemma probes_follows (name : string) (l : list (stmt * list value)) :
  Forall (λ qp, follows name (fst qp)) l → probes l = [].
Proof.
  induction 1 as [|[q params] l [_ Hq] _ IH]; [done|].
  unfold probes in *. rewrite bind_cons, IH, app_nil_r.
  destruct q; try done. by destruct (Hq table_name0).
Qed.

Lemma named_from_counter_refl (p : proc D) : named_from_counter p p.
Proof.
  exists []. rewrite app_nil_r, Z.sub_diag. repeat split; [lia|done].
Qed.

Lemma named_from_counter_trans (p p2 p1 : proc D) :
  named_from_counter p p2 → named_from_counter p2 p1 →
  named_from_counter p p1.
Proof.
  intros (l & Hl & Hle & Hprobes & Hall) (l' & Hl' & Hle' & Hprobes' & Hall').
  exists (l ++ l'). rewrite Hl', Hl, app_assoc. repeat split; [lia| |].
  - rewrite probes_app, Hprobes, Hprobes'.
    replace (Z.to_nat (table_name p1 - table_name p))
      with (Z.to_nat (table_name p2 - table_name p)
            + Z.to_nat (table_name p1 - table_name p2))%nat by lia.
    rewrite generated_names_app. do 2 f_equal. lia.
  - apply Forall_app. split.
    + eapply Forall_impl; [exact Hall|].
      intros qp (n & Hn & Hq). exists n. split; [lia|done].
    + eapply Forall_impl; [exact Hall'|].
      intros qp (n & Hn & Hq). exists n. split; [lia|done].
Qed.

Lemma named_from_counter_table (table : list (list value)) (p : proc D) :
  named_from_counter p (snd (save_table D table p)).
Proof.
  destruct (save_table_trace table p) as [->|(Hcounter & l & Hl & Hall)];
    [apply named_from_counter_refl|].
  exists ((ShowTablesLike (generated_name (table_name p)), []) :: l).
  rewrite Hcounter. split; [done|]. split; [lia|]. split.
  - replace (Z.to_nat (table_name p + 1 - table_name p)) with 1%nat by lia.
    change (probes ((ShowTablesLike (generated_name (table_name p)), []) :: l))
      with (generated_name (table_name p) :: probes l).
    by rewrite (probes_follows _ _ Hall).
  - constructor.
    + exists (table_name p). split; [lia|done].
    + eapply Forall_impl; [exact Hall|].
      intros qp [Hq _]. exists (table_name p). split; [lia|done].
Qed.

(** X8. Whatever the server answers and however the traversal ends, the
    statements the table loop sends all address generated tables
    extracted_table_N where N is a counter value taken during this loop: at
    least the value at its start and below the value at its end.  The loop
    asks for each of these names once, in counter order, so no two tables
    handled by one process share a name. *)
Theorem tables_named_from_counter (tables : list (list (list value)))
    (p : proc D) :
  named_from_counter p (snd (save_tables D tables p))
  ∧ NoDup (generated_names (table_name p)
             (Z.to_nat (table_name (snd (save_tables D tables p))
                        - table_name p))).
Proof.
  split; [|apply generated_names_NoDup].
  revert p. induction tables as [|table tables IH]; intros p.
  - apply named_from_counter_refl.
  - rewrite save_tables_cons.
    pose proof (named_from_counter_table table p) as Hone.
    destruct (save_table D table p) as [[[]|e] p2]; simpl in *; [|done].
    eapply named_from_counter_trans; [exact Hone|apply IH].
Qed.

End SinkTraces.

(** ** The relational sink: the whole of [save] *)

Section SinkSave.
Import Py DataExtractor MySQLStorage Spec Examples.
Local Open Scope py_scope.
Context (D : driver).

(** *** The extractor raises no connector error *)

Lemma for_fold_within {A B} (allowed : exn → Prop) (xs : list A)
    (body : A → B → res B) (acc : B) :
  (∀ x acc, raises_within allowed (body x acc)) →
  raises_within allowed (for_fold xs body acc).
Proof.
  intros Hbody. revert acc. induction xs as [|x xs IH]; intros acc; [done|].
  simpl. specialize (Hbody x acc).
  destruct (body x acc) as [acc'|e]; simpl in *; [apply IH|done].
Qed.

Lemma process_image_not_mysql (w : world) (kind : string) (img : image_arg)
    (doc : doc_arg) (n : value) :
  raises_within (λ e, ¬ is_mysql e) (_process_image w kind img doc n).
Proof.
  unfold _process_image, decode. repeat case_decide; simpl; try tauto.
  - destruct doc; try (simpl; tauto). destruct img; try (simpl; tauto).
    destruct (fitz.extract_image d (fitz.xref r)); simpl; tauto.
  - destruct img; try (simpl; tauto).
    destruct (Image_open w b); simpl; tauto.
  - destruct img; try (simpl; tauto).
    destruct (pptx.image_blob s) as [blob|]; [|simpl; tauto].
    destruct (Image_open w blob); simpl; tauto.
Qed.

Lemma extract_text_not_mysql (s : state) :
  raises_within (λ e, ¬ is_mysql e) (fst (extract_text s)).
Proof.
  unfold extract_text, bind, gets, lift, ret, raise, unsupported. simpl.
  repeat case_decide; destruct (file (self s)); simpl; tauto.
Qed.

Lemma extract_links_not_mysql (s : state) :
  raises_within (λ e, ¬ is_mysql e) (fst (extract_links s)).
Proof.
  unfold extract_links, bind, gets, lift, ret, raise, unsupported, open_fitz.
  simpl. repeat case_decide; simpl; try tauto.
  - destruct (fitz_open (env s) (file_path (self s))) as [doc|]; simpl;
      [|tauto].
    apply for_fold_within. intros page_num acc. unfold load_page.
    destruct (fitz.doc_pages doc !! Z.to_nat page_num); simpl; tauto.
  - destruct (file (self s)); simpl; tauto.
  - destruct (file (self s)); simpl; tauto.
Qed.

Lemma extract_images_not_mysql (s : state) :
  raises_within (λ e, ¬ is_mysql e) (fst (extract_images s)).
Proof.
  unfold extract_images, bind, gets, lift, ret, raise, unsupported, open_fitz.
  simpl. repeat case_decide; simpl; try tauto.
  - destruct (fitz_open (env s) (file_path (self s))) as [doc|]; simpl;
      [|tauto].
    apply for_fold_within. intros page_num acc. unfold load_page.
    destruct (fitz.doc_pages doc !! Z.to_nat page_num); simpl; [|tauto].
    apply for_fold_within. intros img acc'.
    pose proof (process_image_not_mysql (env s) "pdf" (ImgRef img)
                  (DocFitz doc) (Int (page_num + 1))) as Him.
    destruct (_process_image (env s) "pdf" (ImgRef img) (DocFitz doc)
                (Int (page_num + 1))); simpl in *; tauto.
  - destruct (file (self s)); simpl; try tauto.
    apply for_fold_within. intros rel acc.
    destruct (contains "image" (docx.target_ref rel)); simpl; [|tauto].
    destruct (docx.target_blob rel) as [blob|]; simpl; [|tauto].
    pose proof (process_image_not_mysql (env s) "docx" (ImgBlob blob)
                  DocNone None_) as Him.
    destruct (_process_image (env s) "docx" (ImgBlob blob) DocNone None_);
      simpl in *; tauto.
  - destruct (file (self s)); simpl; try tauto.
    apply for_fold_within. intros [slide_num slide] acc.
    apply for_fold_within. intros shape acc'.
    destruct (pptx.image_blob shape); simpl; [|tauto].
    pose proof (process_image_not_mysql (env s) "pptx" (ImgShape shape)
                  (DocInt (slide_num + 1)) None_) as Him.
    destruct (_process_image (env s) "pptx" (ImgShape shape)
                (DocInt (slide_num + 1)) None_); simpl in *; tauto.
Qed.

Lemma extract_tables_not_mysql (s : state) :
  raises_within (λ e, ¬ is_mysql e) (fst (extract_tables s)).
Proof.
  unfold extract_tables, bind, gets, lift, ret, raise, unsupported,
    open_pdfplumber.
  simpl. repeat case_decide; simpl; try tauto.
  - destruct (pdfplumber_open (env s) (file_path (self s))); simpl; tauto.
  - destruct (file (self s)); simpl; tauto.
  - destruct (file (self s)); simpl; tauto.
Qed.

(** *** Where a connector error can come from *)

Lemma escapes_from_bind {A B} (culprits : stmt → Prop) (m : M (proc D) A)
    (k : A → M (proc D) B) :
  escapes_from culprits m → (∀ a, escapes_from culprits (k a)) →
  escapes_from culprits (bind m k).
Proof.
  intros Hm Hk p. unfold bind. specialize (Hm p).
  destruct (m p) as [[a|e] p1]; [apply Hk|done].
Qed.

Lemma escapes_from_for_each {A} (culprits : stmt → Prop) (xs : list A)
    (body : A → M (proc D) unit) :
  (∀ x, escapes_from culprits (body x)) →
  escapes_from culprits (for_each xs body).
Proof.
  intros Hbody. induction xs as [|x xs IH]; simpl; [done|].
  apply escapes_from_bind; [apply Hbody|by intros _].
Qed.

Lemma escapes_from_execute (culprits : stmt → Prop) (q : stmt)
    (params : list value) :
  culprits q → escapes_from culprits (cursor_execute D q params).
Proof.
  intros Hq p. unfold cursor_execute.
  destruct (execute D q params (server p)) as [[err|] d]; [|done].
  by exists (sent p), q, params.
Qed.

(** A method that raises no connector error lets none escape. *)
Lemma escapes_from_contained {A} (culprits : stmt → Prop) (m : M (proc D) A) :
  raises_only (λ e, ¬ is_mysql e) m → escapes_from culprits m.
Proof.
  intros Hm p. specialize (Hm p).
  destruct (m p) as [[a|[]] p1]; simpl in *; tauto.
Qed.

Lemma escapes_from_extractor {A} (culprits : stmt → Prop)
    (m : M DataExtractor.state A) :
  (∀ s, raises_within (λ e, ¬ is_mysql e) (fst (m s))) →
  escapes_from culprits (call_extractor D m).
Proof.
  intros Hm. apply escapes_from_contained. intros p. unfold call_extractor.
  specialize (Hm (extractor p)). by destruct (m (extractor p)).
Qed.

Lemma escapes_from_lift {A} (culprits : stmt → Prop) (r : res A) :
  raises_within (λ e, ¬ is_mysql e) r →
  escapes_from culprits (lift r : M (proc D) A).
Proof. intros Hr p. unfold lift. destruct r as [a|[]]; simpl in *; tauto. Qed.

Lemma subscript_not_mysql (d : dict) (key : string) :
  raises_within (λ e, ¬ is_mysql e) (subscript d key).
Proof. unfold subscript. destruct (d !! key); simpl; tauto. Qed.

Lemma to_bytes_not_mysql (v : value) :
  raises_within (λ e, ¬ is_mysql e) (to_bytes v).
Proof. destruct v; simpl; try tauto. case_decide; simpl; tauto. Qed.

(** X9. When the commit cannot fail, a connector error leaves [save] only
    right after an insertion into one of the three fixed tables (text, link
    or image): these insertions are outside any [try], unlike the statements
    of the table loop. *)
Theorem connector_errors_from_fixed_inserts (p p1 : proc D) (err : string) :
  (∀ d, fst (commit D d) = None) →
  save D p = (Raise (MySQLError err), p1) →
  ∃ pre q params, sent p1 = pre ++ [(q, params)] ∧ fixed_insert q.
Proof.
  intros Hcommit Hsave.
  assert (escapes_from fixed_insert (save D)) as Hfrom.
  { unfold save.
    apply escapes_from_bind;
      [apply escapes_from_extractor, extract_text_not_mysql|intros extracted].
    apply escapes_from_bind.
    { destruct (truthy (Str extracted.1)); [|done].
      apply escapes_from_execute. by left. }
    intros _. apply escapes_from_bind;
      [apply escapes_from_extractor, extract_links_not_mysql|intros links].
    apply escapes_from_bind.
    { apply escapes_from_for_each. intros link.
      apply escapes_from_bind;
        [apply escapes_from_lift, subscript_not_mysql|intros url].
      apply escapes_from_execute. right. by left. }
    intros _. apply escapes_from_bind;
      [apply escapes_from_extractor, extract_images_not_mysql|intros images].
    apply escapes_from_bind.
    { apply escapes_from_for_each. intros img.
      apply escapes_from_bind;
        [apply escapes_from_lift, subscript_not_mysql|intros image].
      apply escapes_from_bind;
        [apply escapes_from_lift, to_bytes_not_mysql|intros img_data].
      apply escapes_from_bind;
        [apply escapes_from_lift, subscript_not_mysql|intros image_format].
      apply escapes_from_bind;
        [apply escapes_from_lift, subscript_not_mysql|intros resolution].
      apply escapes_from_execute. right. by right. }
    intros _. apply escapes_from_bind;
      [apply escapes_from_extractor, extract_tables_not_mysql|intros tables].
    apply escapes_from_bind;
      [apply escapes_from_contained, save_tables_contains|intros _].
    apply escapes_from_bind; [|done].
    intros q. unfold conn_commit. specialize (Hcommit (server q)).
    destruct (commit D (server q)) as [[e|] d]; simpl in *; done. }
  specialize (Hfrom p). by rewrite Hsave in Hfrom.
Qed.

End SinkSave.

Lemma connector_errors_from_fixed_inserts_witness :
  ∃ pre q params,
    MySQLStorage.sent
      (snd (MySQLStorage.save MiniServer.offline
              (Examples.cut_off Examples.hello_world)))
    = pre ++ [(q, params)]
    ∧ Spec.fixed_insert q.
Proof.
  apply (connector_errors_from_fixed_inserts MiniServer.offline
           (Examples.cut_off Examples.hello_world) _
           "MySQL Connection not available").
  - reflexivity.
  - vm_compute. reflexivity.
Defined.

(** ** What the extractor hands to the sinks *)

Section Interface.
Import Py DataExtractor MySQLStorage Spec Examples.
Local Open Scope py_scope.

Lemma fold_left_invariant {A B} (P : B → Prop) (step : B → A → B)
    (xs : list A) (acc : B) :
  P acc → (∀ acc x, P acc → P (step acc x)) → P (fold_left step xs acc).
Proof.
  intros Hacc Hstep. revert acc Hacc.
  induction xs as [|x xs IH]; intros acc Hacc; simpl; [done|].
  apply IH, Hstep, Hacc.
Qed.

Lemma Forall_snoc {A} (P : A → Prop) (xs : list A) (x : A) :
  Forall P xs → P x → Forall P (xs ++ [x]).
Proof. intros Hxs Hx. apply Forall_app. split; [done|by constructor]. Qed.

Lemma slide_link_shaped (a : string) (n : Z) :
  link_shaped {[ "url" := Str a; "slide_number" := Int n ]}.
Proof. split; [|right]; by simplify_map_eq. Qed.

Lemma extracted_links_shaped (s : state) (links : list dict) :
  fst (extract_links s) = Ok links → Forall link_shaped links.
Proof.
  unfold extract_links, bind, gets, lift, ret, raise, open_fitz. simpl.
  repeat case_decide; simpl; try done.
  - destruct (fitz_open (env s) (file_path (self s))) as [doc|]; [|done].
    simpl. apply for_fold_invariant; [done|].
    intros page_num acc r _ Hacc.
    destruct (load_page doc page_num) as [page|]; [|done]. simpl.
    intros [= <-]. apply Forall_app. split; [done|].
    unfold _extract_pdf_link. apply Forall_fmap, Forall_forall.
    intros link _. split; [|left]; by simplify_map_eq.
  - destruct (file (self s)) as [|d| |]; try done. simpl. intros [= <-].
    apply fold_left_invariant; [done|]. intros acc para Hacc.
    apply fold_left_invariant; [done|]. intros acc' [rId|] Hacc'; [|done].
    destruct (docx.rels_lookup (docx.part_rels d) rId); [|done].
    apply Forall_snoc; [done|]. split; [|left]; by simplify_map_eq.
  - destruct (file (self s)) as [| |p|]; try done. simpl. intros [= <-].
    apply fold_left_invariant; [done|]. intros acc [slide_num slide] Hacc.
    apply fold_left_invariant; [done|]. intros acc' shape Hacc'.
    assert (Forall link_shaped
              match link_address (pptx.hyperlink shape) with
              | Some a => acc' ++ [ {[ "url" := Str a;
                                       "slide_number" := Int (slide_num + 1) ]} ]
              | None => acc'
              end) as Hown.
    { destruct (link_address (pptx.hyperlink shape)); [|done].
      apply Forall_snoc; [done|apply slide_link_shaped]. }
    destruct (pptx.text_frame shape) as [tf|]; [|done].
    apply fold_left_invariant; [done|]. intros acc2 paragraph Hacc2.
    apply fold_left_invariant; [done|]. intros acc3 run Hacc3.
    destruct (link_address (pptx.run_hyperlink run)); [|done].
    apply Forall_snoc; [done|apply slide_link_shaped].
Qed.

(** X10. Whatever the kind of the document, every link that extract_links
    returns has a url and a location field (page_number or slide_number,
    possibly holding None), so the lookups of the two sinks on a link never
    miss a key. *)
Theorem links_well_formed (s : state) (links : list dict) :
  fst (extract_links s) = Ok links → Forall link_shaped links.
Proof. apply extracted_links_shaped. Qed.

Lemma links_well_formed_witness :
  Forall link_shaped
    [ ({[ "url" := Str "https://z"; "page_number" := None_ ]} : dict) ].
Proof.
  apply (links_well_formed letter). vm_compute. reflexivity.
Defined.

Lemma process_image_shaped (w : world) (kind : string) (img : image_arg)
    (doc : doc_arg) (n : value) (im : dict) :
  _process_image w kind img doc n = Ok im → image_shaped im.
Proof.
  unfold _process_image, decode. repeat case_decide; try done.
  - destruct doc; try done. destruct img; try done.
    destruct (fitz.extract_image d (fitz.xref r)); [|done].
    intros [= <-]. repeat split; eexists; by simplify_map_eq.
  - destruct img; try done. destruct (Image_open w b); [|done]. simpl.
    intros [= <-]. repeat split; eexists; by simplify_map_eq.
  - destruct img; try done.
    destruct (pptx.image_blob s) as [blob|]; [|done].
    destruct (Image_open w blob); [|done]. simpl.
    intros [= <-]. repeat split; eexists; by simplify_map_eq.
Qed.

Lemma extracted_images_shaped (s : state) (images : list dict) :
  fst (extract_images s) = Ok images → Forall image_shaped images.
Proof.
  unfold extract_images, bind, gets, lift, ret, raise, open_fitz. simpl.
  repeat case_decide; simpl; try done.
  - destruct (fitz_open (env s) (file_path (self s))) as [doc|]; [|done].
    simpl. apply for_fold_invariant; [done|].
    intros page_num acc r _ Hacc.
    destruct (load_page doc page_num) as [page|]; [|done]. simpl.
    apply for_fold_invariant; [done|]. intros img acc' r' _ Hacc'.
    destruct (_process_image (env s) "pdf" (ImgRef img) (DocFitz doc)
                (Int (page_num + 1))) as [im|] eqn:Him; [|done].
    simpl. intros [= <-]. apply Forall_snoc; [done|].
    by eapply process_image_shaped.
  - destruct (file (self s)) as [|d| |]; try done. simpl.
    apply for_fold_invariant; [done|]. intros rel acc r _ Hacc.
    destruct (contains "image" (docx.target_ref rel)); [|by intros [= <-]].
    destruct (docx.target_blob rel) as [blob|]; [|done].
    destruct (_process_image (env s) "docx" (ImgBlob blob) DocNone None_)
      as [im|] eqn:Him; [|done].
    simpl. intros [= <-]. apply Forall_snoc; [done|].
    by eapply process_image_shaped.
  - destruct (file (self s)) as [| |p|]; try done. simpl.
    apply for_fold_invariant; [done|]. intros [slide_num slide] acc r _ Hacc.
    apply for_fold_invariant; [done|]. intros shape acc' r' _ Hacc'.
    destruct (pptx.image_blob shape); [|by intros [= <-]].
    destruct (_process_image (env s) "pptx" (ImgShape shape)
                (DocInt (slide_num + 1)) None_) as [im|] eqn:Him; [|done].
    simpl. intros [= <-]. apply Forall_snoc; [done|].
    by eapply process_image_shaped.
Qed.

(** X11. Whatever the kind of the document, every image that
    extract_images returns has binary content under image and strings under
    image_format and image_resolution, so the lookups of the two sinks on an
    image never miss a key and the conversion to bytes succeeds. *)
Theorem images_well_formed (s : state) (images : list dict) :
  fst (extract_images s) = Ok images → Forall image_shaped images.
Proof. apply extracted_images_shaped. Qed.

Lemma images_well_formed_witness :
  Forall image_shaped
    [ ({[ "image" := Bytes [x89; x50]; "image_format" := Str "png";
          "image_resolution" := Str "2x3"; "slide_number" := None_ ]} : dict) ].
Proof.
  apply (images_well_formed album). vm_compute. reflexivity.
Defined.

End Interface.

(** ** Column names *)

Section Columns.
Import Py MySQLStorage Spec.

Lemma replace_removes (old new : ascii) (s : string) :
  old ≠ new → has_char old (replace old new s) = false.
Proof.
  intros Hne. induction s as [|c s IH]; simpl; [done|]. rewrite IH.
  destruct (Ascii.eqb_spec c old) as [->|Hc].
  - by destruct (Ascii.eqb_spec new old) as [->|].
  - by destruct (Ascii.eqb_spec c old).
Qed.

Lemma replace_keeps_absent (c old new : ascii) (s : string) :
  c ≠ new → has_char c s = false → has_char c (replace old new s) = false.
Proof.
  intros Hne. induction s as [|c' s IH]; simpl; [done|].
  intros [Hc Hs]%orb_false_elim. rewrite (IH Hs), orb_false_r.
  destruct (Ascii.eqb c' old); [|done].
  by destruct (Ascii.eqb_spec new c) as [->|].
Qed.

Lemma replace_absent (old new : ascii) (s : string) :
  has_char old s = false → replace old new s = s.
Proof.
  induction s as [|c s IH]; simpl; [done|].
  intros [Hc Hs]%orb_false_elim. by rewrite Hc, (IH Hs).
Qed.

Lemma replace_length (old new : ascii) (s : string) :
  String.length (replace old new s) = String.length s.
Proof. induction s as [|c s IH]; simpl; [done|]. by rewrite IH. Qed.

Lemma replace_no_lead (old new : ascii) (s : string) :
  isspace new = false → starts_with_space s = false →
  starts_with_space (replace old new s) = false.
Proof.
  intros Hnew. destruct s as [|c s]; simpl; [done|].
  by destruct (Ascii.eqb c old).
Qed.

Lemma replace_no_trail (old new : ascii) (s : string) :
  isspace new = false → ends_with_space s = false →
  ends_with_space (replace old new s) = false.
Proof.
  intros Hnew. induction s as [|c s IH]; simpl; [done|].
  destruct s as [|c' s]; simpl in *.
  - by destruct (Ascii.eqb c old).
  - exact IH.
Qed.

(** X12. A sanitized column name contains no space, no hyphen and no
    period, has the length of the stripped header cell, and has no
    whitespace at either end; sanitizing it again changes nothing. *)
Theorem sanitize_clean (col : string) :
  has_char " " (sanitize col) = false
  ∧ has_char "-" (sanitize col) = false
  ∧ has_char "." (sanitize col) = false
  ∧ String.length (sanitize col) = String.length (strip col)
  ∧ starts_with_space (sanitize col) = false
  ∧ ends_with_space (sanitize col) = false
  ∧ sanitize (sanitize col) = sanitize col.
Proof.
  assert (has_char " " (sanitize col) = false) as Hspace.
  { unfold sanitize. do 2 (apply replace_keeps_absent; [done|]).
    by apply replace_removes. }
  assert (has_char "-" (sanitize col) = false) as Hhyphen.
  { unfold sanitize. apply replace_keeps_absent; [done|].
    by apply replace_removes. }
  assert (has_char "." (sanitize col) = false) as Hperiod.
  { unfold sanitize. by apply replace_removes. }
  assert (starts_with_space (sanitize col) = false) as Hlead.
  { unfold sanitize. do 3 (apply replace_no_lead; [done|]).
    apply strip_no_lead. }
  assert (ends_with_space (sanitize col) = false) as Htrail.
  { unfold sanitize. do 3 (apply replace_no_trail; [done|]).
    apply strip_no_trail. }
  repeat split; try done.
  - unfold sanitize. by rewrite !replace_length.
  - unfold sanitize at 1, strip.
    rewrite (lstrip_fixed _ Hlead), (rstrip_fixed _ Htrail).
    by rewrite (replace_absent _ _ _ Hspace), (replace_absent _ _ _ Hhyphen),
      (replace_absent _ _ _ Hperiod).
Qed.

End Columns.

(** ** The filesystem sink *)

Section FileSink.
Import Py DataExtractor FileStorage Spec Examples.
Local Open Scope py_scope.
Context (H : host).

(** *** Running a method call by call *)

Lemma finishes_bind {A B} (e0 : DataExtractor.state) (d0 : string)
    (m : M (t H) A) (k : A → M (t H) B) (p : t H) (a : A) (r : res B)
    (l l' : list fs_op) (out out' : list string) :
  extractor p = e0 → output_dir p = d0 →
  finishes m p (Ok a) l out →
  (∀ q, extractor q = e0 → output_dir q = d0 → finishes (k a) q r l' out') →
  finishes (bind m k) p r (l ++ l') (out ++ out').
Proof.
  intros He Hd (p1 & Hm & He1 & Hd1 & Hout1 & Hops1) Hk.
  destruct (Hk p1) as (p2 & Hk2 & He2 & Hd2 & Hout2 & Hops2); [congruence..|].
  exists p2. unfold bind. rewrite Hm, Hk2.
  repeat split; try congruence.
  - by rewrite Hout2, Hout1, app_assoc.
  - by rewrite Hops2, Hops1, app_assoc.
Qed.

(** An exception ends the method where it is raised. *)
Lemma finishes_bind_raise {A B} (m : M (t H) A) (k : A → M (t H) B) (p : t H)
    (e : exn) (l : list fs_op) (out : list string) :
  finishes m p (Raise e) l out → finishes (bind m k) p (Raise e) l out.
Proof.
  intros (p1 & Hm & Hrest). exists p1. unfold bind. by rewrite Hm.
Qed.

Lemma finishes_for_each {A} (e0 : DataExtractor.state) (d0 : string)
    (xs : list A) (body : A → M (t H) unit) (f : A → list fs_op) (p : t H) :
  extractor p = e0 → output_dir p = d0 →
  (∀ x q, x ∈ xs → extractor q = e0 → output_dir q = d0 →
          finishes (body x) q (Ok tt) (f x) []) →
  finishes (for_each xs body) p (Ok tt) (xs ≫= f) [].
Proof.
  revert p. induction xs as [|x xs IH]; intros p He Hd Hbody.
  - exists p. simpl. by rewrite !app_nil_r.
  - rewrite bind_cons. simpl.
    apply (finishes_bind e0 d0 _ _ p tt (Ok tt) (f x) (xs ≫= f) [] []);
      [done|done| |].
    + apply Hbody; [constructor|done|done].
    + intros q Heq Hdq. apply IH; [done|done|].
      intros y q' Hy. apply Hbody. by constructor.
Qed.

Lemma finishes_os_call (op : fs_op) (p : t H) :
  accepting H → finishes (os_call H op) p (Ok tt) [op] [].
Proof.
  intros Hacc. unfold finishes, os_call. specialize (Hacc op (disk p)).
  destruct (perform H op (disk p)) as [r d]. simpl in Hacc. subst r.
  eexists. split; [reflexivity|]. simpl. by rewrite app_nil_r.
Qed.

Lemma finishes_extractor {A} (m : M DataExtractor.state A) (p : t H)
    (r : res A) :
  read_only m → fst (m (extractor p)) = r →
  finishes (call_extractor H m) p r [] [].
Proof.
  intros Hro Hm. unfold finishes, call_extractor.
  specialize (Hro (extractor p)).
  destruct (m (extractor p)) as [r' e]. simpl in *. subst.
  eexists. split; [reflexivity|]. simpl. by rewrite !app_nil_r.
Qed.

Lemma finishes_lift {A} (p : t H) (r : res A) : finishes (lift r) p r [] [].
Proof. exists p. unfold lift. by rewrite !app_nil_r. Qed.

Lemma finishes_gets {A} (f : t H → A) (p : t H) (v : A) :
  f p = v → finishes (gets f) p (Ok v) [] [].
Proof. intros <-. exists p. unfold gets. by rewrite !app_nil_r. Qed.

Lemma finishes_print (line : string) (p : t H) :
  finishes (print H line) p (Ok tt) [] [line].
Proof. eexists. split; [reflexivity|]. simpl. by rewrite app_nil_r. Qed.

Lemma bind_singletons {A B} (g : A → B) (xs : list A) :
  xs ≫= (λ x, [g x]) = g <$> xs.
Proof. induction xs as [|x xs IH]; csimpl; [done|]. by rewrite IH. Qed.

Lemma opened_app (l l' : list fs_op) :
  opened (l ++ l') = opened l ++ opened l'.
Proof. unfold opened. apply bind_app. Qed.

Lemma opened_writes {A} (path : string) (g : A → string) (xs : list A) :
  opened ((λ x, WriteText path (g x)) <$> xs) = [].
Proof. induction xs as [|x xs IH]; [done|]. exact IH. Qed.

Lemma made_writes {A} (path : string) (g : A → string) (xs : list A) :
  made ((λ x, WriteText path (g x)) <$> xs) = [].
Proof. induction xs as [|x xs IH]; [done|]. exact IH. Qed.

Lemma made_app (l l' : list fs_op) : made (l ++ l') = made l ++ made l'.
Proof. unfold made. apply bind_app. Qed.

Lemma opened_tables_from (dir : string) (tables : list (list (list value)))
    (k : nat) :
  opened (mjoin (imap (λ i table,
                         Open (table_path H dir (k + i)) false
                         :: ((λ row, WriteText (table_path H dir (k + i))
                                       (writerow H row)) <$> table))
                      tables))
  = imap (λ i _, table_path H dir (k + i)) tables.
Proof.
  revert k. induction tables as [|table tables IH]; intros k; [done|].
  rewrite !imap_cons. change (mjoin (?x :: ?r)) with (x ++ mjoin r).
  rewrite opened_app.
  change (opened (Open ?path ?b :: ?r)) with (path :: opened r).
  rewrite opened_writes. simpl. f_equal.
  rewrite <- (imap_ext (λ i _, table_path H dir (S k + i))
                       ((λ i _, table_path H dir (k + i)) ∘ S) tables).
  - rewrite <- (IH (S k)). do 2 f_equal. apply imap_ext. intros i x _. simpl.
    by replace (k + S i)%nat with (S (k + i)) by lia.
  - intros i x _. simpl. by replace (k + S i)%nat with (S (k + i)) by lia.
Qed.

End FileSink.

(** ** A run of the filesystem sink *)

Section FileSinkRuns.
Import Py DataExtractor FileStorage Spec Examples.
Local Open Scope py_scope.
Context (H : host).

Tactic Notation "step" ident(q) ident(He) ident(Hd) "by" tactic3(tac) :=
  eapply finishes_bind; [exact He|exact Hd|tac|clear q He Hd; intros q He Hd].

(** The part of [save] before the images: text, metadata and links. *)
Ltac write_texts q He Hd e0 d0 Hacc Htext Hlinks Hlshape :=
  step q He Hd by
    (apply finishes_extractor;
       [apply extract_text_read_only|rewrite He; exact Htext]);
  simpl;
  step q He Hd by (apply finishes_gets; exact Hd);
  step q He Hd by (by apply finishes_os_call);
  step q He Hd by (by apply finishes_os_call);
  step q He Hd by (by apply finishes_os_call);
  step q He Hd by
    (apply (finishes_for_each H e0 d0 _ _
              (λ kv, [WriteText (metadata_path H d0)
                        (kv.1 +:+ ": " +:+ format_value H kv.2 +:+ nl)]));
       [exact He|exact Hd|
        intros [? ?] ? _ ? ?; by apply finishes_os_call]);
  step q He Hd by
    (apply finishes_extractor;
       [apply extract_links_read_only|rewrite He; exact Hlinks]);
  step q He Hd by (by apply finishes_os_call);
  step q He Hd by
    (apply (finishes_for_each H e0 d0 _ _
              (λ link, [WriteText (links_path H d0)
                          (format_value H (get link "url" None_)
                           +:+ " (Page/Slide: "
                           +:+ format_value H (MySQLStorage.location link)
                           +:+ ")" +:+ nl)]));
       [exact He|exact Hd|
        let link := fresh "link" in let q' := fresh "q" in
        let Hin := fresh "Hin" in let url := fresh "url" in
        let Hurl := fresh "Hurl" in
        intros link q' Hin ? ?;
        apply (proj1 (Forall_forall _ _) Hlshape) in Hin as [[url Hurl] _];
        unfold MySQLStorage.subscript, get; rewrite Hurl;
        apply (finishes_bind H e0 d0 _ _ q' url (Ok tt) [] [_] [] []);
          [done|done|apply finishes_lift|];
        intros ? _ _; by apply finishes_os_call]).

Ltac write_images q He Hd e0 d0 Hacc Himages Hishape images :=
  step q He Hd by (by apply finishes_os_call);
  step q He Hd by
    (apply (finishes_for_each H e0 d0 _ _
              (λ '(idx, img),
                 [Open (path_join H (images_path H d0)
                          ("image_" +:+ str_of_int (idx + 1) +:+ "."
                           +:+ format_value H (get img "image_format" None_)))
                       true;
                  WriteBytes (path_join H (images_path H d0)
                                ("image_" +:+ str_of_int (idx + 1) +:+ "."
                                 +:+ format_value H
                                       (get img "image_format" None_)))
                    match img !! "image" with
                    | Some (Bytes b) => b
                    | _ => []
                    end]));
       [exact He|exact Hd|
        let idx := fresh "idx" in let img := fresh "img" in
        let q' := fresh "q" in let Hin := fresh "Hin" in
        let Himg := fresh "Himg" in
        let b := fresh "b" in let Hb := fresh "Hb" in
        let f := fresh "f" in let Hf := fresh "Hf" in
        intros [idx img] q' Hin ? ?;
        assert (img ∈ images) as Himg by
          (unfold enumerate in Hin;
           apply elem_of_lookup_imap in Hin as (? & ? & [= -> ->] & ?);
           by eapply list_elem_of_lookup_2);
        apply (proj1 (Forall_forall _ _) Hishape) in Himg
          as ([b Hb] & [f Hf] & _);
        unfold MySQLStorage.subscript, get; rewrite Hf, Hb;
        apply (finishes_bind H e0 d0 _ _ q' (Str f) (Ok tt) [] [_; _] [] []);
          [done|done|apply finishes_lift|];
        intros ? ? ?;
        eapply (finishes_bind H e0 d0 _ _ _ tt (Ok tt) [_] [_] [] []);
          [done|done|by apply finishes_os_call|];
        intros ? ? ?;
        eapply (finishes_bind H e0 d0 _ _ _ (Bytes b) (Ok tt) [] [_] [] []);
          [done|done|apply finishes_lift|];
        intros ? ? ?;
        eapply (finishes_bind H e0 d0 _ _ _ b (Ok tt) [] [_] [] []);
          [done|done|apply finishes_lift|];
        intros ? _ _; by apply finishes_os_call]).

(** How far [save] gets, by what the image and the table extraction give. *)
Lemma save_progress (q : t H) (text : string) (md : dict) (links : list dict)
    (ri : res (list dict)) (rt : res (list (list (list value)))) :
  accepting H →
  fst (extract_text (extractor q)) = Ok (text, md) →
  fst (extract_links (extractor q)) = Ok links →
  fst (extract_images (extractor q)) = ri →
  fst (extract_tables (extractor q)) = rt →
  finishes (save H) q
    match ri, rt with
    | Ok _, Ok _ => Ok tt
    | Ok _, Raise e => Raise e
    | Raise e, _ => Raise e
    end
    (text_calls H (output_dir q) text
     ++ metadata_calls H (output_dir q) md
     ++ links_calls H (output_dir q) links
     ++ match ri with
        | Ok images =>
            images_calls H (output_dir q) images
            ++ match rt with
               | Ok tables => tables_calls H (output_dir q) tables
               | Raise _ => []
               end
        | Raise _ => []
        end)
    match ri, rt with
    | Ok _, Ok _ =>
        ["Data saved to file system in directory " +:+ output_dir q]
    | _, _ => []
    end.
Proof.
  intros Hacc Htext Hlinks Himages Htables.
  pose proof (extracted_links_shaped _ _ Hlinks) as Hlshape.
  remember (extractor q) as e0 eqn:He. remember (output_dir q) as d0 eqn:Hd.
  symmetry in He, Hd.
  destruct ri as [images|e]; [destruct rt as [tables|e]|].
  - pose proof (extracted_images_shaped _ _ Himages) as Hishape.
    cut (∃ l out, finishes (save H) q (Ok tt) l out
                  ∧ l = text_calls H d0 text ++ metadata_calls H d0 md
                        ++ links_calls H d0 links ++ images_calls H d0 images
                        ++ tables_calls H d0 tables
                  ∧ out = ["Data saved to file system in directory " +:+ d0]).
    { by intros (l & out & Hp & -> & ->). }
    do 2 eexists. split.
    { unfold save.
      write_texts q He Hd e0 d0 Hacc Htext Hlinks Hlshape.
      step q He Hd by
        (apply finishes_extractor;
           [apply extract_images_read_only|rewrite He; exact Himages]).
      write_images q He Hd e0 d0 Hacc Himages Hishape images.
      step q He Hd by
        (apply finishes_extractor;
           [apply extract_tables_read_only|rewrite He; exact Htables]).
      step q He Hd by
        (apply (finishes_for_each H e0 d0 _ _
                  (λ '(table_id, table),
                     Open (path_join H d0
                             ("table_" +:+ str_of_int (table_id + 1)
                              +:+ ".csv")) false
                     :: ((λ row, WriteText
                                   (path_join H d0
                                      ("table_" +:+ str_of_int (table_id + 1)
                                       +:+ ".csv"))
                                   (writerow H row)) <$> table)));
           [exact He|exact Hd|]).
      { intros [table_id table] q' _ He' Hd'.
        apply (finishes_bind H e0 d0 _ _ q' tt (Ok tt) [_] _ [] []);
          [done|done|by apply finishes_os_call|].
        intros q2 He2 Hd2. rewrite <- bind_singletons.
        apply (finishes_for_each H e0 d0); [done|done|].
        intros row q3 _ _ _. by apply finishes_os_call. }
      apply finishes_print. }
    split; [|reflexivity].
    simpl. unfold text_calls, metadata_calls, links_calls, images_calls,
      tables_calls, enumerate.
    rewrite !bind_singletons, !bind_imap, app_nil_r. reflexivity.
  - pose proof (extracted_images_shaped _ _ Himages) as Hishape.
    cut (∃ l out, finishes (save H) q (Raise e) l out
                  ∧ l = text_calls H d0 text ++ metadata_calls H d0 md
                        ++ links_calls H d0 links ++ images_calls H d0 images
                        ++ []
                  ∧ out = []).
    { by intros (l & out & Hp & -> & ->). }
    do 2 eexists. split.
    { unfold save.
      write_texts q He Hd e0 d0 Hacc Htext Hlinks Hlshape.
      step q He Hd by
        (apply finishes_extractor;
           [apply extract_images_read_only|rewrite He; exact Himages]).
      write_images q He Hd e0 d0 Hacc Himages Hishape images.
      apply finishes_bind_raise. apply finishes_extractor;
        [apply extract_tables_read_only|rewrite He; exact Htables]. }
    split; [|reflexivity].
    simpl. unfold text_calls, metadata_calls, links_calls, images_calls,
      enumerate.
    rewrite !bind_singletons, !bind_imap. reflexivity.
  - cut (∃ l out, finishes (save H) q (Raise e) l out
                  ∧ l = text_calls H d0 text ++ metadata_calls H d0 md
                        ++ links_calls H d0 links ++ []
                  ∧ out = []).
    { by intros (l & out & Hp & -> & ->). }
    do 2 eexists. split.
    { unfold save.
      write_texts q He Hd e0 d0 Hacc Htext Hlinks Hlshape.
      apply finishes_bind_raise. apply finishes_extractor;
        [apply extract_images_read_only|rewrite He; exact Himages]. }
    split; [|reflexivity].
    simpl. unfold text_calls, metadata_calls, links_calls.
    rewrite !bind_singletons. reflexivity.
Qed.


Lemma opened_mjoin_imap {A} (f : nat → A → list fs_op) (g : nat → A → string)
    (xs : list A) :
  (∀ i x, opened (f i x) = [g i x]) →
  opened (mjoin (imap f xs)) = imap g xs.
Proof.
  revert f g. induction xs as [|x xs IH]; intros f g Hfg; [done|].
  rewrite !imap_cons. change (mjoin (?y :: ?r)) with (y ++ mjoin r).
  rewrite opened_app, Hfg. simpl. f_equal. apply IH. intros i y. apply Hfg.
Qed.

Lemma made_mjoin_imap {A} (f : nat → A → list fs_op) (xs : list A) :
  (∀ i x, made (f i x) = []) → made (mjoin (imap f xs)) = [].
Proof.
  revert f. induction xs as [|x xs IH]; intros f Hf; [done|].
  rewrite !imap_cons. change (mjoin (?y :: ?r)) with (y ++ mjoin r).
  rewrite made_app, Hf. simpl. apply IH. intros i y. apply Hf.
Qed.

(** X13. When the operating system accepts every call and the four
    extractions return, [FileStorage.save] returns after writing the text,
    one line per metadata item, one line per link, each image to its own
    file under the image directory and each table to its own CSV file, and
    prints the closing line.  The files opened are, in order, the three text
    files, one file per image named by its 1-based position and its format,
    and one CSV file per table named by its 1-based position, a table
    without rows included; the only directory made is the image
    directory. *)
Theorem files_written (q : t H) (text : string) (md : dict)
    (links images : list dict) (tables : list (list (list value))) :
  accepting H →
  fst (extract_text (extractor q)) = Ok (text, md) →
  fst (extract_links (extractor q)) = Ok links →
  fst (extract_images (extractor q)) = Ok images →
  fst (extract_tables (extractor q)) = Ok tables →
  let dir := output_dir q in
  let calls :=
    text_calls H dir text ++ metadata_calls H dir md
    ++ links_calls H dir links ++ images_calls H dir images
    ++ tables_calls H dir tables in
  finishes (save H) q (Ok tt) calls
    ["Data saved to file system in directory " +:+ dir]
  ∧ opened calls
    = [text_path H dir; metadata_path H dir; links_path H dir]
      ++ imap (image_path H dir) images
      ++ imap (λ i _, table_path H dir i) tables
  ∧ made calls = [images_path H dir].
Proof.
  intros Hacc Htext Hlinks Himages Htables dir calls. split; [|split].
  - exact (save_progress q text md links (Ok images) (Ok tables)
             Hacc Htext Hlinks Himages Htables).
  - unfold calls, text_calls, metadata_calls, links_calls, images_calls,
      tables_calls.
    rewrite !opened_app.
    change (opened (Open ?path ?b :: ?r)) with (path :: opened r).
    change (opened (Makedirs ?path :: ?r)) with (opened r).
    rewrite !opened_writes.
    rewrite (opened_mjoin_imap _ (image_path H dir)) by done.
    rewrite (opened_mjoin_imap _ (λ i _, table_path H dir i)); [done|].
    intros i table.
    change (opened (Open ?path ?b :: ?r)) with (path :: opened r).
    by rewrite opened_writes.
  - unfold calls, text_calls, metadata_calls, links_calls, images_calls,
      tables_calls.
    rewrite !made_app.
    change (made (Open ?path ?b :: ?r)) with (made r).
    change (made (Makedirs ?path :: ?r)) with (path :: made r).
    rewrite !made_writes.
    rewrite !made_mjoin_imap; [done| |done].
    intros i table. change (made (Open ?path ?b :: ?r)) with (made r).
    by rewrite made_writes.
Qed.

(** X14. When the image extraction raises, [FileStorage.save] ends with
    that exception after the text, the metadata and the links have been
    written: the image directory is not made, no table is written and the
    closing line is not printed. *)
Theorem failed_images_leave_texts (q : t H) (text : string) (md : dict)
    (links : list dict) (e : exn) :
  accepting H →
  fst (extract_text (extractor q)) = Ok (text, md) →
  fst (extract_links (extractor q)) = Ok links →
  fst (extract_images (extractor q)) = Raise e →
  finishes (save H) q (Raise e)
    (text_calls H (output_dir q) text ++ metadata_calls H (output_dir q) md
     ++ links_calls H (output_dir q) links)
    [].
Proof.
  intros Hacc Htext Hlinks Himages.
  pose proof (save_progress q text md links (Raise e) _
                Hacc Htext Hlinks Himages eq_refl) as Hsave.
  simpl in Hsave. by rewrite app_nil_r in Hsave.
Qed.

End FileSinkRuns.

Lemma files_written_witness :
  ∃ calls,
    FileStorage.finishes (FileStorage.save MiniHost.mini)
      (Examples.on_disk Examples.letter) (Py.Ok tt) calls
      ["Data saved to file system in directory out"]
    ∧ Spec.opened calls
      = ["out/extracted_text.txt"; "out/metadata.txt";
         "out/extracted_links.txt"; "out/images/image_1.png"]
    ∧ Spec.made calls = ["out/images"].
Proof.
  eexists.
  refine (files_written MiniHost.mini (Examples.on_disk Examples.letter)
            _ _ _ _ _ (λ _ _, eq_refl) eq_refl eq_refl eq_refl eq_refl).
Defined.

Lemma failed_images_leave_texts_witness :
  ∃ calls,
    FileStorage.finishes (FileStorage.save MiniHost.mini)
      (Examples.on_disk Examples.letter_unreadable)
      (Py.Raise (Py.LibraryError "cannot identify image file")) calls []
    ∧ Spec.opened calls
      = ["out/extracted_text.txt"; "out/metadata.txt";
         "out/extracted_links.txt"]
    ∧ Spec.made calls = [].
Proof.
  eexists. split.
  - apply (failed_images_leave_texts MiniHost.mini
             (Examples.on_disk Examples.letter_unreadable)).
    + intros op d. reflexivity.
    + reflexivity.
    + reflexivity.
    + reflexivity.
  - split; reflexivity.
Defined.

(** ** What the filesystem sink prints *)

Section FileSinkOutput.
Import Py DataExtractor FileStorage Spec Examples.
Local Open Scope py_scope.
Context (H : host).

Lemma quiet_bind {A B} (m : M (t H) A) (k : A → M (t H) B) :
  quiet m → (∀ a, quiet (k a)) → quiet (bind m k).
Proof.
  intros Hm Hk p. unfold bind. specialize (Hm p).
  destruct (m p) as [[a|e] p1]; simpl in Hm; [|done].
  specialize (Hk a p1). destruct Hk as [Hd Hout]. destruct Hm as [Hd1 Hout1].
  split; congruence.
Qed.

Lemma quiet_for_each {A} (xs : list A) (body : A → M (t H) unit) :
  (∀ x, quiet (body x)) → quiet (for_each xs body).
Proof.
  intros Hbody. induction xs as [|x xs IH]; simpl; [done|].
  apply quiet_bind; [apply Hbody|]. by intros _.
Qed.

Lemma quiet_os_call (op : fs_op) : quiet (os_call H op).
Proof.
  intros p. unfold os_call.
  by destruct (perform H op (disk p)) as [[err|] d].
Qed.

Lemma quiet_extractor {A} (m : M DataExtractor.state A) :
  quiet (call_extractor H m).
Proof. intros p. unfold call_extractor. by destruct (m (extractor p)). Qed.

Lemma quiet_lift {A} (r : res A) : quiet (lift r : M (t H) A).
Proof. by intros p. Qed.

Lemma announces_bind {A B} (line : string) (m : M (t H) A)
    (k : A → M (t H) B) :
  quiet m → (∀ a, announces line (k a)) → announces line (bind m k).
Proof.
  intros Hm Hk p. unfold bind. destruct (Hm p) as [_ Hout].
  destruct (m p) as [[a|e] p1]; simpl in *.
  - by rewrite (Hk a p1), Hout.
  - by rewrite Hout, app_nil_r.
Qed.

Lemma announces_print (line : string) : announces line (print H line).
Proof. by intros p. Qed.

Lemma announces_directory {A B} (m : M (t H) A)
    (k : A → string → M (t H) B) (line : string → string) (q : t H) :
  quiet m → (∀ a dir, announces (line dir) (k a dir)) →
  let run := bind m (λ a, bind (gets output_dir) (λ dir, k a dir)) q in
  stdout (snd run)
  = stdout q
    ++ match fst run with Ok _ => [line (output_dir q)] | Raise _ => [] end.
Proof.
  intros Hm Hk. unfold bind, gets. destruct (Hm q) as [Hd Hout].
  destruct (m q) as [[a|e] q1]; simpl in *.
  - by rewrite (Hk a (output_dir q1) q1), Hout, Hd.
  - by rewrite Hout, app_nil_r.
Qed.

(** X16. Whatever the operating system answers, [FileStorage.save] prints
    exactly one line, naming the output directory, when it returns, and
    prints nothing when it raises. *)
Theorem saved_line_iff_returned (q : t H) :
  stdout (snd (save H q))
  = stdout q
    ++ match fst (save H q) with
       | Ok _ => ["Data saved to file system in directory " +:+ output_dir q]
       | Raise _ => []
       end.
Proof.
  unfold save.
  apply (announces_directory _ _
           (λ dir, "Data saved to file system in directory " +:+ dir)).
  { apply quiet_extractor. }
  intros extracted dir.
  repeat first
    [ apply announces_print
    | apply announces_bind; [|intros ?]
    | apply quiet_os_call
    | apply quiet_extractor
    | apply quiet_lift
    | apply quiet_for_each; intros ?
    | apply quiet_bind; [|intros ?]
    | match goal with |- quiet (let '(_, _) := ?x in _) => destruct x end ].
Qed.

End FileSinkOutput.

(** ** Both sinks on a handle of unknown kind *)

Section UnknownKind.
Import Py DataExtractor Spec Examples.
Local Open Scope py_scope.

Lemma extract_text_unknown (s : state) :
  file_type (self s) ∉ known_kinds → extract_text s = (Raise unsupported, s).
Proof.
  intros Hkind. unfold known_kinds in Hkind.
  assert (file_type (self s) ≠ "pdf") by set_solver.
  assert (file_type (self s) ≠ "docx") by set_solver.
  assert (file_type (self s) ≠ "pptx") by set_solver.
  unfold extract_text, bind, gets, raise. simpl.
  repeat case_decide; done.
Qed.

(** X15. On an extractor whose kind is none of the three, [save] of either
    sink raises the error of the first extraction and leaves the process as
    it was: no statement is sent, no call is made on the operating system
    and nothing is printed. *)
Theorem unknown_kind_stores_nothing (D : MySQLStorage.driver)
    (H : FileStorage.host) (e : state) :
  file_type (self e) ∉ known_kinds →
  (∀ p : MySQLStorage.proc D,
     MySQLStorage.extractor p = e →
     MySQLStorage.save D p = (Raise unsupported, p))
  ∧ (∀ q : FileStorage.t H,
       FileStorage.extractor q = e →
       FileStorage.save H q = (Raise unsupported, q)).
Proof.
  intros Hkind. split.
  - intros p <-. unfold MySQLStorage.save, MySQLStorage.call_extractor.
    unfold bind at 1. rewrite extract_text_unknown by done.
    by destruct p.
  - intros q <-. unfold FileStorage.save, FileStorage.call_extractor.
    unfold bind at 1. rewrite extract_text_unknown by done.
    by destruct q.
Qed.

End UnknownKind.

Lemma unknown_kind_stores_nothing_witness :
  MySQLStorage.save MiniServer.mini (Examples.fresh Examples.notes)
  = (Py.Raise DataExtractor.unsupported, Examples.fresh Examples.notes)
  ∧ FileStorage.save MiniHost.mini (Examples.on_disk Examples.notes)
    = (Py.Raise DataExtractor.unsupported, Examples.on_disk Examples.notes).
Proof.
  destruct (unknown_kind_stores_nothing MiniServer.mini MiniHost.mini
              Examples.notes) as [Hsql Hfile].
  - unfold Spec.known_kinds. simpl. intros Hin.
    repeat (apply elem_of_cons in Hin as [Hin|Hin]; [discriminate|]).
    by apply elem_of_nil in Hin.
  - split; [apply Hsql|apply Hfile]; reflexivity.
Defined.

(** ** The rows of the three fixed tables *)

Section SinkRows.
Import Py DataExtractor MySQLStorage Spec Examples.
Local Open Scope py_scope.
Context (D : driver).

Lemma stores_bind {A B} (m : M (proc D) A) (k : A → M (proc D) B)
    (p : proc D) (a : A) (b : B) (l l' : list (stmt * list value)) :
  stores m p a l →
  (∀ p1, extractor p1 = extractor p → stores (k a) p1 b l') →
  stores (bind m k) p b (l ++ l').
Proof.
  intros (p1 & Hm & He1 & Hl1) Hk.
  destruct (Hk p1 He1) as (p2 & Hk2 & He2 & Hl2).
  exists p2. unfold bind. rewrite Hm, Hk2.
  split; [done|]. split; [congruence|]. by rewrite Hl2, Hl1, app_assoc.
Qed.

Lemma stores_for_each {A} (xs : list A) (body : A → M (proc D) unit)
    (f : A → stmt * list value) (p : proc D) :
  (∀ x p1, x ∈ xs → extractor p1 = extractor p →
           stores (body x) p1 tt [f x]) →
  stores (for_each xs body) p tt (f <$> xs).
Proof.
  revert p. induction xs as [|x xs IH]; intros p Hbody.
  - exists p. simpl. by rewrite app_nil_r.
  - simpl. apply (stores_bind _ _ p tt tt [f x] (f <$> xs)).
    + apply Hbody; [constructor|done].
    + intros p1 He1. apply IH. intros y p2 Hy He2.
      apply Hbody; [by constructor|congruence].
Qed.

Lemma stores_execute (q : stmt) (params : list value) (p : proc D) :
  (∀ d, fst (execute D q params d) = None) →
  stores (cursor_execute D q params) p tt [(q, params)].
Proof.
  intros Hacc. unfold stores, cursor_execute. specialize (Hacc (server p)).
  destruct (execute D q params (server p)) as [r d]. simpl in Hacc. subst r.
  eexists. split; [reflexivity|]. done.
Qed.

Lemma stores_extractor {A} (m : M DataExtractor.state A) (p : proc D)
    (a : A) :
  read_only m → fst (m (extractor p)) = Ok a →
  stores (call_extractor D m) p a [].
Proof.
  intros Hro Hm. unfold stores, call_extractor.
  specialize (Hro (extractor p)).
  destruct (m (extractor p)) as [r e]. simpl in *. subst.
  eexists. split; [reflexivity|]. simpl. by rewrite app_nil_r.
Qed.

Lemma stores_lift {A} (p : proc D) (a : A) : stores (lift (Ok a)) p a [].
Proof. exists p. unfold lift. by rewrite app_nil_r. Qed.

(** What a method sends once a first part has stored its rows. *)
Lemma sent_after_stores {A B} (wanted : stmt → Prop) (m : M (proc D) A)
    (k : A → M (proc D) B) (p : proc D) (a : A)
    (l rest : list (stmt * list value)) :
  stores m p a l →
  (∀ p1, extractor p1 = extractor p →
         ∃ l', sent (snd (k a p1)) = sent p1 ++ rest ++ l'
               ∧ Forall (λ qp, wanted (fst qp)) l') →
  ∃ l', sent (snd (bind m k p)) = sent p ++ (l ++ rest) ++ l'
        ∧ Forall (λ qp, wanted (fst qp)) l'.
Proof.
  intros (p1 & Hm & He & Hl) Hk. destruct (Hk p1 He) as (l' & Hl' & Hwanted).
  exists l'. unfold bind. rewrite Hm, Hl', Hl. by rewrite <- !app_assoc.
Qed.

Lemma ensure_table_unfixed (name : string) (cols : list string) :
  sends_only (λ q, ¬ fixed_insert q) (ensure_table D name cols).
Proof.
  unfold ensure_table.
  apply sends_only_bind;
    [apply sends_only_execute; intros [|[|]]; discriminate|intros _].
  apply sends_only_bind;
    [apply sends_only_silent, fetchone_silent|intros result].
  destruct (row_found result).
  - apply sends_only_bind;
      [apply sends_only_execute; intros [|[|]]; discriminate|intros _].
    apply sends_only_bind;
      [apply sends_only_silent, fetchall_silent|intros found].
    apply sends_only_for_each. intros col. case_decide.
    + by apply sends_only_silent.
    + apply sends_only_execute. intros [|[|]]; discriminate.
  - apply sends_only_execute. intros [|[|]]; discriminate.
Qed.

Lemma save_table_unfixed (table : list (list value)) :
  sends_only (λ q, ¬ fixed_insert q) (save_table D table).
Proof.
  destruct table as [|header data_rows]; [by apply sends_only_silent|].
  unfold save_table.
  apply sends_only_bind; [by apply sends_only_silent|intros cols].
  apply sends_only_bind; [by apply sends_only_silent|intros n].
  apply sends_only_bind; [by apply sends_only_silent|intros _].
  apply sends_only_bind.
  - apply sends_only_try.
    + apply sends_only_bind; [apply ensure_table_unfixed|intros _].
      by apply sends_only_silent.
    + intros err. by apply sends_only_silent.
  - intros [|]; [|by apply sends_only_silent].
    apply sends_only_for_each. intros row. apply sends_only_try.
    + apply sends_only_execute. intros [|[|]]; discriminate.
    + intros err. by apply sends_only_silent.
Qed.

Lemma text_rows_truthy (text : string) :
  text_rows text
  = if truthy (Str text) then [(InsertText, [Str text])] else [].
Proof.
  unfold text_rows, truthy. case_decide as Htext.
  - subst. reflexivity.
  - apply String.eqb_neq in Htext. by rewrite Htext.
Qed.

(** X17. When the server accepts the insertions into the three fixed
    tables and the text, the links and the images are extracted,
    [MySQLStorage.save] sends first the row of the text, unless the text is
    empty, then one row per link and one row per image, in the order of
    extraction; whatever it sends after these is no insertion into a fixed
    table. *)
Theorem fixed_rows_sent (p : proc D) (text : string) (md : dict)
    (links images : list dict) :
  (∀ q params d, fixed_insert q → fst (execute D q params d) = None) →
  fst (extract_text (extractor p)) = Ok (text, md) →
  fst (extract_links (extractor p)) = Ok links →
  fst (extract_images (extractor p)) = Ok images →
  ∃ l, sent (snd (save D p))
       = sent p ++ (text_rows text ++ (link_row <$> links)
                    ++ (image_row <$> images)) ++ l
       ∧ Forall (λ qp, ¬ fixed_insert (fst qp)) l.
Proof.
  intros Hacc Htext Hlinks Himages.
  pose proof (extracted_links_shaped _ _ Hlinks) as Hlshape.
  pose proof (extracted_images_shaped _ _ Himages) as Hishape.
  remember (extractor p) as e0 eqn:He. symmetry in He.
  cut (∃ rows, (∃ l, sent (snd (save D p)) = sent p ++ rows ++ l
                     ∧ Forall (λ qp, ¬ fixed_insert (fst qp)) l)
               ∧ rows = text_rows text ++ (link_row <$> links)
                        ++ (image_row <$> images)).
  { by intros (rows & Hsent & ->). }
  eexists. split.
  { unfold save.
    eapply (sent_after_stores (λ q, ¬ fixed_insert q)).
    { apply stores_extractor;
        [apply extract_text_read_only|rewrite He; exact Htext]. }
    intros p1 He1; rewrite He in He1; clear p He; rename p1 into p, He1 into He. simpl.
    eapply (sent_after_stores (λ q, ¬ fixed_insert q) _ _ _ tt (text_rows text)).
    { rewrite text_rows_truthy. unfold truthy.
      destruct (negb (String.eqb text "")).
      - apply stores_execute. intros d. apply Hacc. by left.
      - exists p. unfold ret. by rewrite app_nil_r. }
    intros p1 He1; rewrite He in He1; clear p He; rename p1 into p, He1 into He.
    eapply (sent_after_stores (λ q, ¬ fixed_insert q)).
    { apply stores_extractor;
        [apply extract_links_read_only|rewrite He; exact Hlinks]. }
    intros p1 He1; rewrite He in He1; clear p He; rename p1 into p, He1 into He.
    eapply (sent_after_stores (λ q, ¬ fixed_insert q)).
    { apply (stores_for_each _ _ link_row). intros link p1 Hin _.
      apply (proj1 (Forall_forall _ _) Hlshape) in Hin as [[url Hurl] _].
      unfold subscript, link_row, get. rewrite Hurl.
      apply (stores_bind _ _ p1 url tt [] [_]); [apply stores_lift|].
      intros p2 _. apply stores_execute. intros d. apply Hacc.
      right. by left. }
    intros p1 He1; rewrite He in He1; clear p He; rename p1 into p, He1 into He.
    eapply (sent_after_stores (λ q, ¬ fixed_insert q)).
    { apply stores_extractor;
        [apply extract_images_read_only|rewrite He; exact Himages]. }
    intros p1 He1; rewrite He in He1; clear p He; rename p1 into p, He1 into He.
    eapply (sent_after_stores (λ q, ¬ fixed_insert q)).
    { apply (stores_for_each _ _ image_row). intros img p1 Hin _.
      apply (proj1 (Forall_forall _ _) Hishape) in Hin
        as ([b Hb] & [f Hf] & [r Hr]).
      unfold subscript, image_row, get. rewrite Hb, Hf, Hr. simpl.
      apply (stores_bind _ _ p1 (Bytes b) tt [] [_]); [apply stores_lift|].
      intros p2 _.
      apply (stores_bind _ _ p2 (Bytes b) tt [] [_]); [apply stores_lift|].
      intros p3 _.
      apply (stores_bind _ _ p3 (Str f) tt [] [_]); [apply stores_lift|].
      intros p4 _.
      apply (stores_bind _ _ p4 (Str r) tt [] [_]); [apply stores_lift|].
      intros p5 _. apply stores_execute. intros d. apply Hacc.
      right. by right. }
    intros p1 He1; rewrite He in He1; clear p He; rename p1 into p, He1 into He.
    assert (sends_only (λ q, ¬ fixed_insert q)
              (bind (call_extractor D extract_tables)
                 (λ tables, bind (save_tables D tables)
                    (λ _, bind (conn_commit D)
                       (λ _, print D "Data saved to MySQL database")))))
      as Hrest.
    { apply sends_only_bind;
        [apply sends_only_silent; intros p1; unfold call_extractor;
         by destruct (extract_tables (extractor p1))|intros tables].
      apply sends_only_bind;
        [apply sends_only_for_each, save_table_unfixed|intros _].
      apply sends_only_bind;
        [apply sends_only_silent, commit_silent|intros _].
      by apply sends_only_silent. }
    destruct (Hrest p) as (l & Hl & Hwanted). exists l. split; [|done].
    rewrite Hl. exact (eq_refl (sent p ++ [] ++ l)). }
  simpl. by rewrite !app_nil_r.
Qed.

End SinkRows.

Lemma fixed_rows_sent_witness :
  ∃ l, MySQLStorage.sent
         (snd (MySQLStorage.save MiniServer.mini
                 (Examples.fresh Examples.letter)))
       = [(MySQLStorage.InsertText, [Py.Str "Dear"]);
          (MySQLStorage.InsertLink, [Py.Str "https://z"; Py.None_]);
          (MySQLStorage.InsertImage,
           [Py.Bytes [x89; x50]; Py.Str "png"; Py.Str "2x3"; Py.None_])]
         ++ l
       ∧ Forall (λ qp, ¬ Spec.fixed_insert (fst qp)) l.
Proof.
  refine (fixed_rows_sent MiniServer.mini (Examples.fresh Examples.letter)
            _ _ _ _ _ eq_refl eq_refl eq_refl).
  intros q params d [->|[->| ->]]; reflexivity.
Defined.

(** ** The relational sink: one table, and what stops the loop *)

Section SinkNaming.
Import Py MySQLStorage Spec.
Local Open Scope py_scope.
Context (D : driver).

(** C7, as the code has it.  For an extracted table whose header cells are
    all strings, whatever the server answers: the sink takes one value N of
    the process-wide counter, which it leaves at N + 1, asks for
    extracted_table_N first, and sends nothing but statements on that table
    afterwards; another value of the counter gives another name, and binding
    a new sink to the next document leaves the counter where it is.  When
    the server knows no table of that name and accepts the creation, the
    sink creates it with the header cells stripped and with spaces, hyphens
    and periods replaced by underscores as columns, and sends one insertion
    per row after the header, in order, with that column list; the header is
    not inserted. *)
Theorem table_created_for_table_with_rows
    (names : list string) (data : list (list value)) (p : proc D)
    (e : DataExtractor.state) :
  let name := generated_name (table_name p) in
  let cols := sanitize <$> names in
  let run := save_table D ((Str <$> names) :: data) p in
  table_name (snd run) = table_name p + 1
  ∧ (∃ l, sent (snd run) = sent p ++ (ShowTablesLike name, []) :: l
          ∧ Forall (λ qp, follows name (fst qp)) l)
  ∧ (∀ m, generated_name m = name → m = table_name p)
  ∧ table_name (snd (init D e (snd run))) = table_name (snd run)
  ∧ ∀ (d1 d2 d3 : db D) (result : option (list value)),
      execute D (ShowTablesLike name) [] (server p) = (None, d1) →
      fetchone D d1 = (inr result, d2) →
      row_found result = false →
      execute D (CreateTable name cols) [] d2 = (None, d3) →
      fst run = Ok tt
      ∧ sent (snd run)
        = sent p
          ++ (ShowTablesLike name, [])
          :: (CreateTable name cols, [])
          :: ((λ row, (InsertRow name cols (length row), row)) <$> data).
Proof.
  intros name cols run. subst name cols run.
  rewrite save_table_rows, sanitize_columns_textual.
  split; [apply table_body_counter|].
  split; [apply table_body_trace|].
  split; [intros m; apply generated_name_inj|].
  split; [apply keeps_counter_init|].
  intros d1 d2 d3 result Hshow Hfetch Hnone Hcreate.
  assert (∃ p1, table_body D (sanitize <$> names) data p = (Ok tt, p1)
                ∧ sent p1
                  = sent p
                    ++ (ShowTablesLike (generated_name (table_name p)), [])
                    :: (CreateTable (generated_name (table_name p))
                          (sanitize <$> names), [])
                    :: ((λ row, (InsertRow (generated_name (table_name p))
                                   (sanitize <$> names) (length row), row))
                        <$> data))
    as (p1 & Hbody & Hsent); [|by rewrite Hbody].
  unfold table_body, bind at 1, gets at 1. simpl.
  unfold bind at 1, modify at 1. simpl.
  unfold bind at 1, try_except_mysql at 1, bind at 1, ensure_table.
  unfold bind at 1, cursor_execute at 1. simpl. rewrite Hshow. simpl.
  unfold bind at 1, cursor_fetchone at 1. simpl. rewrite Hfetch. simpl.
  rewrite Hnone. unfold cursor_execute at 1. simpl. rewrite Hcreate. simpl.
  match goal with
  | |- ∃ p1, for_each _ _ ?p2 = _ ∧ _ =>
      destruct (insert_rows_sent D (generated_name (table_name p))
                  (sanitize <$> names) data p2)
        as (p1 & Hrun & Hcounter & Hsent)
  end.
  exists p1. rewrite Hrun, Hsent. simpl. split; [done|].
  by rewrite <- !app_assoc.
Qed.

End SinkNaming.

Lemma table_created_for_table_with_rows_witness :
  (λ x, MySQLStorage.sql (fst x))
  <$> MySQLStorage.sent
        (snd (MySQLStorage.save_table MiniServer.mini Examples.contacts
                (Examples.fresh Examples.hello_world)))
  = [ "SHOW TABLES LIKE 'extracted_table_1'";
      "CREATE TABLE extracted_table_1 (id INT AUTO_INCREMENT PRIMARY KEY, `Name` TEXT, `e_mail` TEXT)";
      "INSERT INTO extracted_table_1 (`Name`, `e_mail`) VALUES (%s, %s)";
      "INSERT INTO extracted_table_1 (`Name`, `e_mail`) VALUES (%s)";
      "INSERT INTO extracted_table_1 (`Name`, `e_mail`) VALUES (%s, %s)" ].
Proof.
  destruct (table_created_for_table_with_rows MiniServer.mini
              ["Name "; "e-mail"]
              [ [Py.Str "Ann"; Py.Str "ann@x"]; [Py.Str "Bob"];
                [Py.Str "Cy"; Py.None_] ]
              (Examples.fresh Examples.hello_world) Examples.hello_world)
    as (_ & _ & _ & _ & Hcreated).
  edestruct Hcreated as [_ Hsent].
  - vm_compute. reflexivity.
  - vm_compute. reflexivity.
  - vm_compute. reflexivity.
  - vm_compute. reflexivity.
  - change Examples.contacts
      with ((Py.Str <$> ["Name "; "e-mail"])
            :: [ [Py.Str "Ann"; Py.Str "ann@x"]; [Py.Str "Bob"];
                 [Py.Str "Cy"; Py.None_] ]).
    rewrite Hsent. vm_compute. reflexivity.
Defined.

(** C7, as stated, fails. Of two extracted tables, the first without rows,
    only the second gets a relational table, and its column is the header
    cell stripped before the replacements; on a server that still has
    extracted_table_1 from an earlier run, no table is created at all; and a
    table whose header has a null cell raises before a name is taken. *)
Lemma one_creation_for_two_tables :
  length Examples.blank_then_people = 2%nat
  ∧ Spec.creations
      (MySQLStorage.sent
         (snd (MySQLStorage.save_tables MiniServer.mini
                 Examples.blank_then_people
                 (Examples.fresh Examples.hello_world))))
    = [MySQLStorage.CreateTable "extracted_table_1" ["a_b"]]
  ∧ Spec.replaced_only " a b" = "_a_b"
  ∧ Spec.creations
      (MySQLStorage.sent
         (snd (MySQLStorage.save_tables MiniServer.mini
                 Examples.blank_then_people
                 (Examples.rerun Examples.hello_world))))
    = []
  ∧ MySQLStorage.save_table MiniServer.mini
      [ [Py.None_; Py.Str "a"]; [Py.Str "1"; Py.Str "2"] ]
      (Examples.fresh Examples.hello_world)
    = (Py.Raise (Py.AttributeError "strip"),
       Examples.fresh Examples.hello_world).
Proof. repeat split; vm_compute; reflexivity. Qed.


(** ** Repeated calls *)

Section Reproducible.
Import Py DataExtractor Spec Examples.
Local Open Scope py_scope.

(** *** The writes of the loop over the slides *)

Lemma fold_left_marks {A} (step : list dict * gset run_id → A
                                  → list dict * gset run_id)
    (f : A → list dict) (ids : A → list run_id) (xs : list A)
    (links : list dict) (marks : gset run_id) :
  (∀ links marks x,
     step (links, marks) x = (links ++ f x, marks ∪ list_to_set (ids x))) →
  fold_left step xs (links, marks)
  = (links ++ (xs ≫= f), marks ∪ list_to_set (xs ≫= ids)).
Proof.
  intros Hstep. revert links marks.
  induction xs as [|x xs IH]; intros links marks; csimpl.
  - rewrite app_nil_r. change (list_to_set [] : gset run_id) with (∅ : gset run_id).
    by rewrite (right_id_L ∅ (∪)).
  - by rewrite Hstep, IH, <- app_assoc, list_to_set_app_L, (assoc_L (∪)).
Qed.

Lemma mjoin_imap_bind {A B} (f : A → list B) (xs : list A) :
  mjoin (imap (λ _ x, f x) xs) = xs ≫= f.
Proof.
  induction xs as [|x xs IH]; csimpl; [done|]. f_equal. exact IH.
Qed.

Lemma slides_loop_listed (slides : list pptx.Slide) (marks : gset run_id) :
  slides_loop slides marks
  = (slides_links slides, marks ∪ list_to_set (run_ids slides)).
Proof.
  unfold slides_loop, slides_links, run_ids, indexed.
  rewrite (fold_left_marks _
             (λ '(i, slide), pptx.shapes slide
                             ≫= shape_links (Z.of_nat i + 1))
             (λ '(i, slide),
                mjoin (imap (λ j shape,
                  match pptx.text_frame shape with
                  | Some tf =>
                      mjoin (imap (λ k paragraph,
                        mjoin (imap (λ l run,
                          match pptx.run_hyperlink run with
                          | Some _ => [(i, j, k, l)]
                          | None => []
                          end) (pptx.runs paragraph))) (pptx.paragraphs tf))
                  | None => []
                  end) (pptx.shapes slide)))).
  { simpl. by rewrite !bind_imap. }
  intros links marks' [i slide].
  rewrite (fold_left_marks _
             (λ '(j, shape), shape_links (Z.of_nat i + 1) shape)
             (λ '(j, shape),
                match pptx.text_frame shape with
                | Some tf =>
                    mjoin (imap (λ k paragraph,
                      mjoin (imap (λ l run,
                        match pptx.run_hyperlink run with
                        | Some _ => [(i, j, k, l)]
                        | None => []
                        end) (pptx.runs paragraph))) (pptx.paragraphs tf))
                | None => []
                end)).
  { rewrite !bind_imap. by rewrite mjoin_imap_bind. }
  intros links' marks'' [j shape]. simpl.
  rewrite link_address_carried. unfold shape_links, shape_runs.
  destruct (pptx.text_frame shape) as [tf|].
  2:{ change (list_to_set [] : gset run_id) with (∅ : gset run_id).
      by rewrite app_nil_r, (right_id_L ∅ (∪)). }
  rewrite (fold_left_marks _
             (λ '(k, paragraph),
                pptx.runs paragraph ≫=
                  λ run, slide_entry (Z.of_nat i + 1)
                         <$> carried (pptx.run_hyperlink run))
             (λ '(k, paragraph),
                mjoin (imap (λ l run,
                  match pptx.run_hyperlink run with
                  | Some _ => [(i, j, k, l)]
                  | None => []
                  end) (pptx.runs paragraph)))).
  { rewrite !bind_imap, mjoin_imap_bind, <- app_assoc.
    by rewrite bind_assoc_list. }
  intros links2 marks2 [k paragraph].
  rewrite (fold_left_marks _
             (λ '(l, run), slide_entry (Z.of_nat i + 1)
                           <$> carried (pptx.run_hyperlink run))
             (λ '(l, run),
                match pptx.run_hyperlink run with
                | Some _ => [(i, j, k, l)]
                | None => []
                end)).
  { rewrite !bind_imap. by rewrite mjoin_imap_bind. }
  intros links3 marks3 [l run]. cbn [fst snd].
  destruct (pptx.run_hyperlink run) as [h|].
  - f_equal; [exact (link_address_carried (Some h) _ links3)|].
    change (list_to_set [(i, j, k, l)] : gset run_id)
      with ({[ (i, j, k, l) ]} ∪ ∅ : gset run_id).
    by rewrite (right_id_L ∅ (∪)), (comm_L (∪)).
  - change (list_to_set [] : gset run_id) with (∅ : gset run_id).
    by rewrite app_nil_r, (right_id_L ∅ (∪)).
Qed.


Lemma extract_links_on_listed (h : handle) :
  extract_links_on h
  = (fst (extract_links (api h)),
     {| api := api h; rPr := rPr h ∪ touched (api h) |}).
Proof.
  unfold extract_links_on, touched. case_decide as Hkind.
  - destruct (file (self (api h))) as [r|d|p|] eqn:Hfile; simpl;
      try (unfold extract_links, bind, gets, lift; simpl;
           rewrite Hkind, Hfile; repeat case_decide; try discriminate;
           simpl; rewrite (right_id_L ∅ (∪)); by destruct h).
    rewrite slides_loop_listed.
    by rewrite (proj1 (slides_links_listed (api h) p (conj Hkind Hfile))).
  - pose proof (extract_links_read_only (api h)) as Hro.
    destruct (extract_links (api h)) as [r s]. simpl in *. subst s.
    by rewrite (right_id_L ∅ (∪)).
Qed.

(** *** What an operation reads of the world *)

Lemma for_fold_ext {A B} (f g : A → B → res B) (xs : list A) (acc : B) :
  (∀ x acc, f x acc = g x acc) → for_fold xs f acc = for_fold xs g acc.
Proof.
  intros Hfg. revert acc. induction xs as [|x xs IH]; intros acc; simpl;
    [done|].
  rewrite Hfg. destruct (g x acc); simpl; [apply IH|done].
Qed.

Lemma process_image_same (w w' : world) (kind : string) (img : image_arg)
    (doc : doc_arg) (n : value) :
  (∀ blob, Image_open w blob = Image_open w' blob) →
  _process_image w kind img doc n = _process_image w' kind img doc n.
Proof.
  intros Hsame. unfold _process_image, decode.
  repeat case_decide; try done.
  - destruct img; try done. by rewrite Hsame.
  - destruct img as [| |shape]; try done.
    destruct (pptx.image_blob shape); [|done]. by rewrite Hsame.
Qed.

Lemma call_fst (o : operation) (s : state) :
  fst (call o s)
  = match o with
    | Text => TextOut (fst (extract_text s))
    | Images => ImagesOut (fst (extract_images s))
    | Tables => TablesOut (fst (extract_tables s))
    | Links => LinksOut (fst (extract_links s))
    end.
Proof.
  destruct o; simpl.
  - by destruct (extract_text s).
  - by destruct (extract_images s).
  - by destruct (extract_tables s).
  - by destruct (extract_links s).
Qed.

(** The result of an operation is a function of the attributes of the
    extractor, of the file at its path and of the decoder. *)
Lemma call_same_view (o : operation) (s s' : state) :
  self s = self s' →
  same_view (file_path (self s)) (env s) (env s') →
  fst (call o s) = fst (call o s').
Proof.
  destruct s as [me w], s' as [me' w']. simpl.
  intros <- (Hfitz & Hplumber & Hdecode).
  rewrite !call_fst. destruct o; f_equal.
  - unfold extract_text, bind, gets, lift. simpl.
    repeat case_decide; try done; simpl.
    + by destruct (file_pages (file me)), (file_metadata (file me)).
    + by destruct (file_paragraphs (file me)),
           (file_core_properties (file me)).
    + by destruct (file_slides (file me)), (file_core_properties (file me)).
  - unfold extract_images, bind, gets, lift, open_fitz. simpl.
    repeat case_decide; try done; simpl.
    + rewrite Hfitz.
      by destruct (fitz_open w' (file_path me)) as [doc|].
    + destruct (file_part_rels (file me)); [|done]. simpl.
      apply for_fold_ext. intros rel images.
      case_match; [|done]. case_match; [|done].
      by rewrite (process_image_same w w').
    + destruct (file_slides (file me)); [|done]. simpl.
      apply for_fold_ext. intros [slide_num slide] images.
      apply for_fold_ext. intros shape acc.
      case_match; [|done]. by rewrite (process_image_same w w').
  - unfold extract_tables, bind, gets, lift, open_pdfplumber. simpl.
    repeat case_decide; try done; simpl.
    + rewrite Hplumber.
      by destruct (pdfplumber_open w' (file_path me)).
    + by destruct (file_tables (file me)).
    + by destruct (file_slides (file me)).
  - unfold extract_links, bind, gets, lift, open_fitz. simpl.
    repeat case_decide; try done; simpl.
    + rewrite Hfitz. by destruct (fitz_open w' (file_path me)).
    + by destruct (file_paragraphs (file me)), (file_part_rels (file me)).
    + by destruct (file_slides (file me)).
Qed.

(** *** Histories *)

Lemma call_on_result (o : operation) (h : handle) :
  fst (call_on o h) = fst (call o (api h)).
Proof.
  destruct o; simpl; try by destruct (call _ (api h)).
  - by destruct (extract_text (api h)).
  - by destruct (extract_images (api h)).
  - by destruct (extract_tables (api h)).
  - rewrite extract_links_on_listed. simpl.
    by destruct (extract_links (api h)).
Qed.

Lemma call_on_handle (o : operation) (h : handle) :
  api (snd (call_on o h)) = api h
  ∧ rPr h ⊆ rPr (snd (call_on o h))
  ∧ rPr (snd (call_on o h)) ⊆ rPr h ∪ touched (api h).
Proof.
  destruct o; simpl.
  - pose proof (extract_text_read_only (api h)) as Hro.
    destruct (extract_text (api h)) as [r s]. simpl in *.
    split; [done|]. split; [done|apply union_subseteq_l].
  - pose proof (extract_images_read_only (api h)) as Hro.
    destruct (extract_images (api h)) as [r s]. simpl in *.
    split; [done|]. split; [done|apply union_subseteq_l].
  - pose proof (extract_tables_read_only (api h)) as Hro.
    destruct (extract_tables (api h)) as [r s]. simpl in *.
    split; [done|]. split; [done|apply union_subseteq_l].
  - rewrite extract_links_on_listed. simpl.
    split; [done|]. split; [apply union_subseteq_l|done].
Qed.

Lemma links_written (h : handle) :
  snd (call_on Links h)
  = {| api := api h; rPr := rPr h ∪ touched (api h) |}.
Proof. simpl. by rewrite extract_links_on_listed. Qed.

Lemma touched_self (s s' : state) : self s = self s' → touched s = touched s'.
Proof. unfold touched. by intros ->. Qed.

(** What a history keeps of the handle [h] it starts from. *)
Lemma later_keeps (h : handle) (history : list event) (h' : handle) :
  file_kept h history →
  self (api h') = self (api h) →
  same_view (file_path (self (api h))) (env (api h)) (env (api h')) →
  rPr h ⊆ rPr h' → rPr h' ⊆ rPr h ∪ touched (api h) →
  self (api (later history h')) = self (api h)
  ∧ same_view (file_path (self (api h))) (env (api h))
      (env (api (later history h')))
  ∧ rPr h ⊆ rPr (later history h')
  ∧ rPr (later history h') ⊆ rPr h ∪ touched (api h).
Proof.
  unfold file_kept, later. intros Hkept. revert h'.
  induction Hkept as [|e history He _ IH]; intros h' Hself Hview Hlow Hhigh;
    [done|].
  simpl. apply IH; destruct e as [o|w]; simpl; try done.
  - by rewrite (proj1 (call_on_handle o h')).
  - by rewrite (proj1 (call_on_handle o h')).
  - etrans; [exact Hlow|]. apply (call_on_handle o h').
  - etrans; [apply (call_on_handle o h')|].
    rewrite (touched_self (api h') (api h)) by done.
    apply union_least; [done|apply union_subseteq_r].
Qed.

Lemma same_view_refl (path : string) (w : world) : same_view path w w.
Proof. by repeat split. Qed.

(** C9, as the code has it.  As long as no event changes the file at the
    handle's path, an operation called after any history of calls and of
    changes to the other files returns what it returns on the handle at the
    start; the result is that of the operation on the attributes of the
    extractor, the file at its path and the decoder, whatever elements the
    library has added to the runs; no event assigns an attribute of the
    extractor; and the run-properties elements the library adds are those of
    runs of the document whose hyperlink extract_links has read. *)
Theorem results_reproducible (history : list event) (o : operation)
    (h : handle) :
  file_kept h history →
  fst (call_on o (later history h)) = fst (call_on o h)
  ∧ fst (call_on o h) = fst (call o (api h))
  ∧ self (api (later history h)) = self (api h)
  ∧ rPr h ⊆ rPr (later history h)
  ∧ rPr (later history h) ⊆ rPr h ∪ touched (api h).
Proof.
  intros Hkept.
  destruct (later_keeps h history h Hkept eq_refl (same_view_refl _ _))
    as (Hself & Hview & Hlow & Hhigh); [done|apply union_subseteq_l|].
  split; [|split; [apply call_on_result|done]].
  rewrite !call_on_result. symmetry. apply call_same_view; [done|].
  by rewrite <- Hself in Hview |- *.
Qed.

End Reproducible.

Lemma results_reproducible_witness :
  fst (Spec.call_on Spec.Links
         (Spec.later [ Spec.Called Spec.Links;
                       Spec.Replaced Examples.report_and_scan;
                       Spec.Called Spec.Tables ]
            (Examples.unread Examples.report)))
  = Spec.LinksOut
      (Py.Ok [ {[ "url" := Py.Str "https://x";
                  "page_number" := Py.Int 2 ]} ]).
Proof.
  rewrite (proj1 (results_reproducible
                    [ Spec.Called Spec.Links;
                      Spec.Replaced Examples.report_and_scan;
                      Spec.Called Spec.Tables ]
                    Spec.Links (Examples.unread Examples.report)
                    ltac:(repeat constructor))).
  rewrite call_on_result. reflexivity.
Defined.

(** C9, as stated, fails.  extract_links writes to the handle of a Slides
    document, and the links of a Paged document are not derived from the
    handle alone: once the file at its path is gone, the same handle gives
    another result. *)
Lemma handle_written_and_file_read :
  snd (Spec.call_on Spec.Links (Examples.unread Examples.deck))
  ≠ Examples.unread Examples.deck
  ∧ fst (Spec.call_on Spec.Links (Examples.unread Examples.report))
    ≠ fst (Spec.call_on Spec.Links (Examples.unread Examples.report_gone)).
Proof.
  split.
  - intros Heq. apply (f_equal DataExtractor.rPr) in Heq.
    assert ((1, 0, 0, 0)%nat
            ∈ DataExtractor.rPr (Examples.unread Examples.deck))
      as Hin; [|by apply not_elem_of_empty in Hin].
    rewrite <- Heq, links_written.
    change ((1, 0, 0, 0)%nat
            ∈ (∅ ∪ list_to_set [(1, 0, 0, 0); (1, 0, 0, 1)]%nat
               : gset DataExtractor.run_id)).
    apply elem_of_union_r, elem_of_list_to_set. constructor.
  - rewrite !call_on_result. vm_compute. discriminate.
Qed.
